(** * Shipment-NL-Query: the rule-based translator of [app/nl_to_mongo.py]

    A shallow embedding of [build_query] and of the functions it calls,
    followed by the properties of the translator.

    Modelling conventions.
    - Text is a [string] of ASCII characters (code points below 128), which
      is the domain on which the character classes below agree with Python's
      Unicode-aware [str.lower], [str.strip], [\s], [\d], [\w] and [\b].
    - Python exceptions are values of [exn]; a function that can raise
      returns a [result].
    - A Python [dict] is an association list in insertion order.
    - [float] values are kept as the exact reduced rational of the decimal
      numeral that [float()] reads (Python rounds it to the nearest double).
    - The system clock and the time-zone constant [TZ] form the ambient
      [World] in which the module runs. *)

From Stdlib Require Import ZArith QArith List String Ascii Bool Lia.
Import ListNotations.
Local Open Scope string_scope.
Local Open Scope Z_scope.

Set Implicit Arguments.

(* ------------------------------------------------------------------ *)
(** ** Exceptions *)

Inductive exn : Type :=
| ValueError      (* float(), int(), datetime.replace, dateutil's ParserError *)
| OverflowError   (* timedelta construction and datetime arithmetic *)
| TypeError.

Inductive result (A : Type) : Type :=
| Ok (a : A)
| Raise (e : exn).

Arguments Ok {A} a.
Arguments Raise {A} e.

Definition bind {A B : Type} (r : result A) (k : A -> result B) : result B :=
  match r with
  | Ok a => k a
  | Raise e => Raise e
  end.

Notation "x <- e ;; k" := (bind e (fun x => k))
  (at level 61, e at next level, right associativity).

(* ------------------------------------------------------------------ *)
(** ** Python strings *)

Module Py.

Definition code (c : ascii) : N := N_of_ascii c.

Definition between_codes (lo hi : N) (c : ascii) : bool :=
  ((lo <=? code c) && (code c <=? hi))%N.

Definition is_upper : ascii -> bool := between_codes 65 90.
Definition is_lower : ascii -> bool := between_codes 97 122.
Definition is_digit : ascii -> bool := between_codes 48 57.

(** [str.isspace] on ASCII: TAB, LF, VT, FF, CR, FS, GS, RS, US, SPACE. *)
Definition is_space (c : ascii) : bool :=
  between_codes 9 13 c || between_codes 28 31 c || (code c =? 32)%N.

(** [\w] on ASCII. *)
Definition is_word (c : ascii) : bool :=
  is_upper c || is_lower c || is_digit c || (code c =? 95)%N.

Definition lower_char (c : ascii) : ascii :=
  if is_upper c then ascii_of_N (code c + 32) else c.

Definition upper_char (c : ascii) : ascii :=
  if is_lower c then ascii_of_N (code c - 32) else c.

(** [s.lower()] *)
Fixpoint lower (s : string) : string :=
  match s with
  | EmptyString => EmptyString
  | String c t => String (lower_char c) (lower t)
  end.

Fixpoint lstrip (s : string) : string :=
  match s with
  | EmptyString => EmptyString
  | String c t => if is_space c then lstrip t else s
  end.

Fixpoint rstrip (s : string) : string :=
  match s with
  | EmptyString => EmptyString
  | String c t =>
      match rstrip t with
      | EmptyString => if is_space c then EmptyString else String c EmptyString
      | t' => String c t'
      end
  end.

(** [s.strip()] *)
Definition strip (s : string) : string := rstrip (lstrip s).

(** [sub in s] *)
Fixpoint contains (sub s : string) : bool :=
  String.prefix sub s ||
  match s with
  | EmptyString => false
  | String _ t => contains sub t
  end.

(** [s.replace] of every comma by nothing. *)
Fixpoint remove_commas (s : string) : string :=
  match s with
  | EmptyString => EmptyString
  | String c t => if (c =? ",")%char then remove_commas t else String c (remove_commas t)
  end.

(** Truth value of a [str]-or-[None]. *)
Definition truthy (o : option string) : bool :=
  match o with
  | Some s => negb (s =? EmptyString)%string
  | None => false
  end.

(** [a or b] on [str]-or-[None] operands. *)
Definition or_else (a b : option string) : option string :=
  if truthy a then a else b.

(** [s or] the empty string. *)
Definition or_empty (s : option string) : string :=
  match s with
  | Some t => t
  | None => EmptyString
  end.

(** Value of a string of decimal digits. *)
Definition digit_val (c : ascii) : Z := Z.of_N (code c) - 48.

Fixpoint digits_val (acc : Z) (s : string) : Z :=
  match s with
  | EmptyString => acc
  | String c t => digits_val (10 * acc + digit_val c) t
  end.

Fixpoint all_digits (s : string) : bool :=
  match s with
  | EmptyString => true
  | String c t => is_digit c && all_digits t
  end.

(** CPython's default [sys.get_int_max_str_digits()]. *)
Definition INT_MAX_STR_DIGITS : nat := 4300.

(** [int(s)] for the strings the module passes, which are runs of [\d]. *)
Definition int (s : string) : result Z :=
  if negb (all_digits s) || (s =? EmptyString)%string then Raise ValueError
  else if (INT_MAX_STR_DIGITS <? String.length s)%nat then Raise ValueError
  else Ok (digits_val 0 s).

Fixpoint pow10 (n : nat) : positive :=
  match n with
  | O => 1
  | S k => 10 * pow10 k
  end.

(** Splits a string at its first ["."]. *)
Fixpoint split_dot (s : string) : string * option string :=
  match s with
  | EmptyString => (EmptyString, None)
  | String c t =>
      if (c =? ".")%char then (EmptyString, Some t)
      else let (a, b) := split_dot t in (String c a, b)
  end.

(** [float(s)] for the strings the module passes, which consist of digits
    and dots: digits with at most one dot and at least one digit. *)
Definition float (s : string) : result Q :=
  let (ip, rest) := split_dot s in
  let fp := match rest with Some f => f | None => EmptyString end in
  if all_digits ip && all_digits fp && negb ((ip ++ fp) =? EmptyString)%string then
    Ok (Qred (Qmake (digits_val 0 (ip ++ fp)) (pow10 (String.length fp))))
  else Raise ValueError.

End Py.


(* ------------------------------------------------------------------ *)
(** ** Regular expressions: the fragment of [re] the module uses

    A backtracking matcher with [re]'s priorities: alternatives left to
    right, greedy repetition longest first, lazy repetition shortest first,
    and [search] taking the leftmost start. Every repetition in the
    module's patterns is over a single character or class, which is what
    [Rep] offers. *)

Module Re.

(** An item between square brackets. *)
Inductive citem : Type :=
| CChar (c : ascii)
| CRange (lo hi : ascii)
| CSpace                       (* \s *)
| CDigit.                      (* \d *)

(** A pattern element that consumes exactly one character. *)
Inductive atom : Type :=
| Chr (c : ascii)
| Cls (items : list citem).

Inductive regex : Type :=
| Eps
| One (a : atom)
| Cat (r1 r2 : regex)
| Alt (r1 r2 : regex)
| Rep (a : atom) (lo : nat) (hi : option nat) (greedy : bool)
| Opt (r : regex)              (* (?:r)? *)
| Grp (i : nat) (r : regex)    (* capturing group number i *)
| WordB                        (* \b *)
| Eos.                         (* $ without MULTILINE *)

Definition citem_has (it : citem) (c : ascii) : bool :=
  match it with
  | CChar x => (x =? c)%char
  | CRange lo hi => Py.between_codes (Py.code lo) (Py.code hi) c
  | CSpace => Py.is_space c
  | CDigit => Py.is_digit c
  end.

Definition class_has (items : list citem) (c : ascii) : bool :=
  existsb (fun it => citem_has it c) items.

(** [ic] is the IGNORECASE flag. *)
Definition atom_has (ic : bool) (a : atom) (c : ascii) : bool :=
  match a with
  | Chr x => if ic then (Py.lower_char x =? Py.lower_char c)%char else (x =? c)%char
  | Cls items =>
      class_has items c ||
      (ic && (class_has items (Py.lower_char c) || class_has items (Py.upper_char c)))
  end.

(** Captured groups, most recent first. *)
Definition groups : Type := list (nat * string).

(** [m.group(i)]. Every group the module reads lies on every path of its
    pattern, so it is set whenever the pattern matched. *)
Fixpoint group (i : nat) (g : groups) : string :=
  match g with
  | [] => EmptyString
  | (j, s) :: g' => if Nat.eqb i j then s else group i g'
  end.

(** The first [n] characters of [s]. *)
Fixpoint take (n : nat) (s : string) : string :=
  match n, s with
  | S k, String c t => String c (take k t)
  | _, _ => EmptyString
  end.

(** What was consumed going from [s] to its suffix [s']. *)
Definition consumed (s s' : string) : string :=
  take (String.length s - String.length s') s.

Definition word_before (prev : option ascii) : bool :=
  match prev with
  | Some c => Py.is_word c
  | None => false
  end.

Definition word_after (s : string) : bool :=
  match s with
  | String c _ => Py.is_word c
  | EmptyString => false
  end.

Definition hi_allows (hi : option nat) : bool :=
  match hi with
  | Some O => false
  | _ => true
  end.

Definition hi_pred (hi : option nat) : option nat :=
  match hi with
  | Some n => Some (Nat.pred n)
  | None => None
  end.

Section Matcher.

Variable A : Type.
Variable ic : bool.

(** The continuation receives the character before the position, the rest
    of the text and the groups. *)
Definition cont : Type := option ascii -> string -> groups -> option A.

Fixpoint rep (a : atom) (lo : nat) (hi : option nat) (greedy : bool)
    (prev : option ascii) (s : string) (g : groups) (k : cont) {struct s} : option A :=
  match lo with
  | S lo' =>
      match s with
      | String c t =>
          if atom_has ic a c && hi_allows hi
          then rep a lo' (hi_pred hi) greedy (Some c) t g k
          else None
      | EmptyString => None
      end
  | O =>
      if greedy then
        match
          match s with
          | String c t =>
              if atom_has ic a c && hi_allows hi
              then rep a O (hi_pred hi) greedy (Some c) t g k
              else None
          | EmptyString => None
          end
        with
        | Some r => Some r
        | None => k prev s g
        end
      else
        match k prev s g with
        | Some r => Some r
        | None =>
            match s with
            | String c t =>
                if atom_has ic a c && hi_allows hi
                then rep a O (hi_pred hi) greedy (Some c) t g k
                else None
            | EmptyString => None
            end
        end
  end.

Fixpoint run (r : regex) (prev : option ascii) (s : string) (g : groups)
    (k : cont) {struct r} : option A :=
  match r with
  | Eps => k prev s g
  | One a =>
      match s with
      | String c t => if atom_has ic a c then k (Some c) t g else None
      | EmptyString => None
      end
  | Cat r1 r2 => run r1 prev s g (fun prev' s' g' => run r2 prev' s' g' k)
  | Alt r1 r2 =>
      match run r1 prev s g k with
      | Some x => Some x
      | None => run r2 prev s g k
      end
  | Rep a lo hi greedy => rep a lo hi greedy prev s g k
  | Opt r1 =>
      match run r1 prev s g k with
      | Some x => Some x
      | None => k prev s g
      end
  | Grp i r1 => run r1 prev s g (fun prev' s' g' => k prev' s' ((i, consumed s s') :: g'))
  | WordB => if xorb (word_before prev) (word_after s) then k prev s g else None
  | Eos =>
      match s with
      | EmptyString => k prev s g
      | String c EmptyString => if (Py.code c =? 10)%N then k prev s g else None
      | _ => None
      end
  end.

End Matcher.

(** A match: its groups and the text that follows it. *)
Definition match_at (ic : bool) (r : regex) (prev : option ascii) (s : string)
  : option (groups * string) :=
  run ic r prev s [] (fun _ s' g => Some (g, s')).

Fixpoint search_from (ic : bool) (r : regex) (prev : option ascii) (s : string)
  : option groups :=
  match match_at ic r prev s with
  | Some (g, _) => Some g
  | None =>
      match s with
      | String c t => search_from ic r (Some c) t
      | EmptyString => None
      end
  end.

(** [re.search(r, s, flags)]: the groups of the leftmost match. *)
Definition search (ic : bool) (r : regex) (s : string) : option groups :=
  search_from ic r None s.

Definition found (o : option groups) : bool :=
  match o with
  | Some _ => true
  | None => false
  end.

(** [re.finditer(r, s)]: successive matches, each search starting where the
    previous match ended. [skip] counts the characters of the current match
    still to be passed over. *)
Fixpoint finditer_from (ic : bool) (r : regex) (prev : option ascii) (s : string)
    (skip : nat) {struct s} : list groups :=
  match skip with
  | S n =>
      match s with
      | String c t => finditer_from ic r (Some c) t n
      | EmptyString => []
      end
  | O =>
      match match_at ic r prev s with
      | Some (g, s') =>
          g :: match s with
               | String c t =>
                   finditer_from ic r (Some c) t
                     (Nat.pred (String.length s - String.length s'))
               | EmptyString => []
               end
      | None =>
          match s with
          | String c t => finditer_from ic r (Some c) t O
          | EmptyString => []
          end
      end
  end.

Definition finditer (ic : bool) (r : regex) (s : string) : list groups :=
  finditer_from ic r None s O.

(** Pattern-building shorthands. *)
Fixpoint lit (s : string) : regex :=
  match s with
  | EmptyString => Eps
  | String c EmptyString => One (Chr c)
  | String c t => Cat (One (Chr c)) (lit t)
  end.

Fixpoint seq (rs : list regex) : regex :=
  match rs with
  | [] => Eps
  | [r] => r
  | r :: rs' => Cat r (seq rs')
  end.

Fixpoint alt (rs : list regex) : regex :=
  match rs with
  | [] => Eps
  | [r] => r
  | r :: rs' => Alt r (alt rs')
  end.

Definition space : atom := Cls [CSpace].
Definition digit : atom := Cls [CDigit].
Definition plus (a : atom) : regex := Rep a 1 None true.          (* a+  *)
Definition star (a : atom) : regex := Rep a 0 None true.          (* a*  *)
Definition lazy_plus (a : atom) : regex := Rep a 1 None false.    (* a+? *)
Definition times (n : nat) (a : atom) : regex := Rep a n (Some n) true.  (* a{n} *)
Definition maybe (c : ascii) : regex := Rep (Chr c) 0 (Some 1%nat) true. (* c?  *)

End Re.

(* ------------------------------------------------------------------ *)
(** ** [datetime]: the operations the module uses *)

Module Datetime.

Record datetime : Type := mkdt {
  year : Z; month : Z; day : Z;
  hour : Z; minute : Z; second : Z; microsecond : Z;
  tzinfo : option string        (* [None] for a naive datetime *)
}.

Definition MINYEAR : Z := 1.
Definition MAXYEAR : Z := 9999.
Definition MAXORDINAL : Z := 3652059.   (* date(9999, 12, 31).toordinal() *)

Definition is_leap (y : Z) : bool :=
  (y mod 4 =? 0) && (negb (y mod 100 =? 0) || (y mod 400 =? 0)).

Definition DAYS_IN_MONTH : list Z := [-1; 31; 28; 31; 30; 31; 30; 31; 31; 30; 31; 30; 31].
Definition DAYS_BEFORE_MONTH : list Z :=
  [-1; 0; 31; 59; 90; 120; 151; 181; 212; 243; 273; 304; 334].

Definition days_in_month (y m : Z) : Z :=
  if (m =? 2) && is_leap y then 29 else nth (Z.to_nat m) DAYS_IN_MONTH 0.

Definition days_before_year (y : Z) : Z :=
  let y1 := y - 1 in y1 * 365 + y1 / 4 - y1 / 100 + y1 / 400.

Definition b2z (b : bool) : Z := if b then 1 else 0.

Definition days_before_month (y m : Z) : Z :=
  nth (Z.to_nat m) DAYS_BEFORE_MONTH 0 + b2z ((2 <? m) && is_leap y).

Definition ymd2ord (y m d : Z) : Z :=
  days_before_year y + days_before_month y m + d.

Definition DI400Y : Z := 146097.
Definition DI100Y : Z := 36524.
Definition DI4Y : Z := 1461.

Definition ord2ymd (n0 : Z) : Z * Z * Z :=
  let n := n0 - 1 in
  let n400 := n / DI400Y in let n := n mod DI400Y in
  let y := n400 * 400 + 1 in
  let n100 := n / DI100Y in let n := n mod DI100Y in
  let n4 := n / DI4Y in let n := n mod DI4Y in
  let n1 := n / 365 in let n := n mod 365 in
  let y := y + n100 * 100 + n4 * 4 + n1 in
  if (n1 =? 4) || (n100 =? 4) then (y - 1, 12, 31)
  else
    let leapyear := (n1 =? 3) && (negb (n4 =? 24) || (n100 =? 3)) in
    let m := Z.shiftr (n + 50) 5 in
    let preceding := nth (Z.to_nat m) DAYS_BEFORE_MONTH 0 + b2z ((2 <? m) && leapyear) in
    if n <? preceding then
      let m' := m - 1 in
      let preceding' :=
        preceding - (nth (Z.to_nat m') DAYS_IN_MONTH 0 + b2z ((m' =? 2) && leapyear)) in
      (y, m', n - preceding' + 1)
    else (y, m, n - preceding + 1).

Definition toordinal (d : datetime) : Z := ymd2ord (year d) (month d) (day d).

(** [d.weekday()]: Monday is 0. *)
Definition weekday (d : datetime) : Z := (toordinal d + 6) mod 7.

Definition check_date_fields (y m d : Z) : bool :=
  (MINYEAR <=? y) && (y <=? MAXYEAR) && (1 <=? m) && (m <=? 12) &&
  (1 <=? d) && (d <=? days_in_month y m).

Definition check_time_fields (h mi s us : Z) : bool :=
  (0 <=? h) && (h <=? 23) && (0 <=? mi) && (mi <=? 59) &&
  (0 <=? s) && (s <=? 59) && (0 <=? us) && (us <=? 999999).

Definition or_default (o : option Z) (d : Z) : Z :=
  match o with
  | Some v => v
  | None => d
  end.

(** [d.replace(year=.., month=.., ...)]: the constructor validates the
    new fields and raises [ValueError] when one is out of range. *)
Definition replace (d : datetime) (y m dd h mi s us : option Z) : result datetime :=
  let y' := or_default y (year d) in
  let m' := or_default m (month d) in
  let d' := or_default dd (day d) in
  let h' := or_default h (hour d) in
  let mi' := or_default mi (minute d) in
  let s' := or_default s (second d) in
  let us' := or_default us (microsecond d) in
  if check_date_fields y' m' d' && check_time_fields h' mi' s' us'
  then Ok (mkdt y' m' d' h' mi' s' us' (tzinfo d))
  else Raise ValueError.

(** [d.replace(hour=0, minute=0, second=0, microsecond=0)] *)
Definition midnight (d : datetime) : result datetime :=
  replace d None None None (Some 0) (Some 0) (Some 0) (Some 0).

(** [timedelta(days=n)]: the number of days, bounded in magnitude. *)
Definition timedelta_days (n : Z) : result Z :=
  if Z.abs n <=? 999999999 then Ok n else Raise OverflowError.

(** [d + timedelta(days=n)]: the time of day and the zone are kept. *)
Definition add_days (d : datetime) (n : Z) : result datetime :=
  let o := toordinal d + n in
  if (0 <? o) && (o <=? MAXORDINAL) then
    let '(y, m, dd) := ord2ymd o in
    Ok (mkdt y m dd (hour d) (minute d) (second d) (microsecond d) (tzinfo d))
  else Raise OverflowError.

(** [d - timedelta(days=n)] *)
Definition sub_days (d : datetime) (n : Z) : result datetime := add_days d (- n).

End Datetime.

Export Datetime.

(** [dateutil.parser.parse] on the strings the module passes to it, which
    have the shape [dddd-dd-dd]: year, month and day are read in that
    order, the time is midnight and the result is naive; a date that does
    not exist raises [ParserError], a [ValueError]. *)
Definition dateparser_parse (s : string) : result datetime :=
  let y := Py.digits_val 0 (substring 0 4 s) in
  let m := Py.digits_val 0 (substring 5 2 s) in
  let d := Py.digits_val 0 (substring 8 2 s) in
  if (String.length s =? 10)%nat
     && Py.all_digits (substring 0 4 s) && (substring 4 1 s =? "-")%string
     && Py.all_digits (substring 5 2 s) && (substring 7 1 s =? "-")%string
     && Py.all_digits (substring 8 2 s)
     && check_date_fields y m d
  then Ok (mkdt y m d 0 0 0 0 None)
  else Raise ValueError.

(* ------------------------------------------------------------------ *)
(** ** Python values and dictionaries *)

#[warnings="-register-all"] Inductive pyval : Type :=
| PNone
| PInt (n : Z)
| PFloat (q : Q)
| PStr (s : string)
| PDatetime (d : datetime)
| PList (l : list pyval)
| PDict (d : list (string * pyval)).

Definition dict : Type := list (string * pyval).

(** [d.get(k)] *)
Fixpoint lookup (k : string) (d : dict) : option pyval :=
  match d with
  | [] => None
  | (k', v) :: d' => if (k' =? k)%string then Some v else lookup k d'
  end.

(** [d[k] = v]: an existing key keeps its position. *)
Fixpoint dict_set (k : string) (v : pyval) (d : dict) : dict :=
  match d with
  | [] => [(k, v)]
  | (k', v') :: d' =>
      if (k' =? k)%string then (k, v) :: d' else (k', v') :: dict_set k v d'
  end.

(** [d.update(e)] *)
Definition update (d e : dict) : dict :=
  fold_left (fun acc kv => dict_set (fst kv) (snd kv) acc) e d.

(** [d.setdefault(k, v)], for its effect on [d]. *)
Definition setdefault (k : string) (v : pyval) (d : dict) : dict :=
  match lookup k d with
  | Some _ => d
  | None => dict_set k v d
  end.

(** Truth value of a dict. *)
Definition nonempty (d : dict) : bool :=
  match d with
  | [] => false
  | _ => true
  end.

(* ------------------------------------------------------------------ *)
(** ** The module [nl_to_mongo] *)

(** The environment of a call: the module constant [TZ] (set at import
    when the zone database loads) and the system clock, given as the
    value [datetime.now(tz)] returns. *)
Record World : Type := {
  TZ : option string;
  clock : option string -> datetime
}.

Definition MONTH_KEYWORDS : list string := ["this month"; "current month"].
Definition YEAR_KEYWORDS : list string := ["this year"; "current year"].
Definition WEEK_KEYWORDS : list string := ["this week"; "current week"].

(** [last\s+(\d+)\s+days?] *)
Definition LAST_N_DAYS_RE : Re.regex :=
  Re.seq [Re.lit "last"; Re.plus Re.space; Re.Grp 1 (Re.plus Re.digit);
          Re.plus Re.space; Re.lit "day"; Re.maybe "s"].

(** [last\s+7\s+days?] *)
Definition LAST_7_DAYS_RE : Re.regex :=
  Re.seq [Re.lit "last"; Re.plus Re.space; Re.lit "7";
          Re.plus Re.space; Re.lit "day"; Re.maybe "s"].

(** [last\s+7\s+day] *)
Definition LAST_7_DAY_RE : Re.regex :=
  Re.seq [Re.lit "last"; Re.plus Re.space; Re.lit "7"; Re.plus Re.space; Re.lit "day"].

Definition COST_KEYWORDS : list string :=
  ["discount"; "discounted cost"; "published cost"; "published";
   "marked up"; "marked"; "cost"; "amount"; "charge"; "price"; "freight"].
Definition DATE_FIELD_HINTS : list string :=
  ["ship date"; "ship"; "created"; "date"; "delivered"; "etd"].
Definition STATUS_FIELD_HINTS : list string :=
  ["status"; "delivery status"; "shipment type"].

(** The inner loop of [find_field]: the first column whose lowercase name
    contains [kw]. *)
Fixpoint first_column_with (kw : string) (cols : list string) : option string :=
  match cols with
  | [] => None
  | c :: cols' =>
      if Py.contains (Py.lower kw) (Py.lower c) then Some c
      else first_column_with kw cols'
  end.

Fixpoint find_field (columns : list string) (keywords : list string) : option string :=
  match keywords with
  | [] => None
  | kw :: kws =>
      match first_column_with kw columns with
      | Some c => Some c
      | None => find_field columns kws
      end
  end.

(** The fallback loop of [detect_cost_field]. *)
Fixpoint cost_like_column (columns : list string) : option string :=
  match columns with
  | [] => None
  | c :: cs =>
      let lc := Py.lower c in
      if Py.contains "cost" lc || Py.contains "amount" lc
         || Py.contains "charge" lc || Py.contains "price" lc
      then Some c else cost_like_column cs
  end.

(** The priority loop of [detect_cost_field]. *)
Fixpoint cost_by_keyword (columns : list string) (kws : list string) : option string :=
  match kws with
  | [] => None
  | kw :: kws' =>
      let f := find_field columns [kw] in
      if Py.truthy f then f else cost_by_keyword columns kws'
  end.

Definition detect_cost_field (columns : list string) : option string :=
  match cost_by_keyword columns COST_KEYWORDS with
  | Some f => Some f
  | None => cost_like_column columns
  end.

Definition detect_date_field (columns : list string) : option string :=
  find_field columns DATE_FIELD_HINTS.

Definition detect_status_field (columns : list string) : option string :=
  find_field columns STATUS_FIELD_HINTS.

Definition now_with_tz (w : World) : datetime :=
  match TZ w with
  | Some tz => clock w (Some tz)
  | None => clock w None
  end.

(** [between\s+(\d{4}-\d{2}-\d{2})\s+and\s+(\d{4}-\d{2}-\d{2})] *)
Definition YMD : Re.regex :=
  Re.seq [Re.times 4 Re.digit; Re.lit "-"; Re.times 2 Re.digit; Re.lit "-";
          Re.times 2 Re.digit].

Definition BETWEEN_RE : Re.regex :=
  Re.seq [Re.lit "between"; Re.plus Re.space; Re.Grp 1 YMD; Re.plus Re.space;
          Re.lit "and"; Re.plus Re.space; Re.Grp 2 YMD].

(** [any(k in nl_low for k in keywords)] *)
Definition any_in (keywords : list string) (nl_low : string) : bool :=
  existsb (fun k => Py.contains k nl_low) keywords.

(** [{date_field: {lo_key: lo, hi_key: hi}}] *)
Definition date_range (date_field lo_key : string) (lo : datetime)
    (hi_key : string) (hi : datetime) : dict :=
  [(date_field, PDict [(lo_key, PDatetime lo); (hi_key, PDatetime hi)])].

(** The explicit range of [parse_date_specifics] (lines 113-119): [None]
    when the pattern does not match or a date does not parse, which is
    where the source goes on to the relative phrases. *)
Definition explicit_range (nl date_field : string) : option dict :=
  match Re.search true BETWEEN_RE nl with
  | Some m =>
      let a := Re.group 1 m in
      let b := Re.group 2 m in
      match dateparser_parse a, dateparser_parse b with
      | Ok da, Ok db => Some (date_range date_field "$gte" da "$lte" db)
      | _, _ => None
      end
  | None => None
  end.

(** The relative phrases of [parse_date_specifics] (lines 123-159). *)
Definition relative_range (now : datetime) (nl date_field : string) : result dict :=
  let nl_low := Py.lower nl in
  if any_in MONTH_KEYWORDS nl_low then
    start <- replace now None None (Some 1) (Some 0) (Some 0) (Some 0) (Some 0) ;;
    end_ <- (if month start =? 12
             then replace start (Some (year start + 1)) (Some 1) None None None None None
             else replace start None (Some (month start + 1)) None None None None None) ;;
    Ok (date_range date_field "$gte" start "$lt" end_)
  else if any_in YEAR_KEYWORDS nl_low then
    start <- replace now None (Some 1) (Some 1) (Some 0) (Some 0) (Some 0) (Some 0) ;;
    end_ <- replace start (Some (year start + 1)) None None None None None None ;;
    Ok (date_range date_field "$gte" start "$lt" end_)
  else if any_in WEEK_KEYWORDS nl_low then
    delta <- timedelta_days (weekday now) ;;
    d <- sub_days now delta ;;
    monday <- midnight d ;;
    week <- timedelta_days 7 ;;
    next_monday <- add_days monday week ;;
    Ok (date_range date_field "$gte" monday "$lt" next_monday)
  else
    match Re.search true LAST_N_DAYS_RE nl with
    | Some m =>
        n <- Py.int (Re.group 1 m) ;;
        delta <- timedelta_days n ;;
        d <- sub_days now delta ;;
        start <- midnight d ;;
        Ok (date_range date_field "$gte" start "$lt" now)
    | None =>
        if Re.found (Re.search true LAST_7_DAYS_RE nl)
           || Re.found (Re.search true LAST_7_DAY_RE nl)
        then
          delta <- timedelta_days 7 ;;
          d <- sub_days now delta ;;
          start <- midnight d ;;
          Ok (date_range date_field "$gte" start "$lt" now)
        else Ok []
    end.

Definition parse_date_specifics (w : World) (nl : string) (columns : list string)
    (date_override : option string) : result dict :=
  let date_field := Py.or_else date_override (detect_date_field columns) in
  match date_field with
  | Some f =>
      if negb (Py.truthy date_field) then Ok []
      else
        match explicit_range nl f with
        | Some d => Ok d
        | None => relative_range (now_with_tz w) nl f
        end
  | None => Ok []
  end.

(** [\bhow many\b|\bcount\b|\bnumber of\b] *)
Definition COUNT_RE : Re.regex :=
  Re.alt [Re.seq [Re.WordB; Re.lit "how many"; Re.WordB];
          Re.seq [Re.WordB; Re.lit "count"; Re.WordB];
          Re.seq [Re.WordB; Re.lit "number of"; Re.WordB]].

Definition detect_count (nl : string) : bool :=
  Re.found (Re.search false COUNT_RE (Py.lower nl)).

(** [top\s+(\d+)] *)
Definition TOP_RE : Re.regex :=
  Re.seq [Re.lit "top"; Re.plus Re.space; Re.Grp 1 (Re.plus Re.digit)].

Definition detect_top_n (nl : string) : result (option Z) :=
  match Re.search true TOP_RE nl with
  | Some m => n <- Py.int (Re.group 1 m) ;; Ok (Some n)
  | None => Ok None
  end.

(** [\b(total|sum|total cost|total amount)\b] *)
Definition SUM_RE : Re.regex :=
  Re.seq [Re.WordB;
          Re.Grp 1 (Re.alt [Re.lit "total"; Re.lit "sum"; Re.lit "total cost";
                            Re.lit "total amount"]);
          Re.WordB].

Definition detect_sum_request (nl : string) : bool :=
  Re.found (Re.search false SUM_RE (Py.lower nl)).

(** [group(?:ed)? by\s+([a-z0-9 _-]+)] *)
Definition GROUP_BY_RE : Re.regex :=
  Re.seq [Re.lit "group"; Re.Opt (Re.lit "ed"); Re.lit " by"; Re.plus Re.space;
          Re.Grp 1 (Re.plus (Re.Cls [Re.CRange "a" "z"; Re.CRange "0" "9";
                                      Re.CChar " "; Re.CChar "_"; Re.CChar "-"]))].

Definition detect_group_by (nl : string) : option string :=
  match Re.search true GROUP_BY_RE nl with
  | Some m => Some (Py.strip (Re.group 1 m))
  | None =>
      if Py.contains "by status" (Py.lower nl)
         || Py.contains "group by status" (Py.lower nl)
         || Py.contains "grouped by status" (Py.lower nl)
      then Some "status"
      else None
  end.

(** [\bfrom\s+([A-Za-z0-9\-\s,]+?)(?:\s+to\b|$)] *)
Definition PLACE : Re.atom :=
  Re.Cls [Re.CRange "A" "Z"; Re.CRange "a" "z"; Re.CRange "0" "9";
          Re.CChar "-"; Re.CSpace; Re.CChar ","].

Definition FROM_RE : Re.regex :=
  Re.seq [Re.WordB; Re.lit "from"; Re.plus Re.space; Re.Grp 1 (Re.lazy_plus PLACE);
          Re.Alt (Re.seq [Re.plus Re.space; Re.lit "to"; Re.WordB]) Re.Eos].

(** [\bto\s+([A-Za-z0-9\-\s,]+?)(?:\s+with\b|$)] *)
Definition TO_RE : Re.regex :=
  Re.seq [Re.WordB; Re.lit "to"; Re.plus Re.space; Re.Grp 1 (Re.lazy_plus PLACE);
          Re.Alt (Re.seq [Re.plus Re.space; Re.lit "with"; Re.WordB]) Re.Eos].

Definition STATUS_WORDS : list string :=
  ["delivered"; "pending"; "in transit"; "cancelled"; "returned"; "booked"; "shipped"].

(** [r"\b" + re.escape(s) + r"\b"] *)
Definition status_re (s : string) : Re.regex :=
  Re.seq [Re.WordB; Re.lit s; Re.WordB].

(** [([A-Za-z _#\-]{2,40})\s*(>=|<=|>|<|=)\s*([0-9,\.]+)] *)
Definition NUMERIC_RE : Re.regex :=
  Re.seq [Re.Grp 1 (Re.Rep (Re.Cls [Re.CRange "A" "Z"; Re.CRange "a" "z"; Re.CChar " ";
                                    Re.CChar "_"; Re.CChar "#"; Re.CChar "-"])
                           2 (Some 40%nat) true);
          Re.star Re.space;
          Re.Grp 2 (Re.alt [Re.lit ">="; Re.lit "<="; Re.lit ">"; Re.lit "<"; Re.lit "="]);
          Re.star Re.space;
          Re.Grp 3 (Re.plus (Re.Cls [Re.CRange "0" "9"; Re.CChar ","; Re.CChar "."]))].

(** [opmap], on the operators the pattern admits. *)
Definition opmap (op : string) : string :=
  if (op =? "=")%string then "$eq"
  else if (op =? ">")%string then "$gt"
  else if (op =? "<")%string then "$lt"
  else if (op =? ">=")%string then "$gte"
  else "$lte".

(** [{"$regex": s, "$options": "i"}] *)
Definition regex_pred (s : string) : pyval :=
  PDict [("$regex", PStr s); ("$options", PStr "i")].

(** The write of lines 197-201: the origin column and its predicate,
    when the pattern matches and the column resolves. *)
Definition origin_write (nl : string) (columns : list string) : option (string * pyval) :=
  match Re.search true FROM_RE nl with
  | Some m_from =>
      let fld := find_field columns ["origin"; "from"; "location"] in
      match fld with
      | Some f =>
          if Py.truthy fld then Some (f, regex_pred (Py.strip (Re.group 1 m_from)))
          else None
      | None => None
      end
  | None => None
  end.

(** The write of lines 203-207. *)
Definition destination_write (nl : string) (columns : list string)
  : option (string * pyval) :=
  match Re.search true TO_RE nl with
  | Some m_to =>
      let fld := find_field columns ["destination"; "to"; "to company"; "to id"] in
      match fld with
      | Some f =>
          if Py.truthy fld then Some (f, regex_pred (Py.strip (Re.group 1 m_to)))
          else None
      | None => None
      end
  | None => None
  end.

(** The status words found in the text (lines 210-213). *)
Definition mentioned_statuses (nl : string) : list string :=
  List.filter (fun s => Re.found (Re.search true (status_re s) nl)) STATUS_WORDS.

(** The write of lines 214-217. *)
Definition status_write (nl : string) (columns : list string) : option (string * pyval) :=
  let statuses := mentioned_statuses nl in
  match statuses with
  | [] => None
  | _ =>
      let status_field := detect_status_field columns in
      match status_field with
      | Some f =>
          if Py.truthy status_field
          then Some (f, PDict [("$in", PList (map PStr statuses))])
          else None
      | None => None
      end
  end.

(** [filt[fld] = v], when there is something to write. *)
Definition apply_write (wr : option (string * pyval)) (filt : dict) : dict :=
  match wr with
  | Some (fld, v) => dict_set fld v filt
  | None => filt
  end.

(** The column a comparison resolves to (lines 223-224): [None] when the
    comparison is dropped. *)
Definition comparison_column (columns : list string) (cost_override : option string)
    (ft : string) : option string :=
  let col := Py.or_else (find_field columns [Py.strip ft])
                        (Py.or_else cost_override (detect_cost_field columns)) in
  if Py.truthy col then col else None.

(** [filt[col][k] = v] *)
Definition set_inner (col k : string) (v : pyval) (filt : dict) : result dict :=
  match lookup col filt with
  | Some (PDict inner) => Ok (dict_set col (PDict (dict_set k v inner)) filt)
  | _ => Raise TypeError
  end.

(** The body of the comparison loop (lines 221-228) for one match. *)
Definition comparison_step (columns : list string) (cost_override : option string)
    (filt : dict) (m : Re.groups) : result dict :=
  let ft := Re.group 1 m in
  let op := Re.group 2 m in
  let num := Re.group 3 m in
  match comparison_column columns cost_override ft with
  | Some col =>
      val <- Py.float (Py.remove_commas num) ;;
      set_inner col (opmap op) (PFloat val) (setdefault col (PDict []) filt)
  | None => Ok filt
  end.

Fixpoint comparison_loop (columns : list string) (cost_override : option string)
    (ms : list Re.groups) (filt : dict) : result dict :=
  match ms with
  | [] => Ok filt
  | m :: ms' =>
      filt' <- comparison_step columns cost_override filt m ;;
      comparison_loop columns cost_override ms' filt'
  end.

(** The filter of [build_query] (lines 189-228), for the stripped text. *)
Definition build_filter (w : World) (nl : string) (columns : list string)
    (date_override cost_override : option string) : result dict :=
  date_filter <- parse_date_specifics w nl columns date_override ;;
  let filt := if nonempty date_filter then update [] date_filter else [] in
  let filt := apply_write (origin_write nl columns) filt in
  let filt := apply_write (destination_write nl columns) filt in
  let filt := apply_write (status_write nl columns) filt in
  comparison_loop columns cost_override (Re.finditer false NUMERIC_RE nl) filt.

Record aggregation : Type := {
  type : string;
  pipeline : list pyval
}.

Record query : Type := {
  filter : dict;
  limit : Z;
  is_count : bool;
  agg : option aggregation
}.

(** [{"$convert": {"input": f"${cost_field}", "to": "double", "onError": 0, "onNull": 0}}] *)
Definition to_double (cost_field : string) : pyval :=
  PDict [("$convert", PDict [("input", PStr ("$" ++ cost_field)); ("to", PStr "double");
                             ("onError", PInt 0); ("onNull", PInt 0)])].

Definition match_stage (filt : dict) : pyval := PDict [("$match", PDict filt)].

(** Lines 242-258. *)
Definition sum_pipeline (filt : dict) (cost_field : string) : list pyval :=
  [match_stage (if nonempty filt then filt else []);
   PDict [("$group", PDict [("_id", PNone);
                            ("total", PDict [("$sum", to_double cost_field)])])]].

(** Lines 271-289. *)
Definition group_pipeline (filt : dict) (group_field cost_field : string) : list pyval :=
  [match_stage (if nonempty filt then filt else []);
   PDict [("$group", PDict [("_id", PStr ("$" ++ group_field));
                            ("count", PDict [("$sum", PInt 1)]);
                            ("total_cost", PDict [("$sum", to_double cost_field)]);
                            ("avg_cost", PDict [("$avg", to_double cost_field)])])];
   PDict [("$sort", PDict [("total_cost", PInt (-1))])]].

(** Lines 298-311. *)
Definition top_pipeline (filt : dict) (cost_field : string) (topn : Z) : list pyval :=
  (if nonempty filt then [match_stage filt] else []) ++
  [PDict [("$addFields", PDict [("__cost_num", to_double cost_field)])];
   PDict [("$sort", PDict [("__cost_num", PInt (-1))])];
   PDict [("$limit", PInt topn)];
   PDict [("$project", PDict [("__cost_num", PInt 0)])]].

(** The grouping column (lines 265-268). *)
Definition group_field_of (columns : list string) (group_by : string) : option string :=
  if existsb (String.eqb (Py.lower group_by)) ["status"; "delivery status"; "shipment status"]
  then Py.or_else (detect_status_field columns) (find_field columns [group_by])
  else find_field columns [group_by].

(** The sum branch (lines 239-260): the aggregation it returns with, if any. *)
Definition sum_branch (nl : string) (columns : list string) (cost_override : option string)
    (filt : dict) : option aggregation :=
  if detect_sum_request nl then
    let cost_field := Py.or_else cost_override (detect_cost_field columns) in
    match cost_field with
    | Some cf =>
        if Py.truthy cost_field
        then Some {| type := "sum"; pipeline := sum_pipeline filt cf |}
        else None
    | None => None
    end
  else None.

(** The group-by branch (lines 263-291). *)
Definition group_branch (nl : string) (columns : list string) (cost_override : option string)
    (filt : dict) : option aggregation :=
  let group_by := detect_group_by nl in
  match group_by with
  | Some gb =>
      if Py.truthy group_by then
        let group_field := group_field_of columns gb in
        let cost_field := Py.or_else cost_override (detect_cost_field columns) in
        match group_field, cost_field with
        | Some gf, Some cf =>
            if Py.truthy group_field && Py.truthy cost_field
            then Some {| type := "group_cost"; pipeline := group_pipeline filt gf cf |}
            else None
        | _, _ => None
        end
      else None
  | None => None
  end.

(** The top-N branch (lines 294-313). *)
Definition top_branch (nl : string) (columns : list string) (cost_override : option string)
    (filt : dict) : result (option aggregation) :=
  topn <- detect_top_n nl ;;
  match topn with
  | Some n =>
      if negb (n =? 0) then
        let cost_field := Py.or_else cost_override (detect_cost_field columns) in
        match cost_field with
        | Some cf =>
            if Py.truthy cost_field
            then Ok (Some {| type := "top"; pipeline := top_pipeline filt cf n |})
            else Ok None
        | None => Ok None
        end
      else Ok None
  | None => Ok None
  end.

Definition build_query (w : World) (nl_text : option string) (columns : list string)
    (date_override cost_override : option string) : result query :=
  let nl := Py.strip (Py.or_empty nl_text) in
  filt <- build_filter w nl columns date_override cost_override ;;
  let q := {| filter := filt; limit := 100; is_count := false; agg := None |} in
  if detect_count nl then
    Ok {| filter := filt; limit := 100; is_count := true; agg := None |}
  else
    match sum_branch nl columns cost_override filt with
    | Some a => Ok {| filter := filt; limit := 100; is_count := false; agg := Some a |}
    | None =>
        match group_branch nl columns cost_override filt with
        | Some a => Ok {| filter := filt; limit := 100; is_count := false; agg := Some a |}
        | None =>
            top <- top_branch nl columns cost_override filt ;;
            match top with
            | Some a => Ok {| filter := filt; limit := 100; is_count := false; agg := Some a |}
            | None => Ok q
            end
        end
    end.

(* ------------------------------------------------------------------ *)
(** ** The range helpers of the module *)

(** [now or now_with_tz()]: a datetime is always true. *)
Definition now_or (w : World) (now : option datetime) : datetime :=
  match now with
  | Some d => d
  | None => now_with_tz w
  end.

(** [month_range(now=None)] (lines 77-84). *)
Definition month_range (w : World) (now : option datetime) : result (datetime * datetime) :=
  let now := now_or w now in
  start <- replace now None None (Some 1) (Some 0) (Some 0) (Some 0) (Some 0) ;;
  end_ <- (if month start =? 12
           then replace start (Some (year start + 1)) (Some 1) None None None None None
           else replace start None (Some (month start + 1)) None None None None None) ;;
  Ok (start, end_).

(** [last_n_days_range(n, now=None)] (lines 87-91), for an integer [n]. *)
Definition last_n_days_range (w : World) (n : Z) (now : option datetime)
  : result (datetime * datetime) :=
  let now := now_or w now in
  let end_ := now in
  delta <- timedelta_days n ;;
  start <- sub_days now delta ;;
  Ok (start, end_).

(* ------------------------------------------------------------------ *)
(** ** Worlds used in the examples *)

Definition KOLKATA : option string := Some "Asia/Kolkata".

(** The clock reads 2024-03-15 10:00 in every zone asked for. *)
Definition world_2024_03_15 : World :=
  {| TZ := KOLKATA; clock := fun tz => mkdt 2024 3 15 10 0 0 0 tz |}.

(** One month later. *)
Definition world_2024_04_15 : World :=
  {| TZ := KOLKATA; clock := fun tz => mkdt 2024 4 15 10 0 0 0 tz |}.

(** Same reading in Asia/Kolkata as [world_2024_03_15], another local time. *)
Definition world_2024_03_15_elsewhere : World :=
  {| TZ := KOLKATA;
     clock := fun tz => match tz with
                        | Some _ => mkdt 2024 3 15 10 0 0 0 tz
                        | None => mkdt 2024 3 15 4 30 0 0 tz
                        end |}.

(** Whether one of the relative phrases of lines 123-157 occurs in the text. *)
Definition relative_phrase (nl : string) : bool :=
  any_in MONTH_KEYWORDS (Py.lower nl) || any_in YEAR_KEYWORDS (Py.lower nl)
  || any_in WEEK_KEYWORDS (Py.lower nl)
  || Re.found (Re.search true LAST_N_DAYS_RE nl)
  || Re.found (Re.search true LAST_7_DAYS_RE nl)
  || Re.found (Re.search true LAST_7_DAY_RE nl).

(** The columns that predicate extraction writes to (lines 197-228). *)
Definition option_list {A : Type} (o : option A) : list A :=
  match o with
  | Some a => [a]
  | None => []
  end.

Definition comparison_targets (nl : string) (columns : list string)
    (cost_override : option string) : list string :=
  flat_map (fun m => option_list (comparison_column columns cost_override (Re.group 1 m)))
           (Re.finditer false NUMERIC_RE nl).

Definition predicate_targets (nl : string) (columns : list string)
    (cost_override : option string) : list string :=
  map fst (option_list (origin_write nl columns))
  ++ map fst (option_list (destination_write nl columns))
  ++ map fst (option_list (status_write nl columns))
  ++ comparison_targets nl columns cost_override.

(* ------------------------------------------------------------------ *)
(** ** Notions used in the statements *)

(** A datetime the [datetime] constructor accepts. *)
Definition valid_datetime (d : datetime) : bool :=
  check_date_fields (year d) (month d) (day d) &&
  check_time_fields (hour d) (minute d) (second d) (microsecond d).

(** Python's order on datetimes that share their [tzinfo]: the fields year
    to microsecond, compared lexicographically. *)
Definition dt_fields (d : datetime) : list Z :=
  [year d; month d; day d; hour d; minute d; second d; microsecond d].

Fixpoint lex_ltb (a b : list Z) : bool :=
  match a, b with
  | x :: a', y :: b' => (x <? y) || ((x =? y) && lex_ltb a' b')
  | [], _ :: _ => true
  | _, [] => false
  end.

Definition dt_ltb (a b : datetime) : bool := lex_ltb (dt_fields a) (dt_fields b).
Definition dt_leb (a b : datetime) : bool := negb (dt_ltb b a).

(** Midnight of the given day in the given zone. *)
Definition midnight_of (y m d : Z) (tz : option string) : datetime :=
  mkdt y m d 0 0 0 0 tz.

(** The keys of a dictionary, in order. *)
Definition keys (d : dict) : list string := map fst d.

(** Whether a value is a dictionary. *)
Definition is_dict (v : pyval) : bool :=
  match v with
  | PDict _ => true
  | _ => false
  end.

(** A field name the caller supplied: a column or one of the overrides. *)
Definition known_field (columns : list string) (date_override cost_override : option string)
    (k : string) : Prop :=
  In k columns \/ date_override = Some k \/ cost_override = Some k.

(** A filter as [build_query] keeps it: known fields, each bound once, to
    a dictionary. *)
Definition well_formed_filter (columns : list string)
    (date_override cost_override : option string) (filt : dict) : Prop :=
  Forall (fun kv => known_field columns date_override cost_override (fst kv) /\
                    is_dict (snd kv) = true) filt /\
  NoDup (keys filt).

(** A comparison that resolves to a column and whose number [float]
    rejects. *)
Definition bad_comparison (columns : list string) (cost_override : option string)
    (m : Re.groups) : Prop :=
  comparison_column columns cost_override (Re.group 1 m) <> None /\
  Py.float (Py.remove_commas (Re.group 3 m)) = Raise ValueError.

(** The signs of a comparison. *)
Definition is_comparison_sign (c : ascii) : bool :=
  (c =? "<")%char || (c =? ">")%char || (c =? "=")%char.

(** The characters of the number text of a comparison. *)
Definition is_number_char (c : ascii) : bool :=
  Py.is_digit c || (c =? ",")%char || (c =? ".")%char.

(** Whether a stage of a pipeline is a match stage: a document with the
    key ["$match"]. *)
Definition is_match_stage (st : pyval) : bool :=
  match st with
  | PDict d => existsb (String.eqb "$match") (keys d)
  | _ => false
  end.

(** The character [c], [n] times. *)
Fixpoint run_of (c : ascii) (n : nat) : string :=
  match n with
  | O => EmptyString
  | S k => String c (run_of c k)
  end.

(** The comparisons among [ms] that resolve to the column [col]. *)
Definition comparisons_on (columns : list string) (cost_override : option string)
    (col : string) (ms : list Re.groups) : list Re.groups :=
  List.filter (fun m => match comparison_column columns cost_override (Re.group 1 m) with
                        | Some c => (c =? col)%string
                        | None => false
                        end) ms.

(** The filter as it stands when the comparison loop starts (lines
    189-217), given the temporal filter [d]. *)
Definition predicates_before_comparisons (d : dict) (nl : string) (columns : list string)
  : dict :=
  apply_write (status_write nl columns)
    (apply_write (destination_write nl columns)
       (apply_write (origin_write nl columns)
          (if nonempty d then update [] d else []))).

(** The operators a column is bound to, if any. *)
Definition operators_of (v : option pyval) : dict :=
  match v with
  | Some (PDict inner) => inner
  | _ => []
  end.

(** 00:00 on the day with ordinal [o], in the zone [tz]. *)
Definition day_start (o : Z) (tz : option string) : datetime :=
  let '(y, m, d) := ord2ymd o in midnight_of y m d tz.

(* ------------------------------------------------------------------ *)
(** ** What a pattern matches *)

(** The character before the position reached by reading [cs] from a
    position whose previous character is [prev]. *)
Fixpoint last_char (prev : option ascii) (cs : string) : option ascii :=
  match cs with
  | EmptyString => prev
  | String c t => last_char (Some c) t
  end.

Fixpoint all_chars (p : ascii -> bool) (cs : string) : bool :=
  match cs with
  | EmptyString => true
  | String c t => p c && all_chars p t
  end.

Fixpoint some_char (p : ascii -> bool) (cs : string) : bool :=
  match cs with
  | EmptyString => false
  | String c t => p c || some_char p t
  end.

Definition within (hi : option nat) (n : nat) : Prop :=
  match hi with
  | Some h => (n <= h)%nat
  | None => True
  end.

(** [Matches ic r prev cs rest g g']: at a position after [prev] and
    before [cs ++ rest], the pattern [r] can match exactly [cs], taking the
    groups from [g] to [g']. Which of its matches [re] returns is the
    matcher's business; this is the set it chooses from. *)
Inductive Matches (ic : bool)
  : Re.regex -> option ascii -> string -> string -> Re.groups -> Re.groups -> Prop :=
| M_Eps prev rest g :
    Matches ic Re.Eps prev EmptyString rest g g
| M_One a c prev rest g :
    Re.atom_has ic a c = true ->
    Matches ic (Re.One a) prev (String c EmptyString) rest g g
| M_Cat r1 r2 prev cs1 cs2 rest g g1 g2 :
    Matches ic r1 prev cs1 (cs2 ++ rest) g g1 ->
    Matches ic r2 (last_char prev cs1) cs2 rest g1 g2 ->
    Matches ic (Re.Cat r1 r2) prev (cs1 ++ cs2) rest g g2
| M_AltL r1 r2 prev cs rest g g' :
    Matches ic r1 prev cs rest g g' ->
    Matches ic (Re.Alt r1 r2) prev cs rest g g'
| M_AltR r1 r2 prev cs rest g g' :
    Matches ic r2 prev cs rest g g' ->
    Matches ic (Re.Alt r1 r2) prev cs rest g g'
| M_Rep a lo hi greedy prev cs rest g :
    all_chars (Re.atom_has ic a) cs = true ->
    (lo <= String.length cs)%nat ->
    within hi (String.length cs) ->
    Matches ic (Re.Rep a lo hi greedy) prev cs rest g g
| M_OptSome r prev cs rest g g' :
    Matches ic r prev cs rest g g' ->
    Matches ic (Re.Opt r) prev cs rest g g'
| M_OptNone r prev rest g :
    Matches ic (Re.Opt r) prev EmptyString rest g g
| M_Grp i r prev cs rest g g' :
    Matches ic r prev cs rest g g' ->
    Matches ic (Re.Grp i r) prev cs rest g ((i, cs) :: g')
| M_WordB prev rest g :
    xorb (Re.word_before prev) (Re.word_after rest) = true ->
    Matches ic Re.WordB prev EmptyString rest g g
| M_Eos prev rest g :
    rest = EmptyString \/ rest = String (ascii_of_N 10) EmptyString ->
    Matches ic Re.Eos prev EmptyString rest g g.

(** The pattern occurs somewhere in the text. *)
Definition occurs (ic : bool) (r : Re.regex) (s : string) : Prop :=
  exists pre cs rest g',
    s = pre ++ cs ++ rest /\ Matches ic r (last_char None pre) cs rest [] g'.

(** [w] stands in [s] as a whole word: between [pre] and [post], with a
    word boundary on either side. *)
Definition whole_word (w s : string) : Prop :=
  exists pre post,
    s = pre ++ w ++ post /\
    xorb (Re.word_before (last_char None pre)) (Re.word_after (w ++ post)) = true /\
    xorb (Re.word_before (last_char None (pre ++ w))) (Re.word_after post) = true.

(* ------------------------------------------------------------------ *)
(** ** Basic facts *)

Lemma bind_Ok_inv (A B : Type) (r : result A) (k : A -> result B) (b : B) :
  (x <- r ;; k x) = Ok b -> exists a, r = Ok a /\ k a = Ok b.
Proof.
  destruct r as [a | e]; simpl; intros H; [exists a; split; [reflexivity | exact H] | discriminate].
Qed.

(** Case analysis on every step of a chain of binds whose last step returns
    a non-empty dictionary: no case is [Ok []]. *)
Ltac binds_never_empty :=
  repeat (match goal with
          | |- context [bind ?r _] => destruct r
          end; cbn [bind]);
  discriminate.

Lemma truthy_Some_nonempty (o : option string) (s : string) :
  Py.truthy o = true -> o = Some s -> s <> EmptyString.
Proof.
  intros Ht ->. simpl in Ht. intros ->. discriminate.
Qed.

Lemma or_else_falsy (a b : option string) : Py.truthy a = false -> Py.or_else a b = b.
Proof.
  unfold Py.or_else. intros ->. reflexivity.
Qed.

Lemma or_else_truthy (a b : option string) : Py.truthy a = true -> Py.or_else a b = a.
Proof.
  unfold Py.or_else. intros ->. reflexivity.
Qed.

Lemma nonempty_id (d : dict) : (if nonempty d then d else []) = d.
Proof.
  destruct d; reflexivity.
Qed.

Lemma update_empty_single (k : string) (v : pyval) : update [] [(k, v)] = [(k, v)].
Proof.
  reflexivity.
Qed.

(** A column found for a non-empty keyword has a non-empty name. *)
Lemma contains_empty_text (sub : string) : Py.contains sub EmptyString = true -> sub = EmptyString.
Proof.
  destruct sub; simpl; [reflexivity | discriminate].
Qed.

Lemma lower_empty (s : string) : Py.lower s = EmptyString -> s = EmptyString.
Proof.
  destruct s; simpl; [reflexivity | discriminate].
Qed.

Lemma first_column_with_nonempty (kw : string) (cols : list string) (c : string) :
  kw <> EmptyString -> first_column_with kw cols = Some c -> c <> EmptyString.
Proof.
  intros Hkw. induction cols as [| c0 cols IH]; simpl; [discriminate |].
  destruct (Py.contains (Py.lower kw) (Py.lower c0)) eqn:E.
  - intros [= <-] ->. simpl in E. apply contains_empty_text in E.
    apply lower_empty in E. contradiction.
  - exact IH.
Qed.

Lemma find_field_nonempty (cols kws : list string) (c : string) :
  Forall (fun kw => kw <> EmptyString) kws -> find_field cols kws = Some c -> c <> EmptyString.
Proof.
  intros Hk. induction Hk as [| kw kws Hkw _ IH]; simpl; [discriminate |].
  destruct (first_column_with kw cols) as [c0 |] eqn:E.
  - intros [= <-]. eapply first_column_with_nonempty; eassumption.
  - exact IH.
Qed.

Lemma detect_date_field_nonempty (cols : list string) (c : string) :
  detect_date_field cols = Some c -> c <> EmptyString.
Proof.
  apply find_field_nonempty. unfold DATE_FIELD_HINTS.
  repeat constructor; discriminate.
Qed.

(** The date column, once resolved, is a non-empty name. *)
Lemma date_field_truthy (date_override : option string) (cols : list string) (f : string) :
  Py.or_else date_override (detect_date_field cols) = Some f ->
  Py.truthy (Some f) = true.
Proof.
  unfold Py.or_else. destruct (Py.truthy date_override) eqn:E.
  - intros ->. exact E.
  - intros H. apply detect_date_field_nonempty in H. simpl.
    destruct f; [contradiction | reflexivity].
Qed.

(** [parse_date_specifics] once the date column is known. *)
Lemma parse_date_specifics_resolved (w : World) (nl : string) (cols : list string)
    (date_override : option string) (f : string) :
  Py.or_else date_override (detect_date_field cols) = Some f ->
  parse_date_specifics w nl cols date_override =
  match explicit_range nl f with
  | Some d => Ok d
  | None => relative_range (now_with_tz w) nl f
  end.
Proof.
  intros H. unfold parse_date_specifics. rewrite H.
  rewrite (date_field_truthy _ _ H). reflexivity.
Qed.

Lemma parse_date_specifics_unresolved (w : World) (nl : string) (cols : list string)
    (date_override : option string) :
  Py.or_else date_override (detect_date_field cols) = None ->
  parse_date_specifics w nl cols date_override = Ok [].
Proof.
  intros H. unfold parse_date_specifics. rewrite H. reflexivity.
Qed.

Lemma relative_range_no_phrase (now : datetime) (nl f : string) :
  relative_phrase nl = false -> relative_range now nl f = Ok [].
Proof.
  unfold relative_phrase, relative_range. cbv zeta. intros H.
  do 5 (apply orb_false_iff in H; destruct H as [H ?]).
  rewrite H.
  repeat match goal with E : _ = false |- _ => rewrite E; clear E end.
  destruct (Re.search true LAST_N_DAYS_RE nl); [discriminate | reflexivity].
Qed.

(** A text with neither an explicit range nor a relative phrase has no
    temporal filter, whatever the columns, the override and the clock. *)
Lemma parse_date_specifics_no_phrase (w : World) (nl : string) (cols : list string)
    (date_override : option string) :
  Re.search true BETWEEN_RE nl = None -> relative_phrase nl = false ->
  parse_date_specifics w nl cols date_override = Ok [].
Proof.
  intros Hb Hr.
  destruct (Py.or_else date_override (detect_date_field cols)) as [f |] eqn:E.
  - rewrite (parse_date_specifics_resolved _ _ _ _ E).
    unfold explicit_range. rewrite Hb. apply relative_range_no_phrase, Hr.
  - apply parse_date_specifics_unresolved, E.
Qed.

(** Case analysis on every step of a chain of binds that ends in [Ok d]:
    the cases that raise are discharged, the others solved by [tac]. *)
Ltac binds_returning tac :=
  repeat (match goal with
          | |- context [bind ?r _] => destruct r
          end; cbn [bind]);
  first [discriminate | intros [= <-]; tac].

(** What [parse_date_specifics] returns is empty or binds the resolved
    date column, and nothing else, to a range. *)
Lemma parse_date_specifics_shape (w : World) (nl : string) (cols : list string)
    (date_override : option string) (d : dict) :
  parse_date_specifics w nl cols date_override = Ok d ->
  d = [] \/
  exists f r, Py.or_else date_override (detect_date_field cols) = Some f /\ d = [(f, r)].
Proof.
  unfold parse_date_specifics.
  destruct (Py.or_else date_override (detect_date_field cols)) as [f |] eqn:Ef;
    [| intros [= <-]; left; reflexivity].
  destruct (negb (Py.truthy (Some f))); [intros [= <-]; left; reflexivity |].
  assert (Hr : forall lo_key lo hi_key hi,
             date_range f lo_key lo hi_key hi = [] \/
             exists f' r, Some f = Some f' /\ date_range f lo_key lo hi_key hi = [(f', r)])
    by (intros; right; eexists; eexists; split; reflexivity).
  destruct (explicit_range nl f) as [e |] eqn:Ee.
  - intros [= <-]. unfold explicit_range in Ee.
    destruct (Re.search true BETWEEN_RE nl) as [m |]; [| discriminate].
    cbv zeta in Ee.
    destruct (dateparser_parse (Re.group 1 m)); [| discriminate].
    destruct (dateparser_parse (Re.group 2 m)); [| discriminate].
    injection Ee as <-. apply Hr.
  - unfold relative_range. cbv zeta.
    destruct (any_in MONTH_KEYWORDS (Py.lower nl)); [binds_returning ltac:(apply Hr) |].
    destruct (any_in YEAR_KEYWORDS (Py.lower nl)); [binds_returning ltac:(apply Hr) |].
    destruct (any_in WEEK_KEYWORDS (Py.lower nl)); [binds_returning ltac:(apply Hr) |].
    destruct (Re.search true LAST_N_DAYS_RE nl); [binds_returning ltac:(apply Hr) |].
    destruct (Re.found (Re.search true LAST_7_DAYS_RE nl) ||
              Re.found (Re.search true LAST_7_DAY_RE nl));
      [binds_returning ltac:(apply Hr) | intros [= <-]; left; reflexivity].
Qed.

(* ------------------------------------------------------------------ *)
(** ** Dictionaries *)

Lemma lookup_dict_set_same (k : string) (v : pyval) (d : dict) :
  lookup k (dict_set k v d) = Some v.
Proof.
  induction d as [| [k' v'] d IH]; simpl.
  - rewrite String.eqb_refl. reflexivity.
  - destruct (String.eqb k' k) eqn:E; simpl.
    + rewrite String.eqb_refl. reflexivity.
    + rewrite E. exact IH.
Qed.

Lemma lookup_dict_set_other (k k' : string) (v : pyval) (d : dict) :
  k <> k' -> lookup k (dict_set k' v d) = lookup k d.
Proof.
  intros Hk. induction d as [| [k0 v0] d IH]; simpl.
  - destruct (String.eqb_spec k' k); [congruence | reflexivity].
  - destruct (String.eqb_spec k0 k'); simpl.
    + subst k0. destruct (String.eqb_spec k' k); [congruence | reflexivity].
    + destruct (String.eqb_spec k0 k); [reflexivity | exact IH].
Qed.

Lemma lookup_setdefault_other (k k' : string) (v : pyval) (d : dict) :
  k <> k' -> lookup k (setdefault k' v d) = lookup k d.
Proof.
  intros Hk. unfold setdefault. destruct (lookup k' d); [reflexivity |].
  apply lookup_dict_set_other, Hk.
Qed.

Lemma lookup_apply_write_other (k : string) (wr : option (string * pyval)) (d : dict) :
  ~ In k (map fst (option_list wr)) -> lookup k (apply_write wr d) = lookup k d.
Proof.
  destruct wr as [[f v] |]; simpl; [| reflexivity].
  intros H. apply lookup_dict_set_other. intros ->. apply H. left. reflexivity.
Qed.

Lemma lookup_set_inner_other (k col key : string) (v : pyval) (d d' : dict) :
  k <> col -> set_inner col key v d = Ok d' -> lookup k d' = lookup k d.
Proof.
  intros Hk. unfold set_inner.
  destruct (lookup col d) as [[| | | | | | inner] |]; try discriminate.
  intros [= <-]. apply lookup_dict_set_other, Hk.
Qed.

(** A comparison leaves alone every column other than the one it resolves to. *)
Lemma lookup_comparison_step_other (k : string) (cols : list string)
    (cost_override : option string) (m : Re.groups) (d d' : dict) :
  ~ In k (option_list (comparison_column cols cost_override (Re.group 1 m))) ->
  comparison_step cols cost_override d m = Ok d' ->
  lookup k d' = lookup k d.
Proof.
  unfold comparison_step.
  destruct (comparison_column cols cost_override (Re.group 1 m)) as [col |]; simpl.
  - intros Hk H. apply bind_Ok_inv in H. destruct H as [val [_ H]].
    assert (Hne : k <> col) by (intros ->; apply Hk; left; reflexivity).
    rewrite (lookup_set_inner_other _ _ _ Hne H).
    apply lookup_setdefault_other, Hne.
  - intros _ [= <-]. reflexivity.
Qed.

Lemma lookup_comparison_loop_other (k : string) (cols : list string)
    (cost_override : option string) (ms : list Re.groups) :
  forall d d' : dict,
  ~ In k (flat_map (fun m => option_list (comparison_column cols cost_override (Re.group 1 m))) ms) ->
  comparison_loop cols cost_override ms d = Ok d' ->
  lookup k d' = lookup k d.
Proof.
  induction ms as [| m ms IH]; simpl; intros d d' Hk H.
  - injection H as <-. reflexivity.
  - apply bind_Ok_inv in H. destruct H as [d1 [H1 H2]].
    rewrite (IH d1 d').
    + eapply lookup_comparison_step_other; [| exact H1].
      intros Hin. apply Hk. apply in_or_app. left. exact Hin.
    + intros Hin. apply Hk. apply in_or_app. right. exact Hin.
    + exact H2.
Qed.

(* ------------------------------------------------------------------ *)
(** ** The shape of what [build_query] returns *)

Lemma sum_branch_shape (nl : string) (cols : list string) (co : option string)
    (filt : dict) (a : aggregation) :
  sum_branch nl cols co filt = Some a ->
  type a = "sum" /\ hd_error (pipeline a) = Some (match_stage filt).
Proof.
  unfold sum_branch. destruct (detect_sum_request nl); [| discriminate].
  destruct (Py.or_else co (detect_cost_field cols)) as [cf |]; [| discriminate].
  destruct (Py.truthy (Some cf)); [| discriminate].
  intros [= <-]. simpl. rewrite nonempty_id. split; reflexivity.
Qed.

Lemma group_branch_shape (nl : string) (cols : list string) (co : option string)
    (filt : dict) (a : aggregation) :
  group_branch nl cols co filt = Some a ->
  type a = "group_cost" /\ hd_error (pipeline a) = Some (match_stage filt).
Proof.
  unfold group_branch. destruct (detect_group_by nl) as [gb |]; [| discriminate].
  destruct (Py.truthy (Some gb)); [| discriminate].
  destruct (group_field_of cols gb) as [gf |]; [| discriminate].
  destruct (Py.or_else co (detect_cost_field cols)) as [cf |]; [| discriminate].
  destruct (Py.truthy (Some gf) && Py.truthy (Some cf)); [| discriminate].
  intros [= <-]. simpl. rewrite nonempty_id. split; reflexivity.
Qed.


(** Without a cost column no branch builds an aggregation. *)
Lemma sum_branch_no_cost (nl : string) (cols : list string) (co : option string) (filt : dict) :
  Py.or_else co (detect_cost_field cols) = None -> sum_branch nl cols co filt = None.
Proof.
  intros H. unfold sum_branch. rewrite H. destruct (detect_sum_request nl); reflexivity.
Qed.

Lemma group_branch_no_cost (nl : string) (cols : list string) (co : option string) (filt : dict) :
  Py.or_else co (detect_cost_field cols) = None -> group_branch nl cols co filt = None.
Proof.
  intros H. unfold group_branch. rewrite H.
  destruct (detect_group_by nl) as [gb |]; [| reflexivity].
  destruct (Py.truthy (Some gb)); [| reflexivity].
  destruct (group_field_of cols gb); reflexivity.
Qed.

Lemma top_branch_no_cost (nl : string) (cols : list string) (co : option string)
    (filt : dict) (r : option aggregation) :
  Py.or_else co (detect_cost_field cols) = None ->
  top_branch nl cols co filt = Ok r -> r = None.
Proof.
  intros H. unfold top_branch. rewrite H. intros H1.
  apply bind_Ok_inv in H1. destruct H1 as [topn [_ H1]].
  destruct topn as [n |]; [| congruence].
  destruct (negb (n =? 0)); congruence.
Qed.






(** Every way [build_query] returns. *)
Lemma build_query_inv (w : World) (nl_text : option string) (cols : list string)
    (date_override co : option string) (q : query) :
  build_query w nl_text cols date_override co = Ok q ->
  let nl := Py.strip (Py.or_empty nl_text) in
  build_filter w nl cols date_override co = Ok (filter q) /\
  limit q = 100 /\
  ((detect_count nl = true /\ is_count q = true /\ agg q = None) \/
   (detect_count nl = false /\ is_count q = false /\
    ((exists a, sum_branch nl cols co (filter q) = Some a /\ agg q = Some a) \/
     (sum_branch nl cols co (filter q) = None /\
      exists a, group_branch nl cols co (filter q) = Some a /\ agg q = Some a) \/
     (sum_branch nl cols co (filter q) = None /\
      group_branch nl cols co (filter q) = None /\
      top_branch nl cols co (filter q) = Ok (agg q))))).
Proof.
  unfold build_query. cbv zeta. intros H.
  apply bind_Ok_inv in H. destruct H as [filt [Hf H]].
  destruct (detect_count (Py.strip (Py.or_empty nl_text))) eqn:Ec.
  - injection H as <-. simpl.
    split; [exact Hf | split; [reflexivity | left; repeat split]].
  - destruct (sum_branch _ cols co filt) as [a |] eqn:Es.
    + injection H as <-. simpl.
      split; [exact Hf | split; [reflexivity | right; split; [reflexivity | split; [reflexivity |]]]].
      left. exists a. split; [exact Es | reflexivity].
    + destruct (group_branch _ cols co filt) as [a |] eqn:Eg.
      * injection H as <-. simpl.
        split; [exact Hf | split; [reflexivity | right; split; [reflexivity | split; [reflexivity |]]]].
        right. left. split; [exact Es |]. exists a. split; [exact Eg | reflexivity].
      * apply bind_Ok_inv in H. destruct H as [top [Ht H]].
        assert (Hq : filter q = filt /\ limit q = 100 /\ is_count q = false /\ agg q = top)
          by (destruct top; injection H as <-; repeat split).
        destruct Hq as [Hq1 [Hq2 [Hq3 Hq4]]]. rewrite Hq1, Hq4.
        split; [exact Hf | split; [exact Hq2 | right; split; [reflexivity | split; [exact Hq3 |]]]].
        right. right. repeat split; assumption.
Qed.

(* ------------------------------------------------------------------ *)
(** ** Checks on concrete inputs *)

Example strip_then_lower : Py.lower (Py.strip "  Ship Date ") = "ship date".
Proof. reflexivity. Qed.

Example float_forms :
  Py.float "1." = Ok 1%Q /\ Py.float ".5" = Ok (1 # 2)%Q /\
  Py.float (Py.remove_commas "1,000") = Ok 1000%Q /\
  Py.float EmptyString = Raise ValueError /\ Py.float "." = Raise ValueError /\
  Py.float "1.2.3" = Raise ValueError.
Proof. repeat split. Qed.

Example ordinal_of_2024_03_15 :
  toordinal (mkdt 2024 3 15 10 0 0 0 None) = 738960 /\
  ord2ymd 738960 = (2024, 3, 15) /\
  weekday (mkdt 2024 3 15 10 0 0 0 None) = 4.
Proof. repeat split. Qed.

Example origin_is_lazy_up_to_to :
  option_map (Re.group 1) (Re.search true FROM_RE "shipments from New Delhi to Mumbai") =
    Some "New Delhi" /\
  option_map (Re.group 1) (Re.search true TO_RE "shipments from New Delhi to Mumbai") =
    Some "Mumbai".
Proof. split; reflexivity. Qed.

Example count_is_a_whole_word :
  detect_count "discount rates" = false /\ detect_count "Count them" = true.
Proof. split; reflexivity. Qed.

Example group_by_phrase :
  detect_group_by "cost analysis Grouped by  Delivery Status, please" = Some "Delivery Status".
Proof. reflexivity. Qed.

Example two_comparisons_found :
  map (fun m => (Re.group 1 m, Re.group 2 m, Re.group 3 m))
      (Re.finditer false NUMERIC_RE "cost > 100 cost < 500") =
  [("cost ", ">", "100"); (" cost ", "<", "500")].
Proof. reflexivity. Qed.

Example cost_keyword_priority :
  detect_cost_field ["Cost"; "Published Cost"; "Discounted Cost"] = Some "Discounted Cost" /\
  detect_date_field ["Created"; "Ship Date"] = Some "Ship Date" /\
  detect_status_field ["Ref #"; "Delivery Status"] = Some "Delivery Status".
Proof. repeat split. Qed.

(** "Show total shipment cost for the current month": the month window on
    the ship date, summed over the published cost. *)
Example scenario_total_for_current_month :
  let window := date_range "Ship Date" "$gte" (mkdt 2024 3 1 0 0 0 0 KOLKATA)
                                       "$lt" (mkdt 2024 4 1 0 0 0 0 KOLKATA) in
  build_query world_2024_03_15 (Some "Show total shipment cost for the current month")
    ["Ref #"; "Ship Date"; "Status"; "Published Cost"] None None =
  Ok {| filter := window; limit := 100; is_count := false;
        agg := Some {| type := "sum";
                       pipeline :=
                         [PDict [("$match", PDict window)];
                          PDict [("$group",
                                  PDict [("_id", PNone);
                                         ("total",
                                          PDict [("$sum", to_double "Published Cost")])])]] |} |}.
Proof. vm_compute. reflexivity. Qed.

(** "List the top 5 most expensive shipments": no filter, so no match stage. *)
Example scenario_top_5 :
  build_query world_2024_03_15 (Some "List the top 5 most expensive shipments")
    ["Ref #"; "Ship Date"; "Status"; "Published Cost"] None None =
  Ok {| filter := []; limit := 100; is_count := false;
        agg := Some {| type := "top";
                       pipeline :=
                         [PDict [("$addFields",
                                  PDict [("__cost_num", to_double "Published Cost")])];
                          PDict [("$sort", PDict [("__cost_num", PInt (-1))])];
                          PDict [("$limit", PInt 5)];
                          PDict [("$project", PDict [("__cost_num", PInt 0)])]] |} |}.
Proof. vm_compute. reflexivity. Qed.

(* ------------------------------------------------------------------ *)
(** ** Determinism and the clock *)

(** C1, as stated, fails: [build_query] takes no [now]; it reads the clock
    through [now_with_tz] inside [parse_date_specifics]. The same text,
    columns and overrides give the March window on 2024-03-15 and the April
    window on 2024-04-15. *)
Lemma C1_build_query_reads_the_clock :
  build_query world_2024_03_15 (Some "this month") ["Ship Date"] None None <>
  build_query world_2024_04_15 (Some "this month") ["Ship Date"] None None.
Proof.
  vm_compute. intros H. inversion H.
Qed.

(** C1, amended: [build_query] is determined by its four arguments together
    with the one clock reading [now_with_tz] takes during the call, and
    the reading reaches the result only through the relative phrases. Two
    calls with equal arguments return the same result (or raise the same
    exception) when they see the same reading, and at any two readings
    when no date column resolves, or the explicit range of the text parses,
    or the text has no relative phrase. *)
Theorem C1_clock_reaches_the_result_through_relative_phrases
    (w1 w2 : World) (nl_text : option string) (columns : list string)
    (date_override cost_override : option string) :
  let nl := Py.strip (Py.or_empty nl_text) in
  now_with_tz w1 = now_with_tz w2 \/
  Py.or_else date_override (detect_date_field columns) = None \/
  (exists f d, Py.or_else date_override (detect_date_field columns) = Some f /\
               explicit_range nl f = Some d) \/
  relative_phrase nl = false ->
  build_query w1 nl_text columns date_override cost_override =
  build_query w2 nl_text columns date_override cost_override.
Proof.
  intros nl H.
  assert (Hd : parse_date_specifics w1 nl columns date_override =
               parse_date_specifics w2 nl columns date_override).
  { destruct H as [H | [H | [[f [d [Hf He]]] | H]]].
    - unfold parse_date_specifics. rewrite H. reflexivity.
    - rewrite !(parse_date_specifics_unresolved _ _ _ _ H). reflexivity.
    - rewrite !(parse_date_specifics_resolved _ _ _ _ Hf), He. reflexivity.
    - destruct (Py.or_else date_override (detect_date_field columns)) as [f |] eqn:Ef.
      + rewrite !(parse_date_specifics_resolved _ _ _ _ Ef).
        destruct (explicit_range nl f); [reflexivity |].
        rewrite !(relative_range_no_phrase _ _ _ H). reflexivity.
      + rewrite !(parse_date_specifics_unresolved _ _ _ _ Ef). reflexivity. }
  unfold build_query, build_filter. cbv zeta. fold nl. rewrite Hd. reflexivity.
Qed.

Lemma C1_clock_reaches_the_result_through_relative_phrases_witness :
  build_query world_2024_03_15 (Some "delivered from Pune, cost > 100")
    ["Ship Date"; "Origin"; "Status"; "Cost"] None None =
  build_query world_2024_04_15 (Some "delivered from Pune, cost > 100")
    ["Ship Date"; "Origin"; "Status"; "Cost"] None None.
Proof.
  apply (@C1_clock_reaches_the_result_through_relative_phrases
           world_2024_03_15 world_2024_04_15 (Some "delivered from Pune, cost > 100")
           ["Ship Date"; "Origin"; "Status"; "Cost"] None None).
  right. right. right. vm_compute. reflexivity.
Defined.

(* ------------------------------------------------------------------ *)
(** ** The explicit range and the relative phrases *)

(** C2, as stated, fails: the explicit range of this text matches, its
    first date does not parse, and the month window is produced all the
    same. *)
Lemma C2_unparsed_range_falls_through_to_month :
  let nl := "between 2024-13-45 and 2024-01-01 this month" in
  Re.search true BETWEEN_RE nl = Some [(2%nat, "2024-01-01"); (1%nat, "2024-13-45")] /\
  dateparser_parse "2024-13-45" = Raise ValueError /\
  parse_date_specifics world_2024_03_15 nl ["Ship Date"] None =
    Ok (date_range "Ship Date" "$gte" (mkdt 2024 3 1 0 0 0 0 KOLKATA)
                               "$lt" (mkdt 2024 4 1 0 0 0 0 KOLKATA)) /\
  parse_date_specifics world_2024_03_15 nl ["Ship Date"] None <> Ok [].
Proof.
  vm_compute. repeat split; discriminate.
Qed.

(** C2, amended: when the dates of an explicit range fail to parse, the
    explicit rule contributes nothing and resolution continues with the
    relative phrases in their order; an empty result comes out exactly when
    the text has none of them. *)
Theorem C2_unparsed_range_continues_with_relative_phrases
    (w : World) (nl : string) (columns : list string) (date_override : option string)
    (f : string) (m : Re.groups) :
  Py.or_else date_override (detect_date_field columns) = Some f ->
  Re.search true BETWEEN_RE nl = Some m ->
  ((exists e, dateparser_parse (Re.group 1 m) = Raise e) \/
   (exists e, dateparser_parse (Re.group 2 m) = Raise e)) ->
  parse_date_specifics w nl columns date_override = relative_range (now_with_tz w) nl f /\
  (parse_date_specifics w nl columns date_override = Ok [] <-> relative_phrase nl = false).
Proof.
  intros Hf Hm Hp.
  assert (He : explicit_range nl f = None).
  { unfold explicit_range. rewrite Hm. cbv zeta.
    destruct Hp as [[e Hp] | [e Hp]]; rewrite Hp.
    - reflexivity.
    - destruct (dateparser_parse (Re.group 1 m)); reflexivity. }
  rewrite (parse_date_specifics_resolved _ _ _ _ Hf), He.
  split; [reflexivity |]. split.
  - unfold relative_phrase, relative_range, date_range. cbv zeta.
    destruct (any_in MONTH_KEYWORDS (Py.lower nl)); [binds_never_empty |].
    destruct (any_in YEAR_KEYWORDS (Py.lower nl)); [binds_never_empty |].
    destruct (any_in WEEK_KEYWORDS (Py.lower nl)); [binds_never_empty |].
    destruct (Re.search true LAST_N_DAYS_RE nl) as [g |]; [binds_never_empty |].
    simpl.
    destruct (Re.found (Re.search true LAST_7_DAYS_RE nl) ||
              Re.found (Re.search true LAST_7_DAY_RE nl)) eqn:E7; [binds_never_empty |].
    intros _. reflexivity.
  - apply relative_range_no_phrase.
Qed.

Lemma C2_unparsed_range_continues_with_relative_phrases_witness :
  parse_date_specifics world_2024_03_15
    "between 2024-13-45 and 2024-01-01 this month" ["Ship Date"] None =
  relative_range (now_with_tz world_2024_03_15)
    "between 2024-13-45 and 2024-01-01 this month" "Ship Date".
Proof.
  apply (C2_unparsed_range_continues_with_relative_phrases
           world_2024_03_15 "between 2024-13-45 and 2024-01-01 this month"
           ["Ship Date"] None (f := "Ship Date")
           (m := [(2%nat, "2024-01-01"); (1%nat, "2024-13-45")])).
  - reflexivity.
  - reflexivity.
  - left. exists ValueError. reflexivity.
Defined.

(* ------------------------------------------------------------------ *)
(** ** Exceptions that reach the caller *)

(** A day count that reaches before year 1 overflows: [OverflowError]. *)
Example last_800000_days_overflows :
  build_query world_2024_03_15 (Some "last 800000 days") ["Ship Date"] None None =
  Raise OverflowError.
Proof.
  vm_compute. reflexivity.
Qed.

(** C3 fails on the code: [1.2.3] matches the number class of the
    comparison pattern, [float] rejects it, and nothing catches the
    [ValueError], so [build_query] raises instead of dropping the
    comparison. *)
Theorem C3_unparseable_number_raises
    (w : World) (date_override cost_override : option string) :
  build_query w (Some "cost > 1.2.3") ["Cost"] date_override cost_override =
  Raise ValueError.
Proof.
  unfold build_query, build_filter.
  change (Py.strip (Py.or_empty (Some "cost > 1.2.3"))) with "cost > 1.2.3".
  rewrite parse_date_specifics_no_phrase by (vm_compute; reflexivity).
  vm_compute. reflexivity.
Qed.

(* ------------------------------------------------------------------ *)
(** ** The first stage of an aggregation *)

(** C4, as stated, fails for top-N: with an empty filter the top branch
    adds no match stage (line 299 guards it), and the pipeline opens with
    the computed cost field. *)
Lemma C4_top_pipeline_without_match_stage :
  exists q a cf,
    build_query world_2024_03_15 (Some "top 5") ["Published Cost"] None None = Ok q /\
    agg q = Some a /\ type a = "top" /\ filter q = [] /\
    hd_error (pipeline a) = Some (PDict [("$addFields", PDict [("__cost_num", to_double cf)])]) /\
    hd_error (pipeline a) <> Some (match_stage (filter q)).
Proof.
  eexists. eexists. exists "Published Cost".
  split; [vm_compute; reflexivity |]. simpl.
  repeat split. discriminate.
Qed.

Lemma top_branch_pipeline (nl : string) (cols : list string) (co : option string)
    (filt : dict) (a : aggregation) :
  top_branch nl cols co filt = Ok (Some a) ->
  type a = "top" /\
  exists cf n,
    Py.or_else co (detect_cost_field cols) = Some cf /\
    pipeline a = top_pipeline filt cf n.
Proof.
  unfold top_branch. intros H. apply bind_Ok_inv in H. destruct H as [topn [_ H]].
  destruct topn as [n |]; [| discriminate].
  destruct (negb (n =? 0)); [| discriminate].
  destruct (Py.or_else co (detect_cost_field cols)) as [cf |]; [| discriminate].
  destruct (Py.truthy (Some cf)); [| discriminate].
  injection H as <-. split; [reflexivity | exists cf, n; split; reflexivity].
Qed.

(** C4, amended: the sum and group-by pipelines always open with a match
    stage on the assembled filter (an empty filter gives the match-all
    stage). The top-N pipeline is built on the resolved cost column; it
    opens with that match stage when the filter is non-empty, and when the
    filter is empty it opens with the computed cost field and none of its
    stages is a match stage. *)
Theorem C4_first_stage_of_the_pipeline
    (w : World) (nl_text : option string) (columns : list string)
    (date_override cost_override : option string) (q : query) (a : aggregation) :
  build_query w nl_text columns date_override cost_override = Ok q ->
  agg q = Some a ->
  (type a = "sum" /\ hd_error (pipeline a) = Some (match_stage (filter q))) \/
  (type a = "group_cost" /\ hd_error (pipeline a) = Some (match_stage (filter q))) \/
  (type a = "top" /\
   exists cf,
     Py.or_else cost_override (detect_cost_field columns) = Some cf /\
     hd_error (pipeline a) =
     Some (if nonempty (filter q) then match_stage (filter q)
           else PDict [("$addFields", PDict [("__cost_num", to_double cf)])]) /\
     (nonempty (filter q) = false -> existsb is_match_stage (pipeline a) = false)).
Proof.
  intros Hq Ha. apply build_query_inv in Hq. cbv zeta in Hq.
  destruct Hq as [_ [_ [[_ [_ Hn]] | [_ [_ Hb]]]]]; [congruence |].
  destruct Hb as [[a' [Hs Ha']] | [[_ [a' [Hg Ha']]] | [_ [_ Ht]]]].
  - left. assert (a' = a) by congruence. subst a'. eapply sum_branch_shape, Hs.
  - right. left. assert (a' = a) by congruence. subst a'. eapply group_branch_shape, Hg.
  - right. right. rewrite Ha in Ht. apply top_branch_pipeline in Ht.
    destruct Ht as [Ht [cf [n [Hc Hp]]]]. split; [exact Ht |].
    exists cf. split; [exact Hc |]. rewrite Hp. unfold top_pipeline.
    destruct (filter q); split; try reflexivity. discriminate.
Qed.

Lemma C4_first_stage_of_the_pipeline_witness :
  exists q a,
    build_query world_2024_03_15 (Some "top 5") ["Published Cost"] None None = Ok q /\
    agg q = Some a /\
    hd_error (pipeline a) =
      Some (PDict [("$addFields", PDict [("__cost_num", to_double "Published Cost")])]) /\
    existsb is_match_stage (pipeline a) = false.
Proof.
  assert (Hq : build_query world_2024_03_15 (Some "top 5") ["Published Cost"] None None =
               Ok {| filter := []; limit := 100; is_count := false;
                     agg := Some {| type := "top";
                                    pipeline := top_pipeline [] "Published Cost" 5 |} |})
    by (vm_compute; reflexivity).
  destruct (@C4_first_stage_of_the_pipeline world_2024_03_15 (Some "top 5")
              ["Published Cost"] None None _ _ Hq eq_refl)
    as [[H _] | [[H _] | [_ [cf [Hc [Hh Hm]]]]]]; [discriminate H | discriminate H |].
  do 2 eexists. split; [exact Hq |]. split; [reflexivity |].
  split; [| exact (Hm eq_refl)].
  assert (cf = "Published Cost") by (vm_compute in Hc; congruence). subst cf. exact Hh.
Defined.

(* ------------------------------------------------------------------ *)
(** ** The date column and the other predicates *)

(** C5, as stated, fails: predicate extraction resolves its columns without
    regard to the date column. Here the comparison [date >= 5] resolves to
    "Ship Date", the date column, and replaces the lower bound of the month
    window. *)
Lemma C5_comparison_merges_into_the_time_range :
  exists q r,
    parse_date_specifics world_2024_03_15 "this month. date >= 5" ["Ship Date"] None =
      Ok [("Ship Date", r)] /\
    build_query world_2024_03_15 (Some "this month. date >= 5") ["Ship Date"] None None = Ok q /\
    lookup "Ship Date" (filter q) =
      Some (PDict [("$gte", PFloat 5); ("$lt", PDatetime (mkdt 2024 4 1 0 0 0 0 KOLKATA))]) /\
    lookup "Ship Date" (filter q) <> Some r.
Proof.
  eexists. eexists.
  split; [vm_compute; reflexivity |].
  split; [vm_compute; reflexivity |].
  split; [reflexivity | discriminate].
Qed.

(** C5, amended: the time range is written to the date column first, and
    the location, status and comparison predicates are written afterwards
    to whatever columns they resolve to. When none of them resolves to the
    date column, the time range is what the final filter binds to it. *)
Theorem C5_time_range_kept_when_not_targeted
    (w : World) (nl_text : option string) (columns : list string)
    (date_override cost_override : option string) (q : query) (f : string) (r : pyval) :
  let nl := Py.strip (Py.or_empty nl_text) in
  build_query w nl_text columns date_override cost_override = Ok q ->
  parse_date_specifics w nl columns date_override = Ok [(f, r)] ->
  ~ In f (predicate_targets nl columns cost_override) ->
  lookup f (filter q) = Some r.
Proof.
  intros nl Hq Hd Hn. apply build_query_inv in Hq. destruct Hq as [Hf _].
  fold nl in Hf. unfold build_filter in Hf. rewrite Hd in Hf. cbn [bind nonempty] in Hf.
  rewrite update_empty_single in Hf.
  unfold predicate_targets in Hn.
  assert (Ho : ~ In f (map fst (option_list (origin_write nl columns))))
    by (intros Hin; apply Hn; apply in_or_app; left; exact Hin).
  assert (Hde : ~ In f (map fst (option_list (destination_write nl columns))))
    by (intros Hin; apply Hn; apply in_or_app; right; apply in_or_app; left; exact Hin).
  assert (Hs : ~ In f (map fst (option_list (status_write nl columns))))
    by (intros Hin; apply Hn; do 2 (apply in_or_app; right); apply in_or_app; left; exact Hin).
  assert (Hc : ~ In f (comparison_targets nl columns cost_override))
    by (intros Hin; apply Hn; do 3 (apply in_or_app; right); exact Hin).
  rewrite (@lookup_comparison_loop_other f columns cost_override _ _ _ Hc Hf).
  rewrite !lookup_apply_write_other by assumption.
  simpl. rewrite String.eqb_refl. reflexivity.
Qed.

Lemma C5_time_range_kept_when_not_targeted_witness :
  exists q,
    build_query world_2024_03_15 (Some "delivered this month, cost > 100")
      ["Ship Date"; "Status"; "Cost"] None None = Ok q /\
    lookup "Ship Date" (filter q) =
      Some (PDict [("$gte", PDatetime (mkdt 2024 3 1 0 0 0 0 KOLKATA));
                   ("$lt", PDatetime (mkdt 2024 4 1 0 0 0 0 KOLKATA))]).
Proof.
  eexists. split; [vm_compute; reflexivity |].
  apply (@C5_time_range_kept_when_not_targeted world_2024_03_15
           (Some "delivered this month, cost > 100")
           ["Ship Date"; "Status"; "Cost"] None None).
  - vm_compute. reflexivity.
  - vm_compute. reflexivity.
  - vm_compute. intros [H | [H | H]]; [discriminate H | discriminate H | exact H].
Defined.

(* ------------------------------------------------------------------ *)
(** ** Intent priority *)



(** C7, as stated, fails, in two ways. No column of ["Ref #"] resolves as
    a cost field and there is no override. "total number of shipments"
    carries a sum signal, and also a count signal, which is tried first:
    the result has [is_count] set. The second text carries a sum signal
    and no count signal; the sum branch builds nothing, the translation
    goes on to the group-by and top-N branches, and the number after "top"
    has 4301 digits, which [int] rejects (line 169): [build_query]
    raises. *)
Lemma C7_sum_without_cost_column_can_count_or_raise :
  let nl := "total top " ++ run_of "1" 4301 in
  detect_cost_field ["Ref #"] = None /\
  detect_sum_request "total number of shipments" = true /\
  build_query world_2024_03_15 (Some "total number of shipments") ["Ref #"] None None =
    Ok {| filter := []; limit := 100; is_count := true; agg := None |} /\
  detect_sum_request nl = true /\
  detect_count nl = false /\
  build_filter world_2024_03_15 nl ["Ref #"] None None = Ok [] /\
  build_query world_2024_03_15 (Some nl) ["Ref #"] None None = Raise ValueError.
Proof.
  vm_compute. repeat split.
Qed.

(** C7, amended: when no cost column resolves and no cost override is
    given, a sum signal builds no aggregation: the translation goes on to
    the group-by and top-N branches, which need the same cost column and
    build nothing either. So for every text with no count signal, once the
    filter is assembled and the number after "top", if any, is read,
    [build_query] returns the default description over that filter; and
    the text "total cost" yields the default description with the empty
    filter, whatever the columns, the date override and the clock. *)
Theorem C7_sum_without_cost_column_is_default
    (w : World) (columns : list string) (date_override cost_override : option string) :
  Py.truthy cost_override = false ->
  detect_cost_field columns = None ->
  build_query w (Some "total cost") columns date_override cost_override =
    Ok {| filter := []; limit := 100; is_count := false; agg := None |} /\
  forall nl_text filt topn,
    let nl := Py.strip (Py.or_empty nl_text) in
    detect_count nl = false ->
    build_filter w nl columns date_override cost_override = Ok filt ->
    detect_top_n nl = Ok topn ->
    sum_branch nl columns cost_override filt = None /\
    group_branch nl columns cost_override filt = None /\
    build_query w nl_text columns date_override cost_override =
      Ok {| filter := filt; limit := 100; is_count := false; agg := None |}.
Proof.
  intros Ho Hc.
  assert (Hcost : Py.or_else cost_override (detect_cost_field columns) = None)
    by (rewrite (or_else_falsy _ _ Ho); exact Hc).
  assert (Hgen : forall nl_text filt topn,
            detect_count (Py.strip (Py.or_empty nl_text)) = false ->
            build_filter w (Py.strip (Py.or_empty nl_text)) columns date_override cost_override
              = Ok filt ->
            detect_top_n (Py.strip (Py.or_empty nl_text)) = Ok topn ->
            sum_branch (Py.strip (Py.or_empty nl_text)) columns cost_override filt = None /\
            group_branch (Py.strip (Py.or_empty nl_text)) columns cost_override filt = None /\
            build_query w nl_text columns date_override cost_override =
              Ok {| filter := filt; limit := 100; is_count := false; agg := None |}).
  { intros nl_text filt topn Hn Hf Ht.
    pose proof (sum_branch_no_cost (Py.strip (Py.or_empty nl_text)) _ _ filt Hcost) as Hs.
    pose proof (group_branch_no_cost (Py.strip (Py.or_empty nl_text)) _ _ filt Hcost) as Hg.
    split; [exact Hs |]. split; [exact Hg |].
    unfold build_query. cbv zeta. rewrite Hf. cbn [bind]. rewrite Hn, Hs, Hg.
    unfold top_branch. rewrite Ht, Hcost. cbn [bind].
    destruct topn as [n |]; [| reflexivity].
    destruct (negb (n =? 0)); reflexivity. }
  split; [| exact Hgen].
  apply (Hgen (Some "total cost") [] None); [reflexivity | | reflexivity].
  unfold build_filter.
  change (Py.strip (Py.or_empty (Some "total cost"))) with "total cost".
  rewrite parse_date_specifics_no_phrase by (vm_compute; reflexivity).
  cbn [bind nonempty].
  change (origin_write "total cost" columns) with (@None (string * pyval)).
  change (destination_write "total cost" columns) with (@None (string * pyval)).
  change (status_write "total cost" columns) with (@None (string * pyval)).
  change (Re.finditer false NUMERIC_RE "total cost") with (@nil Re.groups).
  reflexivity.
Qed.

Lemma C7_sum_without_cost_column_is_default_witness :
  build_query world_2024_03_15 (Some "total cost") ["Ref #"; "Ship Date"; "Status"] None None =
    Ok {| filter := []; limit := 100; is_count := false; agg := None |} /\
  build_query world_2024_03_15 (Some "sum of freight this month, top 3")
    ["Ref #"; "Ship Date"; "Status"] None None =
    Ok {| filter := date_range "Ship Date" "$gte" (mkdt 2024 3 1 0 0 0 0 KOLKATA)
                                           "$lt" (mkdt 2024 4 1 0 0 0 0 KOLKATA);
          limit := 100; is_count := false; agg := None |}.
Proof.
  destruct (@C7_sum_without_cost_column_is_default world_2024_03_15
              ["Ref #"; "Ship Date"; "Status"] None None eq_refl eq_refl) as [H1 H2].
  split; [exact H1 |].
  assert (Hf : build_filter world_2024_03_15
                 (Py.strip (Py.or_empty (Some "sum of freight this month, top 3")))
                 ["Ref #"; "Ship Date"; "Status"] None None =
               Ok (date_range "Ship Date" "$gte" (mkdt 2024 3 1 0 0 0 0 KOLKATA)
                                          "$lt" (mkdt 2024 4 1 0 0 0 0 KOLKATA)))
    by (vm_compute; reflexivity).
  assert (Ht : detect_top_n (Py.strip (Py.or_empty (Some "sum of freight this month, top 3")))
               = Ok (Some 3)) by (vm_compute; reflexivity).
  assert (Hn : detect_count (Py.strip (Py.or_empty (Some "sum of freight this month, top 3")))
               = false) by (vm_compute; reflexivity).
  exact (proj2 (proj2 (H2 (Some "sum of freight this month, top 3") _ _ Hn Hf Ht))).
Defined.

(* ------------------------------------------------------------------ *)
(** ** Limit and count *)

(** C10: every description [build_query] returns has limit 100, and when
    its [is_count] is set it carries no aggregation. *)
Theorem C10_limit_and_count_without_aggregation
    (w : World) (nl_text : option string) (columns : list string)
    (date_override cost_override : option string) (q : query) :
  build_query w nl_text columns date_override cost_override = Ok q ->
  limit q = 100 /\ (is_count q = true -> agg q = None).
Proof.
  intros Hq. apply build_query_inv in Hq. cbv zeta in Hq.
  destruct Hq as [_ [Hl [[_ [_ Ha]] | [_ [Hic _]]]]].
  - split; [exact Hl | intros _; exact Ha].
  - split; [exact Hl | intros Ht; congruence].
Qed.

Lemma C10_limit_and_count_without_aggregation_witness :
  exists q,
    build_query world_2024_03_15 (Some "how many total cost") ["Cost"] None None = Ok q /\
    limit q = 100 /\ (is_count q = true -> agg q = None).
Proof.
  eexists. split; [vm_compute; reflexivity |].
  apply (@C10_limit_and_count_without_aggregation world_2024_03_15
           (Some "how many total cost") ["Cost"] None None).
  reflexivity.
Defined.

(* ------------------------------------------------------------------ *)
(** * Further properties of the module *)

Unset Implicit Arguments.

(* ------------------------------------------------------------------ *)
(** ** Field resolution *)

Lemma first_column_with_Some (kw : string) (cols : list string) (c : string) :
  first_column_with kw cols = Some c <->
  exists cols1 cols2,
    cols = (cols1 ++ c :: cols2)%list /\
    Py.contains (Py.lower kw) (Py.lower c) = true /\
    forall c', In c' cols1 -> Py.contains (Py.lower kw) (Py.lower c') = false.
Proof.
  induction cols as [| c0 cols IH]; simpl.
  - split; [discriminate |]. intros [l1 [l2 [H _]]]. destruct l1; discriminate.
  - destruct (Py.contains (Py.lower kw) (Py.lower c0)) eqn:E.
    + split.
      * intros [= <-]. exists [], cols. repeat split; [exact E | intros c' []].
      * intros [l1 [l2 [H [Hc Hn]]]]. destruct l1 as [| c1 l1]; simpl in H.
        -- injection H as -> _. reflexivity.
        -- injection H as -> _. rewrite (Hn c1) in E by (left; reflexivity). discriminate.
    + rewrite IH. split.
      * intros [l1 [l2 [H [Hc Hn]]]]. exists (c0 :: l1), l2. subst cols.
        repeat split; [exact Hc |]. intros c' [<- | Hin]; [exact E | apply Hn, Hin].
      * intros [l1 [l2 [H [Hc Hn]]]]. destruct l1 as [| c1 l1]; simpl in H.
        -- injection H as -> _. congruence.
        -- injection H as -> ->. exists l1, l2. repeat split; [exact Hc |].
           intros c' Hin. apply Hn. right. exact Hin.
Qed.

Lemma first_column_with_None (kw : string) (cols : list string) :
  first_column_with kw cols = None <->
  forall c', In c' cols -> Py.contains (Py.lower kw) (Py.lower c') = false.
Proof.
  induction cols as [| c0 cols IH]; simpl.
  - split; [intros _ c' [] | reflexivity].
  - destruct (Py.contains (Py.lower kw) (Py.lower c0)) eqn:E.
    + split; [discriminate |]. intros H. rewrite (H c0) in E by (left; reflexivity). discriminate.
    + rewrite IH. split.
      * intros H c' [<- | Hin]; [exact E | apply H, Hin].
      * intros H c' Hin. apply H. right. exact Hin.
Qed.

(** X1: [find_field] returns a column exactly when it is the first column,
    in schema order, that contains the first keyword, in priority order,
    that occurs in any column. *)
Theorem find_field_first_keyword_first_column
    (columns keywords : list string) (c : string) :
  find_field columns keywords = Some c <->
  exists kws1 kw kws2 cols1 cols2,
    keywords = (kws1 ++ kw :: kws2)%list /\
    columns = (cols1 ++ c :: cols2)%list /\
    Py.contains (Py.lower kw) (Py.lower c) = true /\
    (forall k c', In k kws1 -> In c' columns ->
                  Py.contains (Py.lower k) (Py.lower c') = false) /\
    (forall c', In c' cols1 -> Py.contains (Py.lower kw) (Py.lower c') = false).
Proof.
  induction keywords as [| kw0 kws IH]; simpl.
  - split; [discriminate |]. intros [k1 [kw [k2 [_ [_ [H _]]]]]]. destruct k1; discriminate.
  - destruct (first_column_with kw0 columns) as [c0 |] eqn:E.
    + split.
      * intros [= <-]. apply first_column_with_Some in E.
        destruct E as [l1 [l2 [H [Hc Hn]]]].
        exists [], kw0, kws, l1, l2. repeat split; try assumption. intros k c' [].
      * intros [k1 [kw [k2 [l1 [l2 [Hk [Hl [Hc [Hn1 Hn2]]]]]]]]].
        destruct k1 as [| k0 k1]; simpl in Hk.
        -- injection Hk as -> _.
           assert (E' : first_column_with kw columns = Some c)
             by (apply first_column_with_Some; exists l1, l2; auto).
           congruence.
        -- injection Hk as -> _. exfalso.
           apply first_column_with_Some in E. destruct E as [m1 [m2 [Hm [Hc0 _]]]].
           rewrite (Hn1 k0 c0) in Hc0; [discriminate | left; reflexivity |].
           rewrite Hm. apply in_or_app. right. left. reflexivity.
    + rewrite IH. pose proof (proj1 (first_column_with_None kw0 columns) E) as E0. split.
      * intros [k1 [kw [k2 [l1 [l2 [Hk [Hl [Hc [Hn1 Hn2]]]]]]]]].
        exists (kw0 :: k1), kw, k2, l1, l2. rewrite Hk.
        repeat split; try assumption.
        intros k c' [<- | Hin] Hc'; [apply E0, Hc' | apply (Hn1 k c' Hin Hc')].
      * intros [k1 [kw [k2 [l1 [l2 [Hk [Hl [Hc [Hn1 Hn2]]]]]]]]].
        destruct k1 as [| k0 k1]; simpl in Hk.
        -- injection Hk as -> _. exfalso.
           rewrite (E0 c) in Hc; [discriminate |].
           rewrite Hl. apply in_or_app. right. left. reflexivity.
        -- injection Hk as -> ->. exists k1, kw, k2, l1, l2.
           repeat split; try assumption.
           intros k c' Hin Hc'. apply (Hn1 k c'); [right; exact Hin | exact Hc'].
Qed.

(** X2: [find_field] returns [None] exactly when no keyword occurs in any
    column name, case-insensitively. *)
Theorem find_field_none_iff_no_keyword_occurs (columns keywords : list string) :
  find_field columns keywords = None <->
  forall k c', In k keywords -> In c' columns ->
               Py.contains (Py.lower k) (Py.lower c') = false.
Proof.
  induction keywords as [| kw0 kws IH]; simpl.
  - split; [intros _ k c' [] | reflexivity].
  - destruct (first_column_with kw0 columns) as [c0 |] eqn:E.
    + split; [discriminate |]. intros H.
      apply first_column_with_Some in E. destruct E as [m1 [m2 [Hm [Hc0 _]]]].
      rewrite (H kw0 c0) in Hc0; [discriminate | left; reflexivity |].
      rewrite Hm. apply in_or_app. right. left. reflexivity.
    + rewrite IH. pose proof (proj1 (first_column_with_None kw0 columns) E) as E0. split.
      * intros H k c' [<- | Hin] Hc'; [apply E0, Hc' | apply (H k c' Hin Hc')].
      * intros H k c' Hin Hc'. apply (H k c'); [right; exact Hin | exact Hc'].
Qed.

Lemma first_column_with_In (kw : string) (cols : list string) (c : string) :
  first_column_with kw cols = Some c -> In c cols.
Proof.
  intros H. apply first_column_with_Some in H. destruct H as [l1 [l2 [-> _]]].
  apply in_or_app. right. left. reflexivity.
Qed.

Lemma find_field_In (cols kws : list string) (c : string) :
  find_field cols kws = Some c -> In c cols.
Proof.
  induction kws as [| kw kws IH]; simpl; [discriminate |].
  destruct (first_column_with kw cols) as [c0 |] eqn:E; [| exact IH].
  intros [= <-]. eapply first_column_with_In, E.
Qed.

Lemma find_field_None_first (cols kws : list string) (kw : string) :
  find_field cols kws = None -> In kw kws -> first_column_with kw cols = None.
Proof.
  induction kws as [| kw0 kws IH]; simpl; [intros _ [] |].
  destruct (first_column_with kw0 cols) eqn:E; [discriminate |].
  intros H [<- | Hin]; [exact E | apply IH; assumption].
Qed.

Lemma cost_by_keyword_find_field (cols kws : list string) :
  Forall (fun kw => kw <> EmptyString) kws ->
  cost_by_keyword cols kws = find_field cols kws.
Proof.
  induction 1 as [| kw kws Hkw _ IH]; simpl; [reflexivity |].
  destruct (first_column_with kw cols) as [c |] eqn:E; simpl.
  - pose proof (@first_column_with_nonempty kw cols c Hkw E) as Hc.
    destruct c; [contradiction | reflexivity].
  - exact IH.
Qed.

Lemma cost_like_column_None (cols : list string) :
  (forall kw, In kw ["cost"; "amount"; "charge"; "price"] ->
              first_column_with kw cols = None) ->
  cost_like_column cols = None.
Proof.
  intros H.
  assert (Hc : forall kw c, In kw ["cost"; "amount"; "charge"; "price"] -> In c cols ->
                            Py.contains (Py.lower kw) (Py.lower c) = false).
  { intros kw c Hk. apply first_column_with_None. apply H, Hk. }
  clear H. induction cols as [| c cols IH]; simpl; [reflexivity |].
  assert (H1 : Py.contains "cost" (Py.lower c) = false)
    by (apply (Hc "cost" c); simpl; tauto).
  assert (H2 : Py.contains "amount" (Py.lower c) = false)
    by (apply (Hc "amount" c); simpl; tauto).
  assert (H3 : Py.contains "charge" (Py.lower c) = false)
    by (apply (Hc "charge" c); simpl; tauto).
  assert (H4 : Py.contains "price" (Py.lower c) = false)
    by (apply (Hc "price" c); simpl; tauto).
  rewrite H1, H2, H3, H4. simpl.
  apply IH. intros kw c' Hk Hin. apply Hc; [exact Hk | right; exact Hin].
Qed.

(** X3: the cost column is the result of [find_field] over [COST_KEYWORDS]:
    the substring fallback of lines 56-59 never finds a column that the
    keyword scan of lines 51-54 missed. *)
Theorem detect_cost_field_is_the_keyword_scan (columns : list string) :
  detect_cost_field columns = find_field columns COST_KEYWORDS.
Proof.
  unfold detect_cost_field.
  rewrite cost_by_keyword_find_field
    by (unfold COST_KEYWORDS; repeat constructor; discriminate).
  destruct (find_field columns COST_KEYWORDS) as [c |] eqn:E; [reflexivity |].
  apply cost_like_column_None. intros kw Hk.
  apply (find_field_None_first columns COST_KEYWORDS kw E).
  unfold COST_KEYWORDS. simpl in Hk |- *. tauto.
Qed.

(* ------------------------------------------------------------------ *)
(** ** Invariants of the filter *)

Lemma keys_dict_set (k : string) (v : pyval) (d : dict) :
  keys (dict_set k v d) = if existsb (String.eqb k) (keys d) then keys d else (keys d ++ [k])%list.
Proof.
  induction d as [| [k0 v0] d IH]; simpl; [reflexivity |].
  rewrite (String.eqb_sym k k0).
  destruct (String.eqb k0 k) eqn:E; simpl.
  - apply String.eqb_eq in E. subst k0. reflexivity.
  - rewrite IH. destruct (existsb (String.eqb k) (keys d)); reflexivity.
Qed.

Lemma existsb_eqb_In (k : string) (l : list string) :
  existsb (String.eqb k) l = true <-> In k l.
Proof.
  rewrite existsb_exists. split.
  - intros [x [Hin E]]. apply String.eqb_eq in E. subst x. exact Hin.
  - intros Hin. exists k. split; [exact Hin | apply String.eqb_refl].
Qed.

Lemma NoDup_keys_dict_set (k : string) (v : pyval) (d : dict) :
  NoDup (keys d) -> NoDup (keys (dict_set k v d)).
Proof.
  intros H. rewrite keys_dict_set.
  destruct (existsb (String.eqb k) (keys d)) eqn:E; [exact H |].
  assert (Hn : ~ In k (keys d)).
  { intros Hin. apply existsb_eqb_In in Hin. congruence. }
  clear E. induction H as [| x l Hx Hl IH]; simpl.
  - constructor; [intros [] | constructor].
  - constructor.
    + intros Hin. apply in_app_or in Hin. destruct Hin as [Hin | [<- | []]].
      * contradiction.
      * apply Hn. left. reflexivity.
    + apply IH. intros Hin. apply Hn. right. exact Hin.
Qed.

Lemma Forall_dict_set (P : string * pyval -> Prop) (k : string) (v : pyval) (d : dict) :
  Forall P d -> P (k, v) -> Forall P (dict_set k v d).
Proof.
  intros H Hk. induction H as [| [k0 v0] d H0 Hd IH]; simpl.
  - constructor; [exact Hk | constructor].
  - destruct (String.eqb k0 k); constructor; assumption.
Qed.

Lemma lookup_In (k : string) (v : pyval) (d : dict) :
  lookup k d = Some v -> In (k, v) d.
Proof.
  induction d as [| [k0 v0] d IH]; simpl; [discriminate |].
  destruct (String.eqb_spec k0 k).
  - intros [= <-]. subst k0. left. reflexivity.
  - intros H. right. apply IH, H.
Qed.

Lemma lookup_None_keys (k : string) (d : dict) :
  lookup k d = None -> ~ In k (keys d).
Proof.
  induction d as [| [k0 v0] d IH]; simpl; [intros _ [] |].
  destruct (String.eqb_spec k0 k); [discriminate |].
  intros H [E | Hin]; [contradiction | apply (IH H Hin)].
Qed.

Lemma origin_write_known (nl : string) (cols : list string) (f : string) (v : pyval) :
  origin_write nl cols = Some (f, v) -> In f cols /\ is_dict v = true.
Proof.
  unfold origin_write. destruct (Re.search true FROM_RE nl); [| discriminate].
  destruct (find_field cols _) as [c |] eqn:E; [| discriminate].
  destruct (Py.truthy (Some c)); [| discriminate].
  intros [= <- <-]. split; [eapply find_field_In, E | reflexivity].
Qed.

Lemma destination_write_known (nl : string) (cols : list string) (f : string) (v : pyval) :
  destination_write nl cols = Some (f, v) -> In f cols /\ is_dict v = true.
Proof.
  unfold destination_write. destruct (Re.search true TO_RE nl); [| discriminate].
  destruct (find_field cols _) as [c |] eqn:E; [| discriminate].
  destruct (Py.truthy (Some c)); [| discriminate].
  intros [= <- <-]. split; [eapply find_field_In, E | reflexivity].
Qed.

Lemma status_write_known (nl : string) (cols : list string) (f : string) (v : pyval) :
  status_write nl cols = Some (f, v) -> In f cols /\ is_dict v = true.
Proof.
  unfold status_write. destruct (mentioned_statuses nl); [discriminate |].
  unfold detect_status_field.
  destruct (find_field cols _) as [c |] eqn:E; [| discriminate].
  destruct (Py.truthy (Some c)); [| discriminate].
  intros [= <- <-]. split; [eapply find_field_In, E | reflexivity].
Qed.

Lemma cost_like_column_In (cols : list string) (c : string) :
  cost_like_column cols = Some c -> In c cols.
Proof.
  induction cols as [| c0 cols IH]; simpl; [discriminate |].
  destruct (_ || _); [intros [= <-]; left; reflexivity | intros H; right; apply IH, H].
Qed.

Lemma detect_cost_field_In (cols : list string) (c : string) :
  detect_cost_field cols = Some c -> In c cols.
Proof.
  unfold detect_cost_field.
  rewrite cost_by_keyword_find_field
    by (unfold COST_KEYWORDS; repeat constructor; discriminate).
  destruct (find_field cols COST_KEYWORDS) as [c0 |] eqn:E.
  - intros [= <-]. eapply find_field_In, E.
  - apply cost_like_column_In.
Qed.

Lemma or_else_cases (a b : option string) (c : string) :
  Py.or_else a b = Some c -> a = Some c \/ b = Some c.
Proof.
  unfold Py.or_else. destruct (Py.truthy a); auto.
Qed.

Lemma comparison_column_known (cols : list string) (co : option string) (ft col : string) :
  comparison_column cols co ft = Some col -> In col cols \/ co = Some col.
Proof.
  unfold comparison_column. cbv zeta.
  destruct (Py.truthy _); [| discriminate].
  intros H. apply or_else_cases in H. destruct H as [H | H].
  - left. eapply find_field_In, H.
  - apply or_else_cases in H. destruct H as [H | H]; [right; exact H |].
    left. apply detect_cost_field_In, H.
Qed.

(** What [parse_date_specifics] returns is empty or one range on the
    resolved date column. *)
Lemma parse_date_specifics_range (w : World) (nl : string) (cols : list string)
    (date_override : option string) (d : dict) :
  parse_date_specifics w nl cols date_override = Ok d ->
  d = [] \/
  exists f lo_key lo hi_key hi,
    Py.or_else date_override (detect_date_field cols) = Some f /\
    d = date_range f lo_key lo hi_key hi.
Proof.
  unfold parse_date_specifics.
  destruct (Py.or_else date_override (detect_date_field cols)) as [f |] eqn:Ef;
    [| intros [= <-]; left; reflexivity].
  destruct (negb (Py.truthy (Some f))); [intros [= <-]; left; reflexivity |].
  assert (Hr : forall lo_key lo hi_key hi,
             date_range f lo_key lo hi_key hi = [] \/
             exists f' lo_key' lo' hi_key' hi',
               Some f = Some f' /\
               date_range f lo_key lo hi_key hi = date_range f' lo_key' lo' hi_key' hi')
    by (intros; right; do 5 eexists; split; reflexivity).
  destruct (explicit_range nl f) as [e |] eqn:Ee.
  - intros [= <-]. unfold explicit_range in Ee.
    destruct (Re.search true BETWEEN_RE nl) as [m |]; [| discriminate].
    cbv zeta in Ee.
    destruct (dateparser_parse (Re.group 1 m)); [| discriminate].
    destruct (dateparser_parse (Re.group 2 m)); [| discriminate].
    injection Ee as <-. apply Hr.
  - unfold relative_range. cbv zeta.
    destruct (any_in MONTH_KEYWORDS (Py.lower nl)); [binds_returning ltac:(apply Hr) |].
    destruct (any_in YEAR_KEYWORDS (Py.lower nl)); [binds_returning ltac:(apply Hr) |].
    destruct (any_in WEEK_KEYWORDS (Py.lower nl)); [binds_returning ltac:(apply Hr) |].
    destruct (Re.search true LAST_N_DAYS_RE nl); [binds_returning ltac:(apply Hr) |].
    destruct (Re.found (Re.search true LAST_7_DAYS_RE nl) ||
              Re.found (Re.search true LAST_7_DAY_RE nl));
      [binds_returning ltac:(apply Hr) | intros [= <-]; left; reflexivity].
Qed.

(** The exceptions of the primitives. *)
Lemma replace_raises (d : datetime) (y m dd h mi s us : option Z) (e : exn) :
  replace d y m dd h mi s us = Raise e -> e = ValueError.
Proof.
  unfold replace. cbv zeta. destruct (_ && _); [discriminate | congruence].
Qed.

Lemma add_days_raises (d : datetime) (n : Z) (e : exn) :
  add_days d n = Raise e -> e = OverflowError.
Proof.
  unfold add_days. cbv zeta. destruct (_ && _).
  - destruct (ord2ymd _) as [[y m] dd]. discriminate.
  - congruence.
Qed.

Lemma timedelta_days_raises (n : Z) (e : exn) :
  timedelta_days n = Raise e -> e = OverflowError.
Proof.
  unfold timedelta_days. destruct (_ <=? _); [discriminate | congruence].
Qed.

Lemma int_raises (s : string) (e : exn) : Py.int s = Raise e -> e = ValueError.
Proof.
  unfold Py.int. destruct (_ || _); [congruence |].
  destruct (_ <? _)%nat; [congruence | discriminate].
Qed.

Lemma float_raises (s : string) (e : exn) : Py.float s = Raise e -> e = ValueError.
Proof.
  unfold Py.float. destruct (Py.split_dot s) as [ip rest].
  destruct (_ && _); [discriminate | congruence].
Qed.

Lemma well_formed_empty (cols : list string) (do co : option string) :
  well_formed_filter cols do co [].
Proof.
  split; constructor.
Qed.

Lemma well_formed_set (cols : list string) (do co : option string)
    (k : string) (v : pyval) (d : dict) :
  known_field cols do co k -> is_dict v = true ->
  well_formed_filter cols do co d ->
  well_formed_filter cols do co (dict_set k v d).
Proof.
  intros Hk Hv [Hf Hn]. split.
  - apply Forall_dict_set; [exact Hf | split; assumption].
  - apply NoDup_keys_dict_set, Hn.
Qed.

Lemma well_formed_lookup (cols : list string) (do co : option string)
    (k : string) (v : pyval) (d : dict) :
  well_formed_filter cols do co d -> lookup k d = Some v -> exists inner, v = PDict inner.
Proof.
  intros [Hf _] H. apply lookup_In in H.
  rewrite Forall_forall in Hf. destruct (Hf _ H) as [_ Hd]. simpl in Hd.
  destruct v; try discriminate. eexists. reflexivity.
Qed.

Lemma well_formed_apply_write (cols : list string) (do co : option string)
    (wr : option (string * pyval)) (d : dict) :
  (forall f v, wr = Some (f, v) -> In f cols /\ is_dict v = true) ->
  well_formed_filter cols do co d ->
  well_formed_filter cols do co (apply_write wr d).
Proof.
  intros H Hd. destruct wr as [[f v] |]; simpl; [| exact Hd].
  destruct (H f v eq_refl) as [Hin Hv].
  apply well_formed_set; [left; exact Hin | exact Hv | exact Hd].
Qed.

(** One comparison: it keeps the filter well formed, and raises only the
    [ValueError] of [float]. *)
Lemma comparison_step_cases (cols : list string) (do co : option string)
    (filt : dict) (m : Re.groups) :
  well_formed_filter cols do co filt ->
  match comparison_column cols co (Re.group 1 m) with
  | None => comparison_step cols co filt m = Ok filt
  | Some col =>
      match Py.float (Py.remove_commas (Re.group 3 m)) with
      | Ok val =>
          exists filt' inner,
            comparison_step cols co filt m = Ok filt' /\
            well_formed_filter cols do co filt' /\
            lookup col (setdefault col (PDict []) filt) = Some (PDict inner) /\
            filt' = dict_set col (PDict (dict_set (opmap (Re.group 2 m)) (PFloat val) inner))
                             (setdefault col (PDict []) filt)
      | Raise e => e = ValueError /\ comparison_step cols co filt m = Raise ValueError
      end
  end.
Proof.
  intros Hw. unfold comparison_step. cbv zeta.
  destruct (comparison_column cols co (Re.group 1 m)) as [col |] eqn:Ec; [| reflexivity].
  destruct (Py.float _) as [val | e] eqn:Ef; cbn [bind].
  - assert (Hk : known_field cols do co col).
    { apply comparison_column_known in Ec. destruct Ec; [left | right; right]; assumption. }
    assert (Hw1 : well_formed_filter cols do co (setdefault col (PDict []) filt)).
    { unfold setdefault. destruct (lookup col filt); [exact Hw |].
      apply well_formed_set; [exact Hk | reflexivity | exact Hw]. }
    assert (Hl : exists inner, lookup col (setdefault col (PDict []) filt) = Some (PDict inner)).
    { unfold setdefault. destruct (lookup col filt) as [v |] eqn:El.
      - destruct (well_formed_lookup _ _ _ _ _ _ Hw El) as [inner ->]. exists inner. exact El.
      - exists []. apply lookup_dict_set_same. }
    destruct Hl as [inner Hl]. unfold set_inner. rewrite Hl.
    eexists. exists inner. split; [reflexivity |]. split; [| split; reflexivity].
    apply well_formed_set; [exact Hk | reflexivity | exact Hw1].
  - apply float_raises in Ef. subst e. split; reflexivity.
Qed.

Lemma comparison_step_well_formed (cols : list string) (do co : option string)
    (filt filt' : dict) (m : Re.groups) :
  well_formed_filter cols do co filt ->
  comparison_step cols co filt m = Ok filt' ->
  well_formed_filter cols do co filt'.
Proof.
  intros Hw H. pose proof (comparison_step_cases cols do co filt m Hw) as Hc.
  destruct (comparison_column cols co (Re.group 1 m)).
  - destruct (Py.float _).
    + destruct Hc as [f1 [inner [E [Hw' _]]]]. congruence.
    + destruct Hc as [_ E]. congruence.
  - congruence.
Qed.

Lemma comparison_step_raises (cols : list string) (do co : option string)
    (filt : dict) (m : Re.groups) (e : exn) :
  well_formed_filter cols do co filt ->
  comparison_step cols co filt m = Raise e ->
  e = ValueError /\ bad_comparison cols co m.
Proof.
  intros Hw H. pose proof (comparison_step_cases cols do co filt m Hw) as Hc. unfold bad_comparison.
  destruct (comparison_column cols co (Re.group 1 m)).
  - destruct (Py.float _) as [v | e0].
    + destruct Hc as [f1 [inner [E _]]]. congruence.
    + destruct Hc as [-> E]. rewrite E in H. injection H as <-.
      split; [reflexivity | split; [discriminate | reflexivity]].
  - congruence.
Qed.

Lemma comparison_loop_well_formed (cols : list string) (do co : option string)
    (ms : list Re.groups) :
  forall filt filt',
  well_formed_filter cols do co filt ->
  comparison_loop cols co ms filt = Ok filt' ->
  well_formed_filter cols do co filt'.
Proof.
  induction ms as [| m ms IH]; simpl; intros filt filt' Hw H.
  - injection H as <-. exact Hw.
  - apply bind_Ok_inv in H. destruct H as [f1 [H1 H2]].
    eapply IH; [| exact H2]. eapply comparison_step_well_formed; eassumption.
Qed.

Lemma comparison_loop_raises (cols : list string) (do co : option string)
    (ms : list Re.groups) :
  forall filt e,
  well_formed_filter cols do co filt ->
  comparison_loop cols co ms filt = Raise e ->
  e = ValueError /\ Exists (bad_comparison cols co) ms.
Proof.
  induction ms as [| m ms IH]; simpl; intros filt e Hw H; [discriminate |].
  destruct (comparison_step cols co filt m) as [f1 | e1] eqn:E1; cbn [bind] in H.
  - destruct (IH f1 e (comparison_step_well_formed _ _ _ _ _ _ Hw E1) H) as [He Hex].
    split; [exact He | right; exact Hex].
  - injection H as <-. destruct (comparison_step_raises _ _ _ _ _ _ Hw E1) as [He Hb].
    split; [exact He | left; exact Hb].
Qed.

Lemma comparison_loop_returns (cols : list string) (do co : option string)
    (ms : list Re.groups) :
  forall filt,
  well_formed_filter cols do co filt ->
  ~ Exists (bad_comparison cols co) ms ->
  exists filt', comparison_loop cols co ms filt = Ok filt'.
Proof.
  intros filt Hw Hn.
  destruct (comparison_loop cols co ms filt) as [f | e] eqn:E; [exists f; reflexivity |].
  destruct (comparison_loop_raises _ _ _ _ _ _ Hw E) as [_ Hex]. contradiction.
Qed.

Lemma comparison_loop_bad (cols : list string) (do co : option string)
    (ms : list Re.groups) :
  forall filt,
  well_formed_filter cols do co filt ->
  Exists (bad_comparison cols co) ms ->
  comparison_loop cols co ms filt = Raise ValueError.
Proof.
  induction ms as [| m ms IH]; simpl; intros filt Hw Hex; [inversion Hex |].
  pose proof (comparison_step_cases cols do co filt m Hw) as Hc.
  destruct (comparison_column cols co (Re.group 1 m)) as [col |] eqn:Ec.
  - destruct (Py.float (Py.remove_commas (Re.group 3 m))) as [v | e0] eqn:Ef.
    + destruct Hc as [f1 [inner [E [Hw' _]]]]. rewrite E. cbn [bind].
      apply IH; [exact Hw' |]. inversion Hex as [? ? Hb | ? ? Hb]; subst; [| exact Hb].
      destruct Hb as [_ Hb]. congruence.
    + destruct Hc as [_ E]. rewrite E. reflexivity.
  - rewrite Hc. cbn [bind]. apply IH; [exact Hw |].
    inversion Hex as [? ? Hb | ? ? Hb]; subst; [| exact Hb].
    destruct Hb as [Hb _]. congruence.
Qed.

(** The filter before the comparisons. *)
Lemma filter_before_comparisons_well_formed (w : World) (nl : string) (cols : list string)
    (do co : option string) (d : dict) :
  parse_date_specifics w nl cols do = Ok d ->
  well_formed_filter cols do co
    (apply_write (status_write nl cols)
       (apply_write (destination_write nl cols)
          (apply_write (origin_write nl cols)
             (if nonempty d then update [] d else [])))).
Proof.
  intros Hd.
  apply well_formed_apply_write; [intros f v; apply status_write_known |].
  apply well_formed_apply_write; [intros f v; apply destination_write_known |].
  apply well_formed_apply_write; [intros f v; apply origin_write_known |].
  apply parse_date_specifics_range in Hd.
  destruct Hd as [-> | [f [k1 [a [k2 [b [Hf ->]]]]]]]; [apply well_formed_empty |].
  change (if nonempty (date_range f k1 a k2 b) then update [] (date_range f k1 a k2 b) else [])
    with (dict_set f (PDict [(k1, PDatetime a); (k2, PDatetime b)]) []).
  apply well_formed_set; [| reflexivity | apply well_formed_empty].
  apply or_else_cases in Hf. destruct Hf as [Hf | Hf].
  - right. left. exact Hf.
  - left. eapply find_field_In, Hf.
Qed.

Ltac raise_kind :=
  match goal with
  | H : replace _ _ _ _ _ _ _ _ = Raise _ |- _ => apply replace_raises in H
  | H : midnight _ = Raise _ |- _ => apply replace_raises in H
  | H : (if _ then replace _ _ _ _ _ _ _ _ else replace _ _ _ _ _ _ _ _) = Raise _ |- _ =>
      match type of H with (if ?b then _ else _) = _ => destruct b end;
      apply replace_raises in H
  | H : add_days _ _ = Raise _ |- _ => apply add_days_raises in H
  | H : sub_days _ _ = Raise _ |- _ => apply add_days_raises in H
  | H : timedelta_days _ = Raise _ |- _ => apply timedelta_days_raises in H
  | H : Py.int _ = Raise _ |- _ => apply int_raises in H
  end.

Ltac binds_raising :=
  repeat (match goal with
          | |- context [bind ?r _] => destruct r eqn:?
          end; cbn [bind]);
  first [discriminate | intros [= <-]; raise_kind; subst; auto].

Lemma relative_range_raises (now : datetime) (nl f : string) (e : exn) :
  relative_range now nl f = Raise e -> e = ValueError \/ e = OverflowError.
Proof.
  unfold relative_range. cbv zeta.
  destruct (any_in MONTH_KEYWORDS (Py.lower nl)); [binds_raising |].
  destruct (any_in YEAR_KEYWORDS (Py.lower nl)); [binds_raising |].
  destruct (any_in WEEK_KEYWORDS (Py.lower nl)); [binds_raising |].
  destruct (Re.search true LAST_N_DAYS_RE nl); [binds_raising |].
  destruct (Re.found (Re.search true LAST_7_DAYS_RE nl) ||
            Re.found (Re.search true LAST_7_DAY_RE nl)); [binds_raising | discriminate].
Qed.

Lemma parse_date_specifics_raises (w : World) (nl : string) (cols : list string)
    (do : option string) (e : exn) :
  parse_date_specifics w nl cols do = Raise e -> e = ValueError \/ e = OverflowError.
Proof.
  unfold parse_date_specifics.
  destruct (Py.or_else do (detect_date_field cols)) as [f |]; [| discriminate].
  destruct (negb (Py.truthy (Some f))); [discriminate |].
  destruct (explicit_range nl f); [discriminate |].
  apply relative_range_raises.
Qed.

Lemma build_filter_well_formed (w : World) (nl : string) (cols : list string)
    (do co : option string) (filt : dict) :
  build_filter w nl cols do co = Ok filt -> well_formed_filter cols do co filt.
Proof.
  unfold build_filter. intros H. apply bind_Ok_inv in H. destruct H as [d [Hd H]].
  eapply comparison_loop_well_formed; [| exact H].
  eapply filter_before_comparisons_well_formed, Hd.
Qed.

Lemma build_filter_raises (w : World) (nl : string) (cols : list string)
    (do co : option string) (e : exn) :
  build_filter w nl cols do co = Raise e -> e = ValueError \/ e = OverflowError.
Proof.
  unfold build_filter.
  destruct (parse_date_specifics w nl cols do) as [d | e0] eqn:Hd; cbn [bind].
  - intros H. left.
    eapply comparison_loop_raises; [| exact H].
    eapply filter_before_comparisons_well_formed, Hd.
  - intros [= <-]. eapply parse_date_specifics_raises, Hd.
Qed.

Lemma top_branch_raises (nl : string) (cols : list string) (co : option string)
    (filt : dict) (e : exn) :
  top_branch nl cols co filt = Raise e ->
  e = ValueError /\ detect_top_n nl = Raise ValueError.
Proof.
  unfold top_branch.
  destruct (detect_top_n nl) as [[n |] | e0] eqn:E; cbn [bind].
  - destruct (negb (n =? 0)); [| discriminate].
    destruct (Py.or_else co (detect_cost_field cols)); [| discriminate].
    destruct (Py.truthy _); discriminate.
  - discriminate.
  - intros [= <-]. unfold detect_top_n in E.
    destruct (Re.search true TOP_RE nl); [| discriminate].
    destruct (Py.int _) eqn:Ei; [discriminate |]. cbn [bind] in E. injection E as <-.
    apply int_raises in Ei. subst. split; reflexivity.
Qed.

(** X4: every filter [build_query] returns binds only columns of the
    schema or the overrides, each at most once, and each to a dictionary of
    operators. *)
Theorem build_query_filter_is_well_formed
    (w : World) (nl_text : option string) (columns : list string)
    (date_override cost_override : option string) (q : query) :
  build_query w nl_text columns date_override cost_override = Ok q ->
  well_formed_filter columns date_override cost_override (filter q).
Proof.
  intros H. apply build_query_inv in H. destruct H as [H _].
  eapply build_filter_well_formed, H.
Qed.

Lemma build_query_filter_is_well_formed_witness :
  well_formed_filter ["Ship Date"; "Status"; "Cost"] None None
    [("Ship Date", PDict [("$gte", PDatetime (mkdt 2024 3 1 0 0 0 0 KOLKATA));
                          ("$lt", PDatetime (mkdt 2024 4 1 0 0 0 0 KOLKATA))]);
     ("Status", PDict [("$in", PList [PStr "delivered"])]);
     ("Cost", PDict [("$gt", PFloat 100)])].
Proof.
  apply (build_query_filter_is_well_formed world_2024_03_15
           (Some "delivered this month, cost > 100")
           ["Ship Date"; "Status"; "Cost"] None None
           {| filter := _; limit := 100; is_count := false; agg := None |}).
  vm_compute. reflexivity.
Defined.

(** X5: the only exceptions [build_query] raises are [ValueError] and
    [OverflowError]; in particular line 228 never indexes into a value
    that is not a dictionary. *)
Theorem build_query_raises_value_or_overflow_error
    (w : World) (nl_text : option string) (columns : list string)
    (date_override cost_override : option string) (e : exn) :
  build_query w nl_text columns date_override cost_override = Raise e ->
  e = ValueError \/ e = OverflowError.
Proof.
  unfold build_query. cbv zeta.
  destruct (build_filter w _ columns date_override cost_override) as [filt | e0] eqn:Hf;
    cbn [bind].
  - destruct (detect_count _); [discriminate |].
    destruct (sum_branch _ _ _ _); [discriminate |].
    destruct (group_branch _ _ _ _); [discriminate |].
    destruct (top_branch _ _ _ _) as [[a |] | e1] eqn:Ht; cbn [bind]; try discriminate.
    intros [= <-]. left. eapply top_branch_raises, Ht.
  - intros [= <-]. eapply build_filter_raises, Hf.
Qed.

Lemma build_query_raises_value_or_overflow_error_witness :
  build_query world_2024_03_15 (Some "last 800000 days") ["Ship Date"] None None =
    Raise OverflowError /\
  (OverflowError = ValueError \/ OverflowError = OverflowError).
Proof.
  assert (H : build_query world_2024_03_15 (Some "last 800000 days") ["Ship Date"] None None =
              Raise OverflowError) by (vm_compute; reflexivity).
  split; [exact H |].
  exact (build_query_raises_value_or_overflow_error world_2024_03_15
           (Some "last 800000 days") ["Ship Date"] None None OverflowError H).
Defined.

(** X6: when temporal resolution returns, the comparisons decide whether
    the filter is assembled: a comparison that resolves to a column and
    carries a number [float] rejects makes [build_query] raise
    [ValueError]; with no such comparison, and an integer after "top" that
    [int] accepts, [build_query] returns. *)
Theorem build_query_returns_unless_bad_comparison
    (w : World) (nl_text : option string) (columns : list string)
    (date_override cost_override : option string) (d : dict) :
  let nl := Py.strip (Py.or_empty nl_text) in
  parse_date_specifics w nl columns date_override = Ok d ->
  (Exists (bad_comparison columns cost_override) (Re.finditer false NUMERIC_RE nl) ->
   build_query w nl_text columns date_override cost_override = Raise ValueError) /\
  (~ Exists (bad_comparison columns cost_override) (Re.finditer false NUMERIC_RE nl) ->
   (exists n, detect_top_n nl = Ok n) ->
   exists q, build_query w nl_text columns date_override cost_override = Ok q).
Proof.
  intros nl Hd.
  pose proof (filter_before_comparisons_well_formed w nl columns date_override cost_override d Hd)
    as Hw.
  split.
  - intros Hex. unfold build_query, build_filter. cbv zeta. fold nl. rewrite Hd. cbn [bind].
    rewrite (comparison_loop_bad _ _ _ _ _ Hw Hex). reflexivity.
  - intros Hn [n Ht].
    destruct (comparison_loop_returns _ _ _ _ _ Hw Hn) as [filt Hl].
    unfold build_query, build_filter. cbv zeta. fold nl. rewrite Hd. cbn [bind].
    rewrite Hl. cbn [bind].
    destruct (detect_count nl); [eexists; reflexivity |].
    destruct (sum_branch _ _ _ _); [eexists; reflexivity |].
    destruct (group_branch _ _ _ _); [eexists; reflexivity |].
    unfold top_branch. rewrite Ht. cbn [bind].
    destruct n as [n |]; [| eexists; reflexivity].
    destruct (negb (n =? 0)); [| eexists; reflexivity].
    destruct (Py.or_else cost_override (detect_cost_field columns)); [| eexists; reflexivity].
    destruct (Py.truthy _); eexists; reflexivity.
Qed.

Lemma build_query_returns_unless_bad_comparison_witness :
  build_query world_2024_03_15 (Some "this month, weight > 1..5") ["Ship Date"; "Weight"]
    None None = Raise ValueError.
Proof.
  assert (Hd : parse_date_specifics world_2024_03_15
                 (Py.strip (Py.or_empty (Some "this month, weight > 1..5")))
                 ["Ship Date"; "Weight"] None =
               Ok (date_range "Ship Date" "$gte" (mkdt 2024 3 1 0 0 0 0 KOLKATA)
                                          "$lt" (mkdt 2024 4 1 0 0 0 0 KOLKATA)))
    by (vm_compute; reflexivity).
  assert (Hm : Re.finditer false NUMERIC_RE
                 (Py.strip (Py.or_empty (Some "this month, weight > 1..5"))) =
               [[(3%nat, "1..5"); (2%nat, ">"); (1%nat, " weight ")]])
    by (vm_compute; reflexivity).
  assert (Hex : Exists (bad_comparison ["Ship Date"; "Weight"] None)
                  (Re.finditer false NUMERIC_RE
                     (Py.strip (Py.or_empty (Some "this month, weight > 1..5"))))).
  { rewrite Hm. left. split; [vm_compute; discriminate | vm_compute; reflexivity]. }
  exact (proj1 (build_query_returns_unless_bad_comparison world_2024_03_15
                  (Some "this month, weight > 1..5") ["Ship Date"; "Weight"] None None _ Hd)
               Hex).
Defined.

(* ------------------------------------------------------------------ *)
(** ** Empty inputs *)

(** X7: a text that is absent, empty or only white space gives the default
    description, whatever the columns, the overrides and the clock. *)
Theorem build_query_blank_text_is_default
    (w : World) (nl_text : option string) (columns : list string)
    (date_override cost_override : option string) :
  Py.strip (Py.or_empty nl_text) = EmptyString ->
  build_query w nl_text columns date_override cost_override =
  Ok {| filter := []; limit := 100; is_count := false; agg := None |}.
Proof.
  intros H. unfold build_query, build_filter. rewrite H.
  rewrite parse_date_specifics_no_phrase by (vm_compute; reflexivity).
  cbn [bind nonempty].
  change (origin_write EmptyString columns) with (@None (string * pyval)).
  change (destination_write EmptyString columns) with (@None (string * pyval)).
  change (status_write EmptyString columns) with (@None (string * pyval)).
  change (Re.finditer false NUMERIC_RE EmptyString) with (@nil Re.groups).
  cbn [apply_write comparison_loop bind].
  change (detect_count EmptyString) with false. cbv iota.
  change (sum_branch EmptyString columns cost_override []) with (@None aggregation).
  change (group_branch EmptyString columns cost_override []) with (@None aggregation).
  change (top_branch EmptyString columns cost_override []) with (@Ok (option aggregation) None).
  reflexivity.
Qed.

Lemma build_query_blank_text_is_default_witness :
  build_query world_2024_03_15 (Some "   ") ["Ship Date"; "Cost"] None (Some "Cost") =
  Ok {| filter := []; limit := 100; is_count := false; agg := None |}.
Proof.
  apply build_query_blank_text_is_default. reflexivity.
Defined.

Lemma comparison_loop_no_columns (ms : list Re.groups) (filt : dict) :
  comparison_loop [] None ms filt = Ok filt.
Proof.
  induction ms as [| m ms IH]; simpl; [reflexivity | exact IH].
Qed.

Lemma origin_write_no_columns (nl : string) : origin_write nl [] = None.
Proof.
  unfold origin_write. destruct (Re.search true FROM_RE nl); reflexivity.
Qed.

Lemma destination_write_no_columns (nl : string) : destination_write nl [] = None.
Proof.
  unfold destination_write. destruct (Re.search true TO_RE nl); reflexivity.
Qed.

Lemma status_write_no_columns (nl : string) : status_write nl [] = None.
Proof.
  unfold status_write. destruct (mentioned_statuses nl); reflexivity.
Qed.

(** X8: with an empty column list and no overrides nothing is filtered or
    aggregated: the result is the empty filter with the count flag of the
    text, unless the integer after "top" is one [int] rejects. *)
Theorem build_query_no_columns
    (w : World) (nl_text : option string) :
  let nl := Py.strip (Py.or_empty nl_text) in
  build_query w nl_text [] None None =
  if detect_count nl
  then Ok {| filter := []; limit := 100; is_count := true; agg := None |}
  else (_ <- detect_top_n nl ;;
        Ok {| filter := []; limit := 100; is_count := false; agg := None |}).
Proof.
  intros nl. unfold build_query, build_filter. cbv zeta. fold nl.
  rewrite parse_date_specifics_unresolved by reflexivity.
  cbn [bind nonempty].
  rewrite origin_write_no_columns, destination_write_no_columns, status_write_no_columns.
  cbn [apply_write]. rewrite comparison_loop_no_columns. cbn [bind].
  destruct (detect_count nl); [reflexivity |].
  rewrite sum_branch_no_cost, group_branch_no_cost by reflexivity.
  unfold top_branch. destruct (detect_top_n nl) as [[n |] |]; cbn [bind]; try reflexivity.
  destruct (negb (n =? 0)); reflexivity.
Qed.

(* ------------------------------------------------------------------ *)
(** ** Comparisons in the filter *)

Lemma comparison_loop_app (cols : list string) (co : option string)
    (ms1 ms2 : list Re.groups) :
  forall filt,
  comparison_loop cols co (ms1 ++ ms2) filt =
  (filt' <- comparison_loop cols co ms1 filt ;; comparison_loop cols co ms2 filt').
Proof.
  induction ms1 as [| m ms1 IH]; simpl; intros filt; [reflexivity |].
  destruct (comparison_step cols co filt m); cbn [bind]; [apply IH | reflexivity].
Qed.

(** A binding of operator [key] to [val] on column [col] survives every
    later comparison that is not on the same column with the same
    operator. *)
Lemma comparison_loop_keeps_binding (cols : list string) (do co : option string)
    (col key : string) (val : Q) (ms : list Re.groups) :
  forall filt filt' inner,
  well_formed_filter cols do co filt ->
  lookup col filt = Some (PDict inner) ->
  lookup key inner = Some (PFloat val) ->
  Forall (fun m' => ~ (comparison_column cols co (Re.group 1 m') = Some col /\
                       opmap (Re.group 2 m') = key)) ms ->
  comparison_loop cols co ms filt = Ok filt' ->
  exists inner', lookup col filt' = Some (PDict inner') /\
                 lookup key inner' = Some (PFloat val).
Proof.
  induction ms as [| m ms IH]; simpl; intros filt filt' inner Hw Hl Hk Hall H.
  - injection H as <-. exists inner. split; assumption.
  - apply bind_Ok_inv in H. destruct H as [f1 [H1 H2]].
    inversion Hall as [| ? ? Hm Hms]; subst.
    pose proof (comparison_step_cases cols do co filt m Hw) as Hc.
    pose proof (comparison_step_well_formed _ _ _ _ _ _ Hw H1) as Hw1.
    destruct (comparison_column cols co (Re.group 1 m)) as [col' |] eqn:Ec.
    + destruct (Py.float (Py.remove_commas (Re.group 3 m))) as [v |].
      * destruct Hc as [f1' [inner1 [E [_ [Hl1 Hf]]]]].
        rewrite E in H1. injection H1 as H1. rewrite H1 in Hf. clear E H1 f1'.
        assert (Hsd : setdefault col' (PDict []) filt = filt \/ col' <> col).
        { unfold setdefault. destruct (lookup col' filt) eqn:El; [left; reflexivity |].
          right. intros ->. congruence. }
        destruct (String.eqb_spec col' col) as [-> | Hne].
        -- destruct Hsd as [Hsd | Hsd]; [| contradiction].
           rewrite Hsd in Hl1, Hf. rewrite Hl in Hl1. injection Hl1 as <-.
           apply (IH f1 filt' (dict_set (opmap (Re.group 2 m)) (PFloat v) inner) Hw1);
             try assumption.
           ++ rewrite Hf. apply lookup_dict_set_same.
           ++ rewrite lookup_dict_set_other; [exact Hk |].
              intros ->. apply Hm. split; reflexivity.
        -- apply (IH f1 filt' inner Hw1); try assumption.
           rewrite Hf. rewrite lookup_dict_set_other by congruence.
           rewrite lookup_setdefault_other by congruence. exact Hl.
      * destruct Hc as [_ E]. congruence.
    + assert (f1 = filt) by congruence. subst f1.
      apply (IH filt filt' inner Hw1); assumption.
Qed.

(** X9: every comparison that resolves to a column and parses is bound in
    the returned filter, operator to value on that column, unless a later
    comparison in the text has the same operator on the same column; so
    comparisons with different operators accumulate and the last one with
    a given operator wins. *)
Theorem build_query_binds_each_comparison
    (w : World) (nl_text : option string) (columns : list string)
    (date_override cost_override : option string) (q : query)
    (ms1 ms2 : list Re.groups) (m : Re.groups) (col : string) (val : Q) :
  let nl := Py.strip (Py.or_empty nl_text) in
  build_query w nl_text columns date_override cost_override = Ok q ->
  Re.finditer false NUMERIC_RE nl = (ms1 ++ m :: ms2)%list ->
  comparison_column columns cost_override (Re.group 1 m) = Some col ->
  Py.float (Py.remove_commas (Re.group 3 m)) = Ok val ->
  Forall (fun m' => ~ (comparison_column columns cost_override (Re.group 1 m') = Some col /\
                       opmap (Re.group 2 m') = opmap (Re.group 2 m))) ms2 ->
  exists inner,
    lookup col (filter q) = Some (PDict inner) /\
    lookup (opmap (Re.group 2 m)) inner = Some (PFloat val).
Proof.
  intros nl Hq Hms Hc Hv Hall.
  apply build_query_inv in Hq. destruct Hq as [Hf _]. fold nl in Hf.
  unfold build_filter in Hf. apply bind_Ok_inv in Hf. destruct Hf as [d [Hd Hf]].
  pose proof (filter_before_comparisons_well_formed w nl columns date_override cost_override d Hd)
    as Hw0.
  rewrite Hms, comparison_loop_app in Hf.
  apply bind_Ok_inv in Hf. destruct Hf as [f1 [H1 H2]].
  pose proof (comparison_loop_well_formed _ _ _ _ _ _ Hw0 H1) as Hw1.
  simpl in H2. apply bind_Ok_inv in H2. destruct H2 as [f2 [H2 H3]].
  pose proof (comparison_step_cases columns date_override cost_override f1 m Hw1) as Hcase.
  rewrite Hc, Hv in Hcase. destruct Hcase as [f2' [inner1 [E [Hw2 [_ Hf2]]]]].
  rewrite E in H2. injection H2 as H2. rewrite H2 in Hf2, Hw2. clear E H2 f2'.
  eapply (comparison_loop_keeps_binding columns date_override cost_override col
            (opmap (Re.group 2 m)) val ms2 f2 (filter q)); try eassumption.
  - rewrite Hf2. apply lookup_dict_set_same.
  - apply lookup_dict_set_same.
Qed.

Lemma build_query_binds_each_comparison_witness :
  exists q inner,
    build_query world_2024_03_15 (Some "cost > 100, cost > 200, cost < 500") ["Cost"] None None
      = Ok q /\
    lookup "Cost" (filter q) = Some (PDict inner) /\
    lookup "$gt" inner = Some (PFloat 200).
Proof.
  assert (Hq : build_query world_2024_03_15 (Some "cost > 100, cost > 200, cost < 500")
                 ["Cost"] None None =
               Ok {| filter := [("Cost", PDict [("$gt", PFloat 200); ("$lt", PFloat 500)])];
                     limit := 100; is_count := false; agg := None |})
    by (vm_compute; reflexivity).
  assert (Hms : Re.finditer false NUMERIC_RE
                  (Py.strip (Py.or_empty (Some "cost > 100, cost > 200, cost < 500"))) =
                ([[(3%nat, "100,"); (2%nat, ">"); (1%nat, "cost ")]] ++
                 [(3%nat, "200,"); (2%nat, ">"); (1%nat, " cost ")] ::
                 [[(3%nat, "500"); (2%nat, "<"); (1%nat, " cost ")]])%list)
    by (vm_compute; reflexivity).
  destruct (build_query_binds_each_comparison world_2024_03_15
              (Some "cost > 100, cost > 200, cost < 500") ["Cost"] None None _ _ _ _
              "Cost" 200%Q Hq Hms) as [inner [H1 H2]].
  - vm_compute. reflexivity.
  - vm_compute. reflexivity.
  - constructor; [| constructor]. intros [_ H]. vm_compute in H. discriminate H.
  - eexists. exists inner. split; [exact Hq |]. split; [exact H1 | exact H2].
Defined.

(* ------------------------------------------------------------------ *)
(** ** Comparisons on one column *)

Lemma dict_set_fresh (k : string) (v : pyval) (d : dict) :
  ~ In k (keys d) -> dict_set k v d = (d ++ [(k, v)])%list.
Proof.
  induction d as [| [k' v'] d IH]; simpl; intros H; [reflexivity |].
  destruct (String.eqb_spec k' k) as [-> | Hne]; [destruct H; left; reflexivity |].
  rewrite IH; [reflexivity |]. intros Hin. apply H. right. exact Hin.
Qed.

Lemma update_cons (d : dict) (k : string) (v : pyval) (e : dict) :
  update d ((k, v) :: e) = update (dict_set k v d) e.
Proof.
  reflexivity.
Qed.

(** Updating with fresh, distinct keys appends the entries in order. *)
Lemma update_fresh (e : dict) :
  forall d, NoDup (keys d ++ keys e) -> update d e = (d ++ e)%list.
Proof.
  induction e as [| [k v] e IH]; intros d H.
  - unfold update. simpl. rewrite app_nil_r. reflexivity.
  - rewrite update_cons.
    assert (Hk : ~ In k (keys d)).
    { intros Hin. apply NoDup_remove_2 in H. apply H. apply in_or_app. left. exact Hin. }
    rewrite (dict_set_fresh k v d Hk). rewrite IH.
    + rewrite <- app_assoc. reflexivity.
    + unfold keys in *. rewrite map_app. simpl. rewrite <- app_assoc. simpl. 
      simpl in H. exact H.
Qed.

(** What the comparison loop leaves on a column: the operators the column
    had, updated with one entry per comparison that resolves to it, in the
    order of the text. *)
Lemma comparison_loop_accumulates (cols : list string) (do co : option string)
    (col : string) (ms : list Re.groups) :
  forall filt filt',
  well_formed_filter cols do co filt ->
  comparison_loop cols co ms filt = Ok filt' ->
  exists vals,
    Forall2 (fun m v => Py.float (Py.remove_commas (Re.group 3 m)) = Ok v)
            (comparisons_on cols co col ms) vals /\
    (comparisons_on cols co col ms = [] -> lookup col filt' = lookup col filt) /\
    (comparisons_on cols co col ms <> [] ->
     lookup col filt' =
     Some (PDict (update (operators_of (lookup col filt))
                    (combine (map (fun m => opmap (Re.group 2 m)) (comparisons_on cols co col ms))
                             (map PFloat vals))))).
Proof.
  induction ms as [| m ms IH]; intros filt filt' Hw H.
  - simpl in H. injection H as <-. exists []. split; [constructor |].
    split; [reflexivity | intros N; destruct N; reflexivity].
  - simpl in H. apply bind_Ok_inv in H. destruct H as [f1 [H1 H2]].
    pose proof (comparison_step_cases cols do co filt m Hw) as Hc.
    pose proof (comparison_step_well_formed _ _ _ _ _ _ Hw H1) as Hw1.
    destruct (IH f1 filt' Hw1 H2) as [vals [HF [Hnil Hcons]]].
    unfold comparisons_on in *. cbn [List.filter].
    destruct (comparison_column cols co (Re.group 1 m)) as [c |] eqn:Ec.
    + destruct (Py.float (Py.remove_commas (Re.group 3 m))) as [v |] eqn:Ev.
      * destruct Hc as [f1' [inner [E [_ [Hl Hf]]]]].
        rewrite E in H1. injection H1 as H1. rewrite H1 in Hf. clear E H1 f1'.
        destruct (String.eqb_spec c col) as [-> | Hne].
        -- assert (Hin : inner = operators_of (lookup col filt)).
           { unfold setdefault in Hl. destruct (lookup col filt) as [x |] eqn:El.
             - rewrite El in Hl. injection Hl as ->. reflexivity.
             - rewrite lookup_dict_set_same in Hl. injection Hl as <-. reflexivity. }
           assert (Hl1 : lookup col f1 =
                         Some (PDict (dict_set (opmap (Re.group 2 m)) (PFloat v) inner)))
             by (rewrite Hf; apply lookup_dict_set_same).
           exists (v :: vals). split; [constructor; assumption |].
           split; [discriminate |]. intros _. cbn [map combine]. rewrite update_cons.
           rewrite <- Hin.
           destruct (List.filter _ ms) as [| m' on] eqn:Eon.
           ++ inversion HF; subst. simpl. rewrite (Hnil eq_refl). exact Hl1.
           ++ rewrite Hcons by discriminate. rewrite Hl1. reflexivity.
        -- exists vals. split; [exact HF |].
           assert (Hl1 : lookup col f1 = lookup col filt).
           { rewrite Hf. rewrite lookup_dict_set_other by congruence.
             apply lookup_setdefault_other. congruence. }
           rewrite <- Hl1. split; assumption.
      * destruct Hc as [_ E]. congruence.
    + assert (f1 = filt) by congruence. subst f1. exists vals. split; [exact HF |].
      split; assumption.
Qed.

(** C8: numeric comparisons that resolve to the same column accumulate in
    one map on that column. Whatever [build_query] returns binds the column
    to the operators it had when the comparison loop started (none, unless
    an earlier predicate wrote to the column), updated with one entry,
    operator to value, per comparison that resolves to it, in the order of
    the text; so when these operators are all different, the map is
    exactly the earlier operators followed by the entries. For
    "cost > 100 cost < 500" on ["Cost (USD)"] this is
    [{"$gt": 100, "$lt": 500}]. *)
Theorem C8_comparisons_on_one_column_accumulate
    (w : World) (nl_text : option string) (columns : list string)
    (date_override cost_override : option string) (q : query) (d : dict) (col : string) :
  let nl := Py.strip (Py.or_empty nl_text) in
  let found := comparisons_on columns cost_override col (Re.finditer false NUMERIC_RE nl) in
  let before := operators_of (lookup col (predicates_before_comparisons d nl columns)) in
  build_query w nl_text columns date_override cost_override = Ok q ->
  parse_date_specifics w nl columns date_override = Ok d ->
  found <> [] ->
  exists vals,
    Forall2 (fun m v => Py.float (Py.remove_commas (Re.group 3 m)) = Ok v) found vals /\
    let entries := combine (map (fun m => opmap (Re.group 2 m)) found) (map PFloat vals) in
    lookup col (filter q) = Some (PDict (update before entries)) /\
    (NoDup (keys before ++ keys entries) ->
     lookup col (filter q) = Some (PDict (before ++ entries)%list)).
Proof.
  intros nl found before Hq Hd Hne.
  apply build_query_inv in Hq. destruct Hq as [Hf _]. fold nl in Hf.
  unfold build_filter in Hf. rewrite Hd in Hf. cbn [bind] in Hf.
  pose proof (filter_before_comparisons_well_formed w nl columns date_override cost_override d Hd)
    as Hw0.
  destruct (comparison_loop_accumulates columns date_override cost_override col _ _ _ Hw0 Hf)
    as [vals [HF [_ Hcons]]].
  exists vals. split; [exact HF |]. cbv zeta. 
  assert (E : lookup col (filter q) =
              Some (PDict (update before
                (combine (map (fun m => opmap (Re.group 2 m)) found) (map PFloat vals)))))
    by (apply Hcons; exact Hne).
  split; [exact E |].
  intros Hnd. rewrite E, (update_fresh _ _ Hnd). reflexivity.
Qed.

Lemma C8_comparisons_on_one_column_accumulate_witness :
  exists q,
    build_query world_2024_03_15 (Some "cost > 100 cost < 500") ["Cost (USD)"] None None = Ok q /\
    filter q = [("Cost (USD)", PDict [("$gt", PFloat 100); ("$lt", PFloat 500)])] /\
    lookup "Cost (USD)" (filter q) = Some (PDict [("$gt", PFloat 100); ("$lt", PFloat 500)]).
Proof.
  assert (Hq : build_query world_2024_03_15 (Some "cost > 100 cost < 500") ["Cost (USD)"]
                 None None =
               Ok {| filter := [("Cost (USD)", PDict [("$gt", PFloat 100); ("$lt", PFloat 500)])];
                     limit := 100; is_count := false; agg := None |})
    by (vm_compute; reflexivity).
  assert (Hd : parse_date_specifics world_2024_03_15
                 (Py.strip (Py.or_empty (Some "cost > 100 cost < 500"))) ["Cost (USD)"] None =
               Ok []) by (vm_compute; reflexivity).
  assert (Hfound : comparisons_on ["Cost (USD)"] None "Cost (USD)"
                     (Re.finditer false NUMERIC_RE
                        (Py.strip (Py.or_empty (Some "cost > 100 cost < 500")))) =
                   [[(3%nat, "100"); (2%nat, ">"); (1%nat, "cost ")];
                    [(3%nat, "500"); (2%nat, "<"); (1%nat, " cost ")]])
    by (vm_compute; reflexivity).
  assert (Hb : operators_of
                 (lookup "Cost (USD)"
                    (predicates_before_comparisons []
                       (Py.strip (Py.or_empty (Some "cost > 100 cost < 500"))) ["Cost (USD)"])) =
               []) by (vm_compute; reflexivity).
  pose proof (C8_comparisons_on_one_column_accumulate world_2024_03_15
                (Some "cost > 100 cost < 500") ["Cost (USD)"] None None _ [] "Cost (USD)"
                Hq Hd) as H.
  cbv zeta in H. rewrite Hfound, Hb in H.
  destruct (H ltac:(discriminate)) as [vals [HF [_ Hnd]]].
  inversion HF as [| m1 v1 ms1 vs1 Hv1 HF1]; subst.
  inversion HF1 as [| m2 v2 ms2 vs2 Hv2 HF2]; subst.
  inversion HF2; subst.
  assert (v1 = 100%Q) by (vm_compute in Hv1; congruence).
  assert (v2 = 500%Q) by (vm_compute in Hv2; congruence).
  subst v1 v2.
  eexists. split; [exact Hq |]. split; [reflexivity |].
  apply Hnd. vm_compute. repeat constructor; simpl; intuition discriminate.
Defined.

(* ------------------------------------------------------------------ *)
(** ** The aggregation pipelines *)

Lemma digit_val_nonneg (c : ascii) : Py.is_digit c = true -> 0 <= Py.digit_val c <= 9.
Proof.
  unfold Py.is_digit, Py.between_codes, Py.digit_val. intros H.
  apply andb_true_iff in H. destruct H as [H1 H2].
  apply N.leb_le in H1, H2. lia.
Qed.

Lemma digits_val_nonneg (s : string) :
  forall acc, Py.all_digits s = true -> 0 <= acc -> 0 <= Py.digits_val acc s.
Proof.
  induction s as [| c s IH]; cbn [Py.digits_val Py.all_digits]; intros acc H Hacc;
    [exact Hacc |].
  apply andb_true_iff in H. destruct H as [Hc Hs].
  apply IH; [exact Hs |]. pose proof (digit_val_nonneg c Hc) as Hd. lia.
Qed.

Lemma int_nonneg (s : string) (n : Z) : Py.int s = Ok n -> 0 <= n.
Proof.
  unfold Py.int. destruct (Py.all_digits s) eqn:E; simpl; [| discriminate].
  destruct (s =? EmptyString)%string; [discriminate |].
  destruct (_ <? _)%nat; [discriminate |].
  intros [= <-]. apply digits_val_nonneg; [exact E | lia].
Qed.

Lemma group_field_of_In (cols : list string) (gb gf : string) :
  group_field_of cols gb = Some gf -> In gf cols.
Proof.
  unfold group_field_of. destruct (existsb _ _).
  - intros H. apply or_else_cases in H. destruct H as [H | H]; eapply find_field_In, H.
  - apply find_field_In.
Qed.

(** X10: an aggregation is built only on a resolved cost column [c], the
    cost override when one is given, and it is one of three pipelines over
    the returned filter: the sum of [c]; the count, sum and average of [c]
    per value of a column of the schema, sorted by the sum; or the [n]
    documents with the largest [c], [n] positive. *)
Theorem build_query_pipeline_shapes
    (w : World) (nl_text : option string) (columns : list string)
    (date_override cost_override : option string) (q : query) (a : aggregation) :
  build_query w nl_text columns date_override cost_override = Ok q ->
  agg q = Some a ->
  exists c,
    Py.or_else cost_override (detect_cost_field columns) = Some c /\
    c <> EmptyString /\
    (Py.truthy cost_override = true -> cost_override = Some c) /\
    ((type a = "sum" /\ pipeline a = sum_pipeline (filter q) c) \/
     (type a = "group_cost" /\
      exists gf, In gf columns /\ pipeline a = group_pipeline (filter q) gf c) \/
     (type a = "top" /\ exists n, 0 < n /\ pipeline a = top_pipeline (filter q) c n)).
Proof.
  intros Hq Ha. apply build_query_inv in Hq. cbv zeta in Hq.
  destruct Hq as [_ [_ [[_ [_ Hn]] | [_ [_ Hb]]]]]; [congruence |].
  assert (Hc : forall c, Py.or_else cost_override (detect_cost_field columns) = Some c ->
                         Py.truthy (Some c) = true ->
                         c <> EmptyString /\
                         (Py.truthy cost_override = true -> cost_override = Some c)).
  { intros c Hc Ht. split.
    - intros ->. discriminate Ht.
    - intros Ho. rewrite (or_else_truthy _ _ Ho) in Hc. exact Hc. }
  destruct Hb as [[a' [Hs Ha']] | [[_ [a' [Hg Ha']]] | [_ [_ Ht]]]].
  - assert (a' = a) by congruence. subst a'. unfold sum_branch in Hs.
    destruct (detect_sum_request _); [| discriminate].
    destruct (Py.or_else cost_override (detect_cost_field columns)) as [c |] eqn:Ec;
      [| discriminate].
    destruct (Py.truthy (Some c)) eqn:Et; [| discriminate]. injection Hs as <-.
    exists c. destruct (Hc c eq_refl Et) as [H1 H2].
    repeat split; try assumption. left. split; reflexivity.
  - assert (a' = a) by congruence. subst a'. unfold group_branch in Hg.
    destruct (detect_group_by _) as [gb |]; [| discriminate].
    destruct (Py.truthy (Some gb)); [| discriminate].
    destruct (group_field_of columns gb) as [gf |] eqn:Eg; [| discriminate].
    destruct (Py.or_else cost_override (detect_cost_field columns)) as [c |] eqn:Ec;
      [| discriminate].
    destruct (Py.truthy (Some gf)); [| discriminate].
    destruct (Py.truthy (Some c)) eqn:Et; [| discriminate]. injection Hg as <-.
    exists c. destruct (Hc c eq_refl Et) as [H1 H2].
    repeat split; try assumption. right. left. split; [reflexivity |].
    exists gf. split; [eapply group_field_of_In, Eg | reflexivity].
  - rewrite Ha in Ht. unfold top_branch in Ht.
    apply bind_Ok_inv in Ht. destruct Ht as [topn [Hn Ht]].
    destruct topn as [n |]; [| discriminate].
    destruct (n =? 0) eqn:En; [discriminate |]. cbn [negb] in Ht.
    destruct (Py.or_else cost_override (detect_cost_field columns)) as [c |] eqn:Ec;
      [| discriminate].
    destruct (Py.truthy (Some c)) eqn:Et; [| discriminate]. injection Ht as <-.
    exists c. destruct (Hc c eq_refl Et) as [H1 H2].
    repeat split; try assumption. right. right. split; [reflexivity |].
    exists n. split; [| reflexivity].
    unfold detect_top_n in Hn. destruct (Re.search true TOP_RE _); [| discriminate].
    apply bind_Ok_inv in Hn. destruct Hn as [n' [Hi Hn]]. injection Hn as <-.
    apply int_nonneg in Hi. apply Z.eqb_neq in En. lia.
Qed.

Lemma build_query_pipeline_shapes_witness :
  exists q a,
    build_query world_2024_03_15 (Some "top 3 by status") ["Status"; "Cost"; "Fee"] None
      (Some "Fee") = Ok q /\
    agg q = Some a /\
    pipeline a = group_pipeline (filter q) "Status" "Fee".
Proof.
  assert (Hq : build_query world_2024_03_15 (Some "top 3 by status") ["Status"; "Cost"; "Fee"]
                 None (Some "Fee") =
               Ok {| filter := []; limit := 100; is_count := false;
                     agg := Some {| type := "group_cost";
                                    pipeline := group_pipeline [] "Status" "Fee" |} |})
    by (vm_compute; reflexivity).
  destruct (build_query_pipeline_shapes world_2024_03_15 (Some "top 3 by status")
              ["Status"; "Cost"; "Fee"] None (Some "Fee") _ _ Hq eq_refl)
    as [c [_ [_ [_ _]]]].
  do 2 eexists. split; [exact Hq |]. split; reflexivity.
Defined.

(* ------------------------------------------------------------------ *)
(** ** Overrides and the explicit range *)

(** X11: a non-empty date override is the date column whatever the schema:
    the temporal filter does not depend on the column list, and what it
    binds, if anything, is the override. *)
Theorem date_override_is_the_date_column
    (w : World) (nl : string) (columns columns' : list string) (f : string) :
  f <> EmptyString ->
  parse_date_specifics w nl columns (Some f) = parse_date_specifics w nl columns' (Some f) /\
  forall d, parse_date_specifics w nl columns (Some f) = Ok d ->
            d = [] \/ exists r, d = [(f, r)].
Proof.
  intros Hf.
  assert (Ht : Py.truthy (Some f) = true) by (destruct f; [contradiction | reflexivity]).
  assert (Ho : forall cols, Py.or_else (Some f) (detect_date_field cols) = Some f)
    by (intros cols; apply or_else_truthy, Ht).
  split.
  - rewrite (parse_date_specifics_resolved w nl columns (Some f) (Ho columns)).
    rewrite (parse_date_specifics_resolved w nl columns' (Some f) (Ho columns')).
    reflexivity.
  - intros d Hd. apply parse_date_specifics_shape in Hd.
    destruct Hd as [-> | [f' [r [Hf' ->]]]]; [left; reflexivity |].
    rewrite Ho in Hf'. injection Hf' as <-. right. exists r. reflexivity.
Qed.

Lemma date_override_is_the_date_column_witness :
  parse_date_specifics world_2024_03_15 "this month" ["Ship Date"] (Some "Booked On") =
  parse_date_specifics world_2024_03_15 "this month" [] (Some "Booked On").
Proof.
  apply (date_override_is_the_date_column world_2024_03_15 "this month"
           ["Ship Date"] [] "Booked On").
  discriminate.
Defined.

Lemma dateparser_parse_midnight (s : string) (d : datetime) :
  dateparser_parse s = Ok d ->
  d = midnight_of (year d) (month d) (day d) None /\
  check_date_fields (year d) (month d) (day d) = true.
Proof.
  unfold dateparser_parse. cbv zeta.
  destruct (_ && check_date_fields _ _ _) eqn:E; [| discriminate].
  intros [= <-]. split; [reflexivity |]. simpl.
  apply andb_true_iff in E. apply E.
Qed.

(** X12: an explicit range whose two dates parse is the temporal filter,
    whatever relative phrases the text has and whatever the clock reads:
    the closed range from the first date to the second, in the order
    written, each bound a naive datetime at midnight. *)
Theorem explicit_range_decides
    (nl : string) (columns : list string) (date_override : option string)
    (f : string) (m : Re.groups) (a b : datetime) :
  Py.or_else date_override (detect_date_field columns) = Some f ->
  Re.search true BETWEEN_RE nl = Some m ->
  dateparser_parse (Re.group 1 m) = Ok a ->
  dateparser_parse (Re.group 2 m) = Ok b ->
  (forall w, parse_date_specifics w nl columns date_override =
             Ok [(f, PDict [("$gte", PDatetime a); ("$lte", PDatetime b)])]) /\
  a = midnight_of (year a) (month a) (day a) None /\
  b = midnight_of (year b) (month b) (day b) None.
Proof.
  intros Hf Hm Ha Hb. split; [| split].
  - intros w. rewrite (parse_date_specifics_resolved w nl columns date_override Hf).
    unfold explicit_range. rewrite Hm. cbv zeta. rewrite Ha, Hb. reflexivity.
  - apply (dateparser_parse_midnight _ _ Ha).
  - apply (dateparser_parse_midnight _ _ Hb).
Qed.

Lemma explicit_range_decides_witness :
  parse_date_specifics world_2024_03_15 "this month between 2024-12-31 and 2024-01-01"
    ["Ship Date"] None =
  Ok [("Ship Date", PDict [("$gte", PDatetime (mkdt 2024 12 31 0 0 0 0 None));
                           ("$lte", PDatetime (mkdt 2024 1 1 0 0 0 0 None))])].
Proof.
  refine (proj1 (explicit_range_decides "this month between 2024-12-31 and 2024-01-01"
                   ["Ship Date"] None "Ship Date"
                   [(2%nat, "2024-01-01"); (1%nat, "2024-12-31")] _ _ _ _ _ _)
                world_2024_03_15).
  - reflexivity.
  - vm_compute. reflexivity.
  - vm_compute. reflexivity.
  - vm_compute. reflexivity.
Defined.

(* ------------------------------------------------------------------ *)
(** ** The calendar *)

(** The days before a year whose number is written by its position in the
    400-, 100- and 4-year cycles. *)
Lemma days_before_year_cycles (a b c e : Z) :
  0 <= a -> 0 <= b < 4 -> 0 <= c < 25 -> 0 <= e < 4 ->
  days_before_year (400 * a + 100 * b + 4 * c + e + 1) =
  146097 * a + 36524 * b + 1461 * c + 365 * e.
Proof.
  intros Ha Hb Hc He. unfold days_before_year. cbv zeta.
  replace (400 * a + 100 * b + 4 * c + e + 1 - 1) with (400 * a + 100 * b + 4 * c + e) by lia.
  assert (H4 : (400 * a + 100 * b + 4 * c + e) / 4 = 100 * a + 25 * b + c)
    by (symmetry; apply Z.div_unique with (r := e); lia).
  assert (H100 : (400 * a + 100 * b + 4 * c + e) / 100 = 4 * a + b)
    by (symmetry; apply Z.div_unique with (r := 4 * c + e); lia).
  assert (H400 : (400 * a + 100 * b + 4 * c + e) / 400 = a)
    by (symmetry; apply Z.div_unique with (r := 100 * b + 4 * c + e); lia).
  rewrite H4, H100, H400. lia.
Qed.

Lemma is_leap_cycles (a b c e : Z) :
  0 <= a -> 0 <= b < 4 -> 0 <= c < 25 -> 0 <= e < 4 ->
  is_leap (400 * a + 100 * b + 4 * c + e + 1) =
  (e =? 3) && (negb (c =? 24) || (b =? 3)).
Proof.
  intros Ha Hb Hc He. unfold is_leap.
  set (y := 400 * a + 100 * b + 4 * c + e + 1).
  assert (H4 : y mod 4 = (e + 1) mod 4).
  { unfold y. replace (400 * a + 100 * b + 4 * c + e + 1)
      with ((e + 1) + (100 * a + 25 * b + c) * 4) by lia. apply Z.mod_add. lia. }
  assert (H100 : y mod 100 = (4 * c + e + 1) mod 100).
  { unfold y. replace (400 * a + 100 * b + 4 * c + e + 1)
      with ((4 * c + e + 1) + (4 * a + b) * 100) by lia. apply Z.mod_add. lia. }
  assert (H400 : y mod 400 = (100 * b + 4 * c + e + 1) mod 400).
  { unfold y. replace (400 * a + 100 * b + 4 * c + e + 1)
      with ((100 * b + 4 * c + e + 1) + a * 400) by lia. apply Z.mod_add. lia. }
  rewrite H4, H100, H400.
  destruct (Z.eqb_spec e 3) as [-> | He3].
  - replace ((3 + 1) mod 4) with 0 by reflexivity. simpl (0 =? 0). cbn [andb].
    destruct (Z.eqb_spec c 24) as [-> | Hc24].
    + replace ((4 * 24 + 3 + 1) mod 100) with 0 by reflexivity. simpl (0 =? 0). cbn [negb orb].
      destruct (Z.eqb_spec b 3) as [-> | Hb3]; [reflexivity |].
      replace (100 * b + 4 * 24 + 3 + 1) with (100 * (b + 1)) by lia.
      rewrite Z.mod_small by lia.
      destruct (Z.eqb_spec (100 * (b + 1)) 0); [lia | reflexivity].
    + rewrite (Z.mod_small (4 * c + 3 + 1)) by lia.
      destruct (Z.eqb_spec (4 * c + 3 + 1) 0); [lia | reflexivity].
  - rewrite Z.mod_small by lia.
    destruct (Z.eqb_spec (e + 1) 0); [lia | reflexivity].
Qed.

(** Evaluates the closed table lookups and flags of the goal. *)
Ltac eval_tables :=
  repeat match goal with
         | |- context [nth ?n ?l 0] =>
             let v := eval vm_compute in (nth n l 0) in
             progress change (nth n l 0) with v
         | |- context [b2z ?b] =>
             let v := eval vm_compute in (b2z b) in
             progress change (b2z b) with v
         | |- context [if ?b then ?x else ?y] =>
             let v := eval vm_compute in b in
             match v with
             | true => change (if b then x else y) with x
             | false => change (if b then x else y) with y
             end
         end.

(** The month and day that [ord2ymd] reads off the day of the year. *)
Lemma month_day_part (leap : bool) (r : Z) :
  0 <= r < 365 + b2z leap ->
  exists m d,
    (let m0 := Z.shiftr (r + 50) 5 in
     let preceding := nth (Z.to_nat m0) DAYS_BEFORE_MONTH 0 + b2z ((2 <? m0) && leap) in
     if r <? preceding
     then (m0 - 1,
           r - (preceding - (nth (Z.to_nat (m0 - 1)) DAYS_IN_MONTH 0
                             + b2z ((m0 - 1 =? 2) && leap))) + 1)
     else (m0, r - preceding + 1)) = (m, d) /\
    1 <= m <= 12 /\
    1 <= d <= (if (m =? 2) && leap then 29 else nth (Z.to_nat m) DAYS_IN_MONTH 0) /\
    nth (Z.to_nat m) DAYS_BEFORE_MONTH 0 + b2z ((2 <? m) && leap) + d = r + 1.
Proof.
  intros Hr. cbv zeta. rewrite Z.shiftr_div_pow2 by lia. change (2 ^ 5) with 32.
  assert (Hb : b2z leap <= 1) by (destruct leap; simpl; lia).
  remember ((r + 50) / 32) as m0 eqn:Hm0.
  assert (Hm : 32 * m0 <= r + 50 < 32 * m0 + 32).
  { subst m0. pose proof (Z.div_mod (r + 50) 32 ltac:(lia)).
    pose proof (Z.mod_pos_bound (r + 50) 32 ltac:(lia)). lia. }
  clear Hm0.
  assert (Hc : m0 = 1 \/ m0 = 2 \/ m0 = 3 \/ m0 = 4 \/ m0 = 5 \/ m0 = 6 \/ m0 = 7 \/
               m0 = 8 \/ m0 = 9 \/ m0 = 10 \/ m0 = 11 \/ m0 = 12) by lia.
  repeat (destruct Hc as [Hc | Hc]); subst m0; destruct leap;
    change (b2z true) with 1 in Hr; change (b2z false) with 0 in Hr;
    eval_tables;
    match goal with
    | |- context [r <? ?p] =>
        destruct (Z.ltb_spec r p); eexists; eexists; (split; [reflexivity |]);
        eval_tables; lia
    end.
Qed.

(** [ord2ymd] returns a date of the calendar, and [ymd2ord] takes it back
    to the ordinal. *)
Lemma ord2ymd_correct (n : Z) :
  1 <= n ->
  exists y m d,
    ord2ymd n = (y, m, d) /\
    1 <= y /\ 1 <= m <= 12 /\ 1 <= d <= days_in_month y m /\
    ymd2ord y m d = n /\
    days_before_year y < n.
Proof.
  intros Hn. unfold ord2ymd, DI400Y, DI100Y, DI4Y. cbv zeta.
  pose proof (Z.div_mod (n - 1) 146097 ltac:(lia)) as E1.
  pose proof (Z.mod_pos_bound (n - 1) 146097 ltac:(lia)) as B1.
  pose proof (Z.div_pos (n - 1) 146097 ltac:(lia) ltac:(lia)) as A1.
  set (a := (n - 1) / 146097) in *. set (r1 := (n - 1) mod 146097) in *.
  pose proof (Z.div_mod r1 36524 ltac:(lia)) as E2.
  pose proof (Z.mod_pos_bound r1 36524 ltac:(lia)) as B2.
  pose proof (Z.div_pos r1 36524 ltac:(lia) ltac:(lia)) as A2.
  set (b := r1 / 36524) in *. set (r2 := r1 mod 36524) in *.
  pose proof (Z.div_mod r2 1461 ltac:(lia)) as E3.
  pose proof (Z.mod_pos_bound r2 1461 ltac:(lia)) as B3.
  pose proof (Z.div_pos r2 1461 ltac:(lia) ltac:(lia)) as A3.
  set (c := r2 / 1461) in *. set (r3 := r2 mod 1461) in *.
  pose proof (Z.div_mod r3 365 ltac:(lia)) as E4.
  pose proof (Z.mod_pos_bound r3 365 ltac:(lia)) as B4.
  pose proof (Z.div_pos r3 365 ltac:(lia) ltac:(lia)) as A4.
  set (e := r3 / 365) in *. set (r := r3 mod 365) in *.
  clearbody a r1 b r2 c r3 e r.
  assert (Hb4 : b <= 4) by lia.
  assert (Hc24 : c <= 24) by lia.
  assert (He4 : e <= 4) by lia.
  destruct (Z.eqb_spec e 4) as [He | He]; [| destruct (Z.eqb_spec b 4) as [Hb | Hb]];
    cbn [orb].
  - (* the last day of a leap year *)
    assert (Hr : r = 0) by lia. assert (Hc : c <= 23) by lia. assert (Hb : b < 4) by lia.
    exists (a * 400 + 1 + b * 100 + c * 4 + e - 1), 12, 31.
    replace (a * 400 + 1 + b * 100 + c * 4 + e - 1)
      with (400 * a + 100 * b + 4 * c + 3 + 1) by lia.
    unfold days_in_month, ymd2ord, days_before_month.
    rewrite days_before_year_cycles, is_leap_cycles by lia.
    replace (c =? 24) with false by (symmetry; apply Z.eqb_neq; lia).
    eval_tables. repeat split; lia.
  - (* the last day of a 400-year cycle *)
    exists (a * 400 + 1 + b * 100 + c * 4 + e - 1), 12, 31.
    replace (a * 400 + 1 + b * 100 + c * 4 + e - 1)
      with (400 * a + 100 * 3 + 4 * 24 + 3 + 1) by lia.
    unfold days_in_month, ymd2ord, days_before_month.
    rewrite days_before_year_cycles, is_leap_cycles by lia.
    eval_tables. repeat split; lia.
  - replace (a * 400 + 1 + b * 100 + c * 4 + e) with (400 * a + 100 * b + 4 * c + e + 1) by lia.
    rewrite <- (is_leap_cycles a b c e) by lia.
    pose proof (days_before_year_cycles a b c e ltac:(lia) ltac:(lia) ltac:(lia) ltac:(lia))
      as Hdby.
    assert (Hy : 1 <= 400 * a + 100 * b + 4 * c + e + 1) by lia.
    set (y := 400 * a + 100 * b + 4 * c + e + 1) in *.
    destruct (month_day_part (is_leap y) r) as [m [d [Emd [Hm [Hd Hs]]]]].
    { destruct (is_leap y); simpl; lia. }
    cbv zeta in Emd.
    exists y, m, d. split.
    + destruct (r <? _); injection Emd as <- <-; reflexivity.
    + unfold days_in_month, ymd2ord, days_before_month. rewrite Hdby.
      repeat split; lia.
Qed.

Lemma days_before_year_bounds (y : Z) :
  (1 <= y -> 0 <= days_before_year y) /\
  (2 <= y -> 365 <= days_before_year y) /\
  (y <= 9998 -> days_before_year y <= 3651329) /\
  (10000 <= y -> 3652059 <= days_before_year y).
Proof.
  unfold days_before_year. cbv zeta. repeat split; intros H; Z.div_mod_to_equations; lia.
Qed.

(** Within a year: the day of the year of a calendar date. *)
Lemma day_of_year_bounds (y m d : Z) :
  1 <= m <= 12 -> 1 <= d <= days_in_month y m ->
  1 <= days_before_month y m + d <= 365 + b2z (is_leap y).
Proof.
  intros Hm Hd. unfold days_in_month in Hd. unfold days_before_month.
  assert (Hc : m = 1 \/ m = 2 \/ m = 3 \/ m = 4 \/ m = 5 \/ m = 6 \/ m = 7 \/
               m = 8 \/ m = 9 \/ m = 10 \/ m = 11 \/ m = 12) by lia.
  repeat (destruct Hc as [Hc | Hc]); subst m; destruct (is_leap y);
    revert Hd; eval_tables; lia.
Qed.

Lemma check_date_fields_inv (y m d : Z) :
  check_date_fields y m d = true ->
  1 <= y <= 9999 /\ 1 <= m <= 12 /\ 1 <= d <= days_in_month y m.
Proof.
  unfold check_date_fields, MINYEAR, MAXYEAR. intros H.
  repeat (apply andb_true_iff in H; destruct H as [H ?]).
  repeat match goal with E : (_ <=? _) = true |- _ => apply Z.leb_le in E end. lia.
Qed.

Lemma check_date_fields_intro (y m d : Z) :
  1 <= y <= 9999 -> 1 <= m <= 12 -> 1 <= d <= days_in_month y m ->
  check_date_fields y m d = true.
Proof.
  unfold check_date_fields, MINYEAR, MAXYEAR. intros Hy Hm Hd.
  repeat (apply andb_true_iff; split); apply Z.leb_le; lia.
Qed.

Lemma check_time_fields_inv (h mi s us : Z) :
  check_time_fields h mi s us = true ->
  0 <= h <= 23 /\ 0 <= mi <= 59 /\ 0 <= s <= 59 /\ 0 <= us <= 999999.
Proof.
  unfold check_time_fields. intros H.
  repeat (apply andb_true_iff in H; destruct H as [H ?]).
  repeat match goal with E : (_ <=? _) = true |- _ => apply Z.leb_le in E end. lia.
Qed.

(** The ordinal of a valid date. *)
Lemma ymd2ord_bounds (y m d : Z) :
  check_date_fields y m d = true ->
  1 <= ymd2ord y m d <= MAXORDINAL /\
  (2 <= y -> 366 <= ymd2ord y m d) /\
  (y <= 9998 -> ymd2ord y m d <= MAXORDINAL - 364).
Proof.
  intros H. apply check_date_fields_inv in H. destruct H as [Hy [Hm Hd]].
  pose proof (day_of_year_bounds y m d Hm Hd) as Hdoy.
  pose proof (days_before_year_bounds y) as [B1 [B2 [B3 _]]].
  unfold ymd2ord, MAXORDINAL.
  assert (Hl : b2z (is_leap y) <= 1) by (destruct (is_leap y); simpl; lia).
  assert (Hc : y <= 9998 \/ y = 9999) by lia.
  destruct Hc as [Hc | ->].
  - repeat split; intros; lia.
  - change (is_leap 9999) with false in Hdoy. change (b2z false) with 0 in Hdoy.
    change (days_before_year 9999) with 3651694 in *.
    repeat split; intros; lia.
Qed.

(** The date of an ordinal in range is valid. *)
Lemma ord2ymd_valid (n : Z) :
  1 <= n <= MAXORDINAL ->
  exists y m d,
    ord2ymd n = (y, m, d) /\ check_date_fields y m d = true /\ ymd2ord y m d = n.
Proof.
  intros [H1 H2]. destruct (ord2ymd_correct n H1) as [y [m [d [E [Hy [Hm [Hd [Ho Hb]]]]]]]].
  exists y, m, d. split; [exact E |]. split; [| exact Ho].
  apply check_date_fields_intro; try assumption.
  pose proof (days_before_year_bounds y) as [_ [_ [_ B]]]. unfold MAXORDINAL in H2. lia.
Qed.

(** Adding days: the result when the ordinal stays in range, the
    exception when it does not. *)
Lemma add_days_in_range (d : datetime) (n : Z) :
  0 < toordinal d + n <= MAXORDINAL ->
  exists d',
    add_days d n = Ok d' /\
    toordinal d' = toordinal d + n /\
    check_date_fields (year d') (month d') (day d') = true /\
    hour d' = hour d /\ minute d' = minute d /\ second d' = second d /\
    microsecond d' = microsecond d /\ tzinfo d' = tzinfo d.
Proof.
  intros H. unfold add_days. cbv zeta.
  replace ((0 <? toordinal d + n) && (toordinal d + n <=? MAXORDINAL)) with true
    by (symmetry; apply andb_true_iff; split; [apply Z.ltb_lt | apply Z.leb_le]; lia).
  destruct (ord2ymd_valid (toordinal d + n) ltac:(lia)) as [y [m [dd [E [Hv Ho]]]]].
  rewrite E. eexists. split; [reflexivity |]. unfold toordinal at 1. simpl.
  repeat split; assumption.
Qed.

Lemma add_days_out_of_range (d : datetime) (n : Z) :
  ~ (0 < toordinal d + n <= MAXORDINAL) -> add_days d n = Raise OverflowError.
Proof.
  intros H. unfold add_days. cbv zeta.
  replace ((0 <? toordinal d + n) && (toordinal d + n <=? MAXORDINAL)) with false;
    [reflexivity |].
  symmetry. apply andb_false_iff.
  destruct (Z.ltb_spec 0 (toordinal d + n)); [right | left; reflexivity].
  apply Z.leb_gt. lia.
Qed.

Lemma midnight_valid (d : datetime) :
  check_date_fields (year d) (month d) (day d) = true ->
  midnight d = Ok (midnight_of (year d) (month d) (day d) (tzinfo d)).
Proof.
  intros H. unfold midnight, replace. simpl. rewrite H. reflexivity.
Qed.

(* ------------------------------------------------------------------ *)
(** ** The relative windows *)

Lemma valid_datetime_inv (d : datetime) :
  valid_datetime d = true ->
  (1 <= year d <= 9999 /\ 1 <= month d <= 12 /\ 1 <= day d <= days_in_month (year d) (month d)) /\
  (0 <= hour d <= 23 /\ 0 <= minute d <= 59 /\ 0 <= second d <= 59 /\
   0 <= microsecond d <= 999999).
Proof.
  unfold valid_datetime. intros H. apply andb_true_iff in H. destruct H as [H1 H2].
  split; [apply check_date_fields_inv, H1 | apply check_time_fields_inv, H2].
Qed.

Lemma days_in_month_pos (y m : Z) : 1 <= m <= 12 -> 28 <= days_in_month y m.
Proof.
  intros Hm. unfold days_in_month.
  assert (Hc : m = 1 \/ m = 2 \/ m = 3 \/ m = 4 \/ m = 5 \/ m = 6 \/ m = 7 \/
               m = 8 \/ m = 9 \/ m = 10 \/ m = 11 \/ m = 12) by lia.
  repeat (destruct Hc as [Hc | Hc]); subst m; destruct (is_leap y); eval_tables; lia.
Qed.

(** Deciding the order of two datetimes field by field. *)
Ltac order_by_fields :=
  unfold dt_leb, dt_ltb, dt_fields, midnight_of; cbn [lex_ltb year month day hour minute
    second microsecond];
  repeat (match goal with
          | |- context [?a <? ?b] => destruct (Z.ltb_spec a b); try lia
          | |- context [?a =? ?b] => destruct (Z.eqb_spec a b); try lia
          end; cbn [orb andb negb]);
  try reflexivity.

(** The first day of the month of a valid datetime, and the first day of
    the month after, as [replace] builds them. *)
Lemma first_of_month (now : datetime) :
  valid_datetime now = true ->
  replace now None None (Some 1) (Some 0) (Some 0) (Some 0) (Some 0) =
  Ok (midnight_of (year now) (month now) 1 (tzinfo now)).
Proof.
  intros H. apply valid_datetime_inv in H. destruct H as [[Hy [Hm Hd]] _].
  unfold replace. cbn [or_default]. 
  rewrite (check_date_fields_intro (year now) (month now) 1 Hy Hm)
    by (pose proof (days_in_month_pos (year now) (month now) Hm); lia).
  reflexivity.
Qed.

Lemma first_of_next_month (y m : Z) (tz : option string) :
  1 <= y <= 9999 -> 1 <= m <= 12 ->
  (if month (midnight_of y m 1 tz) =? 12
   then replace (midnight_of y m 1 tz) (Some (year (midnight_of y m 1 tz) + 1)) (Some 1)
          None None None None None
   else replace (midnight_of y m 1 tz) None (Some (month (midnight_of y m 1 tz) + 1))
          None None None None None) =
  if (y =? 9999) && (m =? 12) then Raise ValueError
  else Ok (if m =? 12 then midnight_of (y + 1) 1 1 tz else midnight_of y (m + 1) 1 tz).
Proof.
  intros Hy Hm. cbn [month year midnight_of].
  destruct (Z.eqb_spec m 12) as [-> | Hm12].
  - unfold replace. cbn [or_default midnight_of year month day hour minute second
                          microsecond tzinfo].
    destruct (Z.eqb_spec y 9999) as [-> | Hy9]; cbn [andb]; [reflexivity |].
    rewrite (check_date_fields_intro (y + 1) 1 1) by (try lia; eval_tables;
      unfold days_in_month; eval_tables; lia).
    reflexivity.
  - rewrite andb_false_r. unfold replace.
    cbn [or_default midnight_of year month day hour minute second microsecond tzinfo].
    rewrite (check_date_fields_intro y (m + 1) 1 Hy)
      by (try lia; pose proof (days_in_month_pos y (m + 1)); lia).
    reflexivity.
Qed.

(** X13: for a valid [now], [month_range] returns the first instant of
    [now]'s month and the first instant of the month after, in [now]'s
    zone, with [start <= now < end]; in December 9999 it raises
    [ValueError], the year after being out of range. *)
Theorem month_range_contains_now (w : World) (now : datetime) :
  valid_datetime now = true ->
  (year now = 9999 /\ month now = 12 -> month_range w (Some now) = Raise ValueError) /\
  (~ (year now = 9999 /\ month now = 12) ->
   exists start end_,
     month_range w (Some now) = Ok (start, end_) /\
     start = midnight_of (year now) (month now) 1 (tzinfo now) /\
     end_ = (if month now =? 12 then midnight_of (year now + 1) 1 1 (tzinfo now)
             else midnight_of (year now) (month now + 1) 1 (tzinfo now)) /\
     dt_leb start now = true /\ dt_ltb now end_ = true).
Proof.
  intros Hv. pose proof (valid_datetime_inv now Hv) as [[Hy [Hm Hd]] [Hh [Hmi [Hs Hus]]]].
  unfold month_range. cbn [now_or]. rewrite (first_of_month now Hv). cbn [bind].
  rewrite (first_of_next_month (year now) (month now) (tzinfo now) Hy Hm). split.
  - intros [-> ->]. reflexivity.
  - intros Hn.
    replace ((year now =? 9999) && (month now =? 12)) with false.
    2:{ symmetry. apply andb_false_iff.
        destruct (Z.eqb_spec (year now) 9999); [| left; reflexivity].
        right. apply Z.eqb_neq. tauto. }
    cbn [bind]. do 2 eexists. split; [reflexivity |]. split; [reflexivity |].
    split; [reflexivity |]. split.
    + order_by_fields.
    + destruct (Z.eqb_spec (month now) 12); order_by_fields.
Qed.

Lemma month_range_contains_now_witness :
  exists start end_,
    month_range world_2024_03_15 (Some (mkdt 2024 12 31 23 59 59 999999 KOLKATA)) =
      Ok (start, end_) /\
    start = mkdt 2024 12 1 0 0 0 0 KOLKATA /\ end_ = mkdt 2025 1 1 0 0 0 0 KOLKATA.
Proof.
  destruct (proj2 (month_range_contains_now world_2024_03_15
                     (mkdt 2024 12 31 23 59 59 999999 KOLKATA) eq_refl))
    as [start [end_ [H [Hs [He _]]]]].
  - intros [H _]. discriminate H.
  - exists start, end_. split; [exact H |]. split; [exact Hs | exact He].
Defined.

(** X14: for a valid [now] before December 9999, a text with "this month" or
    "current month" (and no explicit range that parses) binds the date
    column to the half-open window from the first instant of [now]'s month
    to the first instant of the next, which contains [now]. *)
Theorem this_month_window
    (w : World) (nl : string) (columns : list string) (date_override : option string)
    (f : string) :
  let now := now_with_tz w in
  Py.or_else date_override (detect_date_field columns) = Some f ->
  explicit_range nl f = None ->
  any_in MONTH_KEYWORDS (Py.lower nl) = true ->
  valid_datetime now = true ->
  ~ (year now = 9999 /\ month now = 12) ->
  exists start end_,
    parse_date_specifics w nl columns date_override =
      Ok [(f, PDict [("$gte", PDatetime start); ("$lt", PDatetime end_)])] /\
    start = midnight_of (year now) (month now) 1 (tzinfo now) /\
    end_ = (if month now =? 12 then midnight_of (year now + 1) 1 1 (tzinfo now)
            else midnight_of (year now) (month now + 1) 1 (tzinfo now)) /\
    dt_leb start now = true /\ dt_ltb now end_ = true.
Proof.
  intros now Hf He Hk Hv Hn.
  pose proof (valid_datetime_inv now Hv) as [[Hy [Hm Hd]] [Hh [Hmi [Hs Hus]]]].
  rewrite (parse_date_specifics_resolved w nl columns date_override Hf), He.
  fold now. unfold relative_range. cbv zeta. rewrite Hk.
  rewrite (first_of_month now Hv). cbn [bind].
  rewrite (first_of_next_month (year now) (month now) (tzinfo now) Hy Hm).
  replace ((year now =? 9999) && (month now =? 12)) with false.
  2:{ symmetry. apply andb_false_iff.
      destruct (Z.eqb_spec (year now) 9999); [| left; reflexivity].
      right. apply Z.eqb_neq. tauto. }
  cbn [bind]. do 2 eexists. split; [reflexivity |]. split; [reflexivity |].
  split; [reflexivity |]. split.
  - order_by_fields.
  - destruct (Z.eqb_spec (month now) 12); order_by_fields.
Qed.

Lemma this_month_window_witness :
  exists start end_,
    parse_date_specifics world_2024_03_15 "shipments of the current month" ["Ship Date"] None =
      Ok [("Ship Date", PDict [("$gte", PDatetime start); ("$lt", PDatetime end_)])] /\
    start = mkdt 2024 3 1 0 0 0 0 KOLKATA /\ end_ = mkdt 2024 4 1 0 0 0 0 KOLKATA.
Proof.
  destruct (this_month_window world_2024_03_15 "shipments of the current month"
              ["Ship Date"] None "Ship Date" eq_refl eq_refl eq_refl eq_refl)
    as [start [end_ [H [Hs [He _]]]]].
  - intros [H _]. discriminate H.
  - exists start, end_. split; [exact H |]. split; [exact Hs | exact He].
Defined.

(** X15: for a valid [now], a text with "this year" or "current year" (no
    month phrase, no explicit range that parses) binds the date column to
    the half-open window from January 1 of [now]'s year to January 1 of the
    next, which contains [now]; in year 9999 the resolution raises
    [ValueError]. *)
Theorem this_year_window
    (w : World) (nl : string) (columns : list string) (date_override : option string)
    (f : string) :
  let now := now_with_tz w in
  Py.or_else date_override (detect_date_field columns) = Some f ->
  explicit_range nl f = None ->
  any_in MONTH_KEYWORDS (Py.lower nl) = false ->
  any_in YEAR_KEYWORDS (Py.lower nl) = true ->
  valid_datetime now = true ->
  (year now = 9999 ->
   parse_date_specifics w nl columns date_override = Raise ValueError) /\
  (year now <> 9999 ->
   let start := midnight_of (year now) 1 1 (tzinfo now) in
   let end_ := midnight_of (year now + 1) 1 1 (tzinfo now) in
   parse_date_specifics w nl columns date_override =
     Ok [(f, PDict [("$gte", PDatetime start); ("$lt", PDatetime end_)])] /\
   dt_leb start now = true /\ dt_ltb now end_ = true).
Proof.
  intros now Hf He Hkm Hk Hv.
  pose proof (valid_datetime_inv now Hv) as [[Hy [Hm Hd]] [Hh [Hmi [Hs Hus]]]].
  rewrite (parse_date_specifics_resolved w nl columns date_override Hf), He.
  fold now. unfold relative_range. cbv zeta. rewrite Hkm, Hk.
  assert (E1 : replace now None (Some 1) (Some 1) (Some 0) (Some 0) (Some 0) (Some 0) =
               Ok (midnight_of (year now) 1 1 (tzinfo now))).
  { unfold replace. cbn [or_default].
    rewrite (check_date_fields_intro (year now) 1 1 Hy)
      by (try lia; pose proof (days_in_month_pos (year now) 1); lia).
    reflexivity. }
  rewrite E1. cbn [bind]. unfold replace.
  cbn [or_default midnight_of year month day hour minute second microsecond tzinfo].
  split.
  - intros ->. reflexivity.
  - intros Hn. cbv zeta.
    rewrite (check_date_fields_intro (year now + 1) 1 1)
      by (try lia; pose proof (days_in_month_pos (year now + 1) 1); lia).
    cbn [andb check_time_fields bind]. split; [reflexivity |].
    split; order_by_fields.
Qed.

Lemma this_year_window_witness :
  parse_date_specifics world_2024_03_15 "cost this year" ["Ship Date"] None =
  Ok [("Ship Date", PDict [("$gte", PDatetime (mkdt 2024 1 1 0 0 0 0 KOLKATA));
                           ("$lt", PDatetime (mkdt 2025 1 1 0 0 0 0 KOLKATA))])].
Proof.
  refine (proj1 (proj2 (this_year_window world_2024_03_15 "cost this year" ["Ship Date"] None
                          "Ship Date" eq_refl eq_refl eq_refl eq_refl eq_refl) _)).
  discriminate.
Defined.

Lemma weekday_range (d : datetime) : 0 <= weekday d <= 6.
Proof.
  unfold weekday. pose proof (Z.mod_pos_bound (toordinal d + 6) 7 ltac:(lia)). lia.
Qed.

Lemma toordinal_midnight_of (y m d : Z) (tz : option string) :
  toordinal (midnight_of y m d tz) = ymd2ord y m d.
Proof.
  reflexivity.
Qed.

Lemma toordinal_valid (d : datetime) :
  valid_datetime d = true ->
  1 <= toordinal d <= MAXORDINAL /\
  (2 <= year d -> 366 <= toordinal d) /\
  (year d <= 9998 -> toordinal d <= MAXORDINAL - 364).
Proof.
  unfold valid_datetime. intros H. apply andb_true_iff in H. destruct H as [H _].
  apply ymd2ord_bounds, H.
Qed.

(** X16: for a valid [now] in the years 2 to 9998, a text with "this week" or
    "current week" (no month or year phrase, no explicit range that
    parses) binds the date column to the window from Monday 00:00 of
    [now]'s week to the Monday after: the start is a Monday, at most six
    days before [now]'s date, and the end is seven days later. *)
Theorem this_week_window
    (w : World) (nl : string) (columns : list string) (date_override : option string)
    (f : string) :
  let now := now_with_tz w in
  Py.or_else date_override (detect_date_field columns) = Some f ->
  explicit_range nl f = None ->
  any_in MONTH_KEYWORDS (Py.lower nl) = false ->
  any_in YEAR_KEYWORDS (Py.lower nl) = false ->
  any_in WEEK_KEYWORDS (Py.lower nl) = true ->
  valid_datetime now = true ->
  2 <= year now <= 9998 ->
  exists monday next_monday,
    parse_date_specifics w nl columns date_override =
      Ok [(f, PDict [("$gte", PDatetime monday); ("$lt", PDatetime next_monday)])] /\
    weekday monday = 0 /\
    toordinal monday <= toordinal now < toordinal monday + 7 /\
    toordinal next_monday = toordinal monday + 7 /\
    monday = midnight_of (year monday) (month monday) (day monday) (tzinfo now) /\
    next_monday =
      midnight_of (year next_monday) (month next_monday) (day next_monday) (tzinfo now).
Proof.
  intros now Hf He Hkm Hky Hk Hv Hy.
  pose proof (toordinal_valid now Hv) as [Ho [Ho2 Ho3]].
  pose proof (weekday_range now) as Hwd.
  rewrite (parse_date_specifics_resolved w nl columns date_override Hf), He.
  fold now. unfold relative_range. cbv zeta. rewrite Hkm, Hky, Hk.
  unfold timedelta_days at 1.
  replace (Z.abs (weekday now) <=? 999999999) with true by (symmetry; apply Z.leb_le; lia).
  cbn [bind]. unfold sub_days.
  destruct (add_days_in_range now (- weekday now)) as [d [Ed [Hod [Hvd [Hh [Hmi [Hs [Hus Htz]]]]]]]];
    [lia |].
  rewrite Ed. cbn [bind]. rewrite (midnight_valid d Hvd). cbn [bind].
  change (timedelta_days 7) with (Ok (A := Z) 7). cbn [bind].
  set (monday := midnight_of (year d) (month d) (day d) (tzinfo d)).
  assert (Hom : toordinal monday = toordinal now - weekday now) by exact Hod.
  destruct (add_days_in_range monday 7) as [nm [En [Hon [Hvn [Hh' [Hmi' [Hs' [Hus' Htz']]]]]]]];
    [lia |].
  rewrite En. cbn [bind]. exists monday, nm. split; [reflexivity |].
  split; [| split; [lia | split; [exact Hon | split]]].
  - unfold weekday at 1. rewrite Hom. unfold weekday.
    pose proof (Z.div_mod (toordinal now + 6) 7 ltac:(lia)) as Hdm.
    replace (toordinal now - (toordinal now + 6) mod 7 + 6)
      with (((toordinal now + 6) / 7) * 7) by lia.
    apply Z.mod_mul. lia.
  - unfold monday. rewrite Htz. reflexivity.
  - destruct nm as [y m dd h mi s us tz]. simpl in *. subst.
    unfold midnight_of. rewrite Htz. reflexivity.
Qed.

Lemma this_week_window_witness :
  exists monday next_monday,
    parse_date_specifics world_2024_03_15 "this week" ["Ship Date"] None =
      Ok [("Ship Date", PDict [("$gte", PDatetime monday); ("$lt", PDatetime next_monday)])] /\
    weekday monday = 0.
Proof.
  destruct (this_week_window world_2024_03_15 "this week" ["Ship Date"] None "Ship Date"
              eq_refl eq_refl eq_refl eq_refl eq_refl eq_refl)
    as [monday [nm [H [Hw _]]]].
  - simpl. lia.
  - exists monday, nm. split; [exact H | exact Hw].
Defined.

(** X17: for a valid [now], "last N days" (no month, year or week phrase, no
    explicit range that parses) with [N] below [now]'s ordinal binds the
    date column to the window from 00:00 of the day [N] days before
    [now]'s date up to [now]; a larger [N] raises [OverflowError]. *)
Theorem last_n_days_window
    (w : World) (nl : string) (columns : list string) (date_override : option string)
    (f : string) (m : Re.groups) (n : Z) :
  let now := now_with_tz w in
  Py.or_else date_override (detect_date_field columns) = Some f ->
  explicit_range nl f = None ->
  any_in MONTH_KEYWORDS (Py.lower nl) = false ->
  any_in YEAR_KEYWORDS (Py.lower nl) = false ->
  any_in WEEK_KEYWORDS (Py.lower nl) = false ->
  Re.search true LAST_N_DAYS_RE nl = Some m ->
  Py.int (Re.group 1 m) = Ok n ->
  valid_datetime now = true ->
  (toordinal now <= n ->
   parse_date_specifics w nl columns date_override = Raise OverflowError) /\
  (n < toordinal now ->
   exists start,
     parse_date_specifics w nl columns date_override =
       Ok [(f, PDict [("$gte", PDatetime start); ("$lt", PDatetime now)])] /\
     toordinal start = toordinal now - n /\
     start = midnight_of (year start) (month start) (day start) (tzinfo now)).
Proof.
  intros now Hf He Hkm Hky Hkw Hm Hn Hv.
  pose proof (toordinal_valid now Hv) as [Ho _].
  pose proof (int_nonneg _ _ Hn) as Hn0.
  rewrite (parse_date_specifics_resolved w nl columns date_override Hf), He.
  fold now. unfold relative_range. cbv zeta. rewrite Hkm, Hky, Hkw, Hm, Hn.
  cbn [bind]. unfold timedelta_days, sub_days. split.
  - intros Hbig. destruct (Z.abs n <=? 999999999); cbn [bind]; [| reflexivity].
    rewrite add_days_out_of_range by lia. reflexivity.
  - intros Hsmall. unfold MAXORDINAL in Ho.
    replace (Z.abs n <=? 999999999) with true by (symmetry; apply Z.leb_le; lia).
    cbn [bind].
    destruct (add_days_in_range now (- n)) as [d [Ed [Hod [Hvd [_ [_ [_ [_ Htz]]]]]]]];
      [unfold MAXORDINAL; lia |].
    rewrite Ed. cbn [bind]. rewrite (midnight_valid d Hvd). cbn [bind].
    eexists. split; [reflexivity |]. split.
    + rewrite toordinal_midnight_of. fold (toordinal d). lia.
    + rewrite Htz. reflexivity.
Qed.

Lemma last_n_days_window_witness :
  exists start,
    parse_date_specifics world_2024_03_15 "Last 30 Days" ["Ship Date"] None =
      Ok [("Ship Date", PDict [("$gte", PDatetime start);
                               ("$lt", PDatetime (mkdt 2024 3 15 10 0 0 0 KOLKATA))])] /\
    toordinal start = 738960 - 30.
Proof.
  destruct (proj2 (last_n_days_window world_2024_03_15 "Last 30 Days" ["Ship Date"] None
                     "Ship Date" [(1%nat, "30")] 30
                     eq_refl eq_refl eq_refl eq_refl eq_refl eq_refl eq_refl eq_refl))
    as [start [H [Ho _]]].
  - reflexivity.
  - exists start. split; [exact H | exact Ho].
Defined.

(** X18: [last_n_days_range] returns [now] as the end and, as the start, the
    datetime [n] days before it with the same time of day and zone: unlike
    the window of [parse_date_specifics], the start is not moved to
    midnight. It raises [OverflowError] when [n] exceeds 999999999 in
    magnitude or the start would leave the years 1 to 9999. *)
Theorem last_n_days_range_keeps_time_of_day (w : World) (n : Z) (now : datetime) :
  (Z.abs n <= 999999999 /\ 0 < toordinal now - n <= MAXORDINAL ->
   exists start,
     last_n_days_range w n (Some now) = Ok (start, now) /\
     toordinal start = toordinal now - n /\
     hour start = hour now /\ minute start = minute now /\ second start = second now /\
     microsecond start = microsecond now /\ tzinfo start = tzinfo now) /\
  (~ (Z.abs n <= 999999999 /\ 0 < toordinal now - n <= MAXORDINAL) ->
   last_n_days_range w n (Some now) = Raise OverflowError).
Proof.
  unfold last_n_days_range, timedelta_days, sub_days. cbn [now_or]. cbv zeta. split.
  - intros [Hn Ho].
    replace (Z.abs n <=? 999999999) with true by (symmetry; apply Z.leb_le; lia).
    cbn [bind].
    destruct (add_days_in_range now (- n)) as [d [Ed [Hod [_ [Hh [Hmi [Hs [Hus Htz]]]]]]]];
      [lia |].
    rewrite Ed. cbn [bind]. exists d. split; [reflexivity |].
    repeat split; first [assumption | lia].
  - intros H. destruct (Z.leb_spec (Z.abs n) 999999999); cbn [bind]; [| reflexivity].
    rewrite add_days_out_of_range by lia. reflexivity.
Qed.

(* ------------------------------------------------------------------ *)
(** ** Window boundaries *)

(** C9, as stated, fails: no [now] is passed to [parse_date_specifics]; it
    reads the clock on line 121. The same text, columns and override give
    the window that ends at 2024-03-15 10:00 on that day and the window
    that ends at 2024-04-15 10:00 a month later. *)
Lemma C9_windows_follow_the_clock :
  parse_date_specifics world_2024_03_15 "last 7 days" ["Ship Date"] None =
    Ok [("Ship Date", PDict [("$gte", PDatetime (mkdt 2024 3 8 0 0 0 0 KOLKATA));
                             ("$lt", PDatetime (mkdt 2024 3 15 10 0 0 0 KOLKATA))])] /\
  parse_date_specifics world_2024_04_15 "last 7 days" ["Ship Date"] None =
    Ok [("Ship Date", PDict [("$gte", PDatetime (mkdt 2024 4 8 0 0 0 0 KOLKATA));
                             ("$lt", PDatetime (mkdt 2024 4 15 10 0 0 0 KOLKATA))])] /\
  parse_date_specifics world_2024_03_15 "last 7 days" ["Ship Date"] None <>
  parse_date_specifics world_2024_04_15 "last 7 days" ["Ship Date"] None.
Proof.
  assert (H1 : parse_date_specifics world_2024_03_15 "last 7 days" ["Ship Date"] None =
    Ok [("Ship Date", PDict [("$gte", PDatetime (mkdt 2024 3 8 0 0 0 0 KOLKATA));
                             ("$lt", PDatetime (mkdt 2024 3 15 10 0 0 0 KOLKATA))])])
    by (vm_compute; reflexivity).
  assert (H2 : parse_date_specifics world_2024_04_15 "last 7 days" ["Ship Date"] None =
    Ok [("Ship Date", PDict [("$gte", PDatetime (mkdt 2024 4 8 0 0 0 0 KOLKATA));
                             ("$lt", PDatetime (mkdt 2024 4 15 10 0 0 0 KOLKATA))])])
    by (vm_compute; reflexivity).
  split; [exact H1 |]. split; [exact H2 |]. rewrite H1, H2. discriminate.
Qed.

(** C9, amended: the window boundaries are computed against the clock
    reading [now] that [parse_date_specifics] takes on line 121, as
    half-open intervals on the resolved date column. For every valid
    reading, "this month" gives the window from the first instant of
    [now]'s month up to, not including, the first instant of the month
    after (January of the next year after December), which contains
    [now]; and "last N days" gives the window from 00:00 of the day [N]
    days before [now]'s date up to, not including, [now]. At 2024-03-15
    10:00 in Asia/Kolkata these are 2024-03-01 00:00 to 2024-04-01 00:00
    and, for "last 7 days", 2024-03-08 00:00 to 2024-03-15 10:00. *)
Theorem C9_windows_are_half_open_at_the_clock_reading
    (w : World) (nl : string) (columns : list string) (date_override : option string)
    (f : string) :
  let now := now_with_tz w in
  Py.or_else date_override (detect_date_field columns) = Some f ->
  explicit_range nl f = None ->
  valid_datetime now = true ->
  (any_in MONTH_KEYWORDS (Py.lower nl) = true ->
   ~ (year now = 9999 /\ month now = 12) ->
   let start := midnight_of (year now) (month now) 1 (tzinfo now) in
   let end_ := if month now =? 12 then midnight_of (year now + 1) 1 1 (tzinfo now)
               else midnight_of (year now) (month now + 1) 1 (tzinfo now) in
   parse_date_specifics w nl columns date_override =
     Ok [(f, PDict [("$gte", PDatetime start); ("$lt", PDatetime end_)])] /\
   dt_leb start now = true /\ dt_ltb now end_ = true) /\
  (forall (m : Re.groups) (n : Z),
     any_in MONTH_KEYWORDS (Py.lower nl) = false ->
     any_in YEAR_KEYWORDS (Py.lower nl) = false ->
     any_in WEEK_KEYWORDS (Py.lower nl) = false ->
     Re.search true LAST_N_DAYS_RE nl = Some m ->
     Py.int (Re.group 1 m) = Ok n ->
     n < toordinal now ->
     let start := day_start (toordinal now - n) (tzinfo now) in
     parse_date_specifics w nl columns date_override =
       Ok [(f, PDict [("$gte", PDatetime start); ("$lt", PDatetime now)])] /\
     toordinal start = toordinal now - n /\
     toordinal start <= toordinal now).
Proof.
  intros now Hf He Hv.
  pose proof (valid_datetime_inv now Hv) as [[Hy [Hm Hd]] [Hh [Hmi [Hs Hus]]]].
  rewrite (parse_date_specifics_resolved w nl columns date_override Hf), He.
  fold now. unfold relative_range. cbv zeta. split.
  - intros Hk Hn. rewrite Hk.
    rewrite (first_of_month now Hv). cbn [bind].
    rewrite (first_of_next_month (year now) (month now) (tzinfo now) Hy Hm).
    replace ((year now =? 9999) && (month now =? 12)) with false.
    2:{ symmetry. apply andb_false_iff.
        destruct (Z.eqb_spec (year now) 9999); [| left; reflexivity].
        right. apply Z.eqb_neq. tauto. }
    cbn [bind]. split; [reflexivity |]. split.
    + order_by_fields.
    + destruct (Z.eqb_spec (month now) 12); order_by_fields.
  - intros m n Hkm Hky Hkw Hs' Hn Hsmall.
    pose proof (toordinal_valid now Hv) as [Ho _].
    pose proof (int_nonneg _ _ Hn) as Hn0.
    rewrite Hkm, Hky, Hkw, Hs', Hn. cbn [bind]. unfold timedelta_days, sub_days.
    unfold MAXORDINAL in Ho.
    replace (Z.abs n <=? 999999999) with true by (symmetry; apply Z.leb_le; lia).
    cbn [bind]. unfold add_days, day_start. cbv zeta.
    replace (toordinal now + - n) with (toordinal now - n) by lia.
    replace ((0 <? toordinal now - n) && (toordinal now - n <=? MAXORDINAL)) with true
      by (symmetry; apply andb_true_iff; unfold MAXORDINAL;
          split; [apply Z.ltb_lt | apply Z.leb_le]; lia).
    destruct (ord2ymd_valid (toordinal now - n)) as [y [mo [dd [E [Hvd Hod]]]]];
      [unfold MAXORDINAL; lia |].
    rewrite E. cbn [bind].
    rewrite (midnight_valid (mkdt y mo dd (hour now) (minute now) (second now)
                               (microsecond now) (tzinfo now)) Hvd).
    cbn [bind year month day tzinfo].
    split; [reflexivity |].
    rewrite toordinal_midnight_of. rewrite Hod. split; lia.
Qed.

Lemma C9_windows_are_half_open_at_the_clock_reading_witness :
  parse_date_specifics world_2024_03_15 "this month" ["Ref #"; "Ship Date"] None =
    Ok [("Ship Date", PDict [("$gte", PDatetime (mkdt 2024 3 1 0 0 0 0 KOLKATA));
                             ("$lt", PDatetime (mkdt 2024 4 1 0 0 0 0 KOLKATA))])] /\
  parse_date_specifics world_2024_03_15 "last 7 days" ["Ref #"; "Ship Date"] None =
    Ok [("Ship Date", PDict [("$gte", PDatetime (mkdt 2024 3 8 0 0 0 0 KOLKATA));
                             ("$lt", PDatetime (mkdt 2024 3 15 10 0 0 0 KOLKATA))])].
Proof.
  split.
  - destruct (C9_windows_are_half_open_at_the_clock_reading world_2024_03_15 "this month"
                ["Ref #"; "Ship Date"] None "Ship Date" eq_refl eq_refl eq_refl) as [H _].
    destruct H as [H _]; [reflexivity | intros [H _]; discriminate H |]. exact H.
  - destruct (C9_windows_are_half_open_at_the_clock_reading world_2024_03_15 "last 7 days"
                ["Ref #"; "Ship Date"] None "Ship Date" eq_refl eq_refl eq_refl) as [_ H].
    destruct (H [(1%nat, "7")] 7 eq_refl eq_refl eq_refl eq_refl eq_refl eq_refl) as [H1 _].
    exact H1.
Defined.

(* ------------------------------------------------------------------ *)
(** ** The matcher and what a pattern matches *)

Lemma append_assoc (a b c : string) : (a ++ b) ++ c = a ++ (b ++ c).
Proof.
  induction a as [| x a IH]; simpl; [reflexivity | rewrite IH; reflexivity].
Qed.

Lemma append_empty_r (a : string) : a ++ EmptyString = a.
Proof.
  induction a as [| x a IH]; simpl; [reflexivity | rewrite IH; reflexivity].
Qed.

Lemma length_append (a b : string) :
  String.length (a ++ b) = (String.length a + String.length b)%nat.
Proof.
  induction a as [| x a IH]; simpl; [reflexivity | rewrite IH; reflexivity].
Qed.

Lemma last_char_append (prev : option ascii) (a b : string) :
  last_char prev (a ++ b) = last_char (last_char prev a) b.
Proof.
  revert prev. induction a as [| x a IH]; simpl; intros prev; [reflexivity | apply IH].
Qed.

Lemma take_append (a b : string) : Re.take (String.length a) (a ++ b) = a.
Proof.
  induction a as [| x a IH]; simpl.
  - destruct b; reflexivity.
  - rewrite IH. reflexivity.
Qed.

Lemma consumed_append (a b : string) : Re.consumed (a ++ b) b = a.
Proof.
  unfold Re.consumed. rewrite length_append.
  replace (String.length a + String.length b - String.length b)%nat
    with (String.length a) by lia.
  apply take_append.
Qed.

Lemma within_pred (hi : option nat) (n : nat) :
  within hi (S n) <-> Re.hi_allows hi = true /\ within (Re.hi_pred hi) n.
Proof.
  destruct hi as [[| h] |]; simpl; split; try tauto; try lia.
Qed.

(** The repetition of an atom fails exactly when the continuation fails
    after every admissible run of characters. *)
Lemma rep_None_iff (A : Type) (ic : bool) (a : Re.atom) (greedy : bool)
    (g : Re.groups) (k : Re.cont A) (s : string) :
  forall (lo : nat) (hi : option nat) (prev : option ascii),
  Re.rep ic a lo hi greedy prev s g k = None <->
  forall cs rest,
    s = cs ++ rest ->
    all_chars (Re.atom_has ic a) cs = true ->
    (lo <= String.length cs)%nat ->
    within hi (String.length cs) ->
    k (last_char prev cs) rest g = None.
Proof.
  induction s as [| c t IH]; intros lo hi prev.
  - (* nothing left to read *)
    destruct lo as [| lo']; cbn [Re.rep].
    + assert (E : (if greedy
                   then match @None A with Some r => Some r | None => k prev EmptyString g end
                   else match k prev EmptyString g with Some r => Some r | None => None end)
                  = None <-> k prev EmptyString g = None).
      { destruct greedy; destruct (k prev EmptyString g); split; congruence. }
      rewrite E. split.
      * intros H cs rest Hs _ _ _. destruct cs; [| discriminate].
        simpl in Hs. subst rest. exact H.
      * intros H. apply (H EmptyString EmptyString); simpl; auto. destruct hi; simpl; auto; lia.
    + split; [| reflexivity]. intros _ cs rest Hs _ Hl _.
      destruct cs; [simpl in Hl; lia | discriminate].
  - (* a character [c] to read *)
    assert (Hstep : forall lo',
               (if Re.atom_has ic a c && Re.hi_allows hi
                then Re.rep ic a lo' (Re.hi_pred hi) greedy (Some c) t g k else None) = None <->
               forall cs' rest,
                 t = cs' ++ rest ->
                 all_chars (Re.atom_has ic a) (String c cs') = true ->
                 (lo' <= String.length cs')%nat ->
                 within hi (S (String.length cs')) ->
                 k (last_char (Some c) cs') rest g = None).
    { intros lo'. destruct (Re.atom_has ic a c) eqn:Ea; cbn [andb].
      - destruct (Re.hi_allows hi) eqn:Eh.
        + rewrite IH. split.
          * intros H cs' rest Hs Hall Hl Hw. apply H; try assumption.
            -- simpl in Hall. rewrite Ea in Hall. exact Hall.
            -- apply within_pred in Hw. apply Hw.
          * intros H cs' rest Hs Hall Hl Hw. apply H; try assumption.
            -- simpl. rewrite Ea. exact Hall.
            -- apply within_pred. split; assumption.
        + split; [| reflexivity]. intros _ cs' rest _ _ _ Hw.
          apply within_pred in Hw. destruct Hw as [Hw _]. congruence.
      - split; [| reflexivity]. intros _ cs' rest _ Hall _ _.
        simpl in Hall. rewrite Ea in Hall. discriminate. }
    destruct lo as [| lo']; cbn [Re.rep].
    + assert (E : forall x : option A,
                 (if greedy
                  then match x with Some r => Some r | None => k prev (String c t) g end
                  else match k prev (String c t) g with Some r => Some r | None => x end)
                 = None <-> x = None /\ k prev (String c t) g = None).
      { intros x. destruct greedy; destruct x; destruct (k prev (String c t) g);
          split; try congruence; try tauto; intros [? ?]; congruence. }
      rewrite E, (Hstep O). split.
      * intros [H1 H2] cs rest Hs Hall Hl Hw. destruct cs as [| c' cs'].
        -- simpl in Hs. subst rest. exact H2.
        -- simpl in Hs. injection Hs as <- Ht. apply (H1 cs' rest); try assumption. lia.
      * intros H. split.
        -- intros cs' rest Ht Hall _ Hw.
           apply (H (String c cs') rest); try assumption; [simpl; congruence | lia].
        -- apply (H EmptyString (String c t)); simpl; auto. destruct hi; simpl; auto; lia.
    + rewrite (Hstep lo'). split.
      * intros H cs rest Hs Hall Hl Hw. destruct cs as [| c' cs']; [simpl in Hl; lia |].
        simpl in Hs. injection Hs as <- Ht. apply (H cs' rest); try assumption.
        simpl in Hl. lia.
      * intros H cs' rest Ht Hall Hl Hw.
        apply (H (String c cs') rest); try assumption; [simpl; congruence | simpl; lia].
Qed.

Lemma option_first_None (A : Type) (x y : option A) :
  match x with Some r => Some r | None => y end = None <-> x = None /\ y = None.
Proof.
  destruct x; split; try congruence; try tauto.
Qed.

(** The matcher fails exactly when the continuation fails after every
    match of the pattern at the position. *)
Lemma run_None_iff (A : Type) (ic : bool) (r : Re.regex) :
  forall (prev : option ascii) (s : string) (g : Re.groups) (k : Re.cont A),
  Re.run ic r prev s g k = None <->
  forall cs rest g',
    s = cs ++ rest ->
    Matches ic r prev cs rest g g' ->
    k (last_char prev cs) rest g' = None.
Proof.
  induction r as [| a | r1 IH1 r2 IH2 | r1 IH1 r2 IH2 | a lo hi greedy | r1 IH1 | i r1 IH1 | |];
    intros prev s g k; cbn [Re.run].
  - (* Eps *)
    split.
    + intros H cs rest g' Hs M. inversion M; subst. exact H.
    + intros H. apply (H EmptyString s g eq_refl). constructor.
  - (* One *)
    destruct s as [| c t].
    + split; [| reflexivity]. intros _ cs rest g' Hs M. inversion M; subst. discriminate.
    + destruct (Re.atom_has ic a c) eqn:Ea.
      * split.
        -- intros H cs rest g' Hs M. inversion M; subst.
           simpl in Hs. injection Hs as <- <-. exact H.
        -- intros H. apply (H (String c EmptyString) t g eq_refl). constructor. exact Ea.
      * split; [| reflexivity]. intros _ cs rest g' Hs M. inversion M; subst.
        simpl in Hs. injection Hs as <- <-. congruence.
  - (* Cat *)
    rewrite IH1. split.
    + intros H cs rest g' Hs M. inversion M; subst.
      rewrite last_char_append.
      specialize (H cs1 (cs2 ++ rest) g1).
      rewrite IH2 in H. apply H; [apply append_assoc | assumption | reflexivity | assumption].
    + intros H cs1 rest1 g1 Hs M1. rewrite IH2. intros cs2 rest g2 Hr M2.
      rewrite <- last_char_append. apply H.
      * rewrite Hs, Hr. symmetry. apply append_assoc.
      * subst rest1. econstructor; eassumption.
  - (* Alt *)
    rewrite option_first_None, IH1, IH2. split.
    + intros [H1 H2] cs rest g' Hs M. inversion M; subst; [apply H1 | apply H2]; auto.
    + intros H. split; intros cs rest g' Hs M; apply H; auto.
      * apply M_AltL. exact M.
      * apply M_AltR. exact M.
  - (* Rep *)
    rewrite rep_None_iff. split.
    + intros H cs rest g' Hs M. inversion M; subst. apply H; auto.
    + intros H cs rest Hs Hall Hl Hw. apply H; [exact Hs |]. constructor; assumption.
  - (* Opt *)
    rewrite option_first_None, IH1. split.
    + intros [H1 H2] cs rest g' Hs M. inversion M; subst; [apply H1; auto | exact H2].
    + intros H. split.
      * intros cs rest g' Hs M. apply H; [exact Hs |]. apply M_OptSome. exact M.
      * apply (H EmptyString s g eq_refl). apply M_OptNone.
  - (* Grp *)
    rewrite IH1. split.
    + intros H cs rest g' Hs M. inversion M; subst.
      specialize (H cs rest g'0 eq_refl ltac:(assumption)).
      rewrite consumed_append in H. exact H.
    + intros H cs rest g1 Hs M1. subst s. rewrite consumed_append.
      apply H; [reflexivity |]. constructor. exact M1.
  - (* WordB *)
    destruct (xorb (Re.word_before prev) (Re.word_after s)) eqn:Ex.
    + split.
      * intros H cs rest g' Hs M. inversion M; subst. exact H.
      * intros H. apply (H EmptyString s g eq_refl). constructor. exact Ex.
    + split; [| reflexivity]. intros _ cs rest g' Hs M. inversion M; subst.
      simpl in *. congruence.
  - (* Eos *)
    assert (E : forall x : option A,
               match s with
               | EmptyString => x
               | String c EmptyString => if (Py.code c =? 10)%N then x else None
               | String _ (String _ _) => None
               end = None <->
               (s = EmptyString \/ s = String (ascii_of_N 10) EmptyString -> x = None)).
    { intros x. destruct s as [| c [| c' t]].
      - split; [intros H _; exact H | intros H; apply H; left; reflexivity].
      - destruct (N.eqb_spec (Py.code c) 10) as [Ec | Ec].
        + assert (c = ascii_of_N 10)
            by (rewrite <- Ec; unfold Py.code; symmetry; apply ascii_N_embedding).
          subst c. split; [intros H _; exact H | intros H; apply H; right; reflexivity].
        + split; [| reflexivity]. intros _ [H | H]; [discriminate |].
          injection H as ->. exfalso. apply Ec. reflexivity.
      - split; [| reflexivity]. intros _ [H | H]; discriminate. }
    rewrite E. split.
    + intros H cs rest g' Hs M. inversion M; subst. apply H. assumption.
    + intros H Hs. apply (H EmptyString s g eq_refl). constructor. exact Hs.
Qed.

Lemma option_first_Some (A : Type) (x y : option A) (v : A) :
  match x with Some r => Some r | None => y end = Some v -> x = Some v \/ y = Some v.
Proof.
  destruct x; intros H; [left | right]; exact H.
Qed.

(** A result of the repetition is a result of the continuation after some
    admissible run of characters. *)
Lemma rep_Some_inv (A : Type) (ic : bool) (a : Re.atom) (greedy : bool)
    (g : Re.groups) (k : Re.cont A) (x : A) (s : string) :
  forall (lo : nat) (hi : option nat) (prev : option ascii),
  Re.rep ic a lo hi greedy prev s g k = Some x ->
  exists cs rest,
    s = cs ++ rest /\
    all_chars (Re.atom_has ic a) cs = true /\
    (lo <= String.length cs)%nat /\
    within hi (String.length cs) /\
    k (last_char prev cs) rest g = Some x.
Proof.
  assert (Hnil : forall hi prev s0, k prev s0 g = Some x ->
            exists cs rest,
              s0 = cs ++ rest /\ all_chars (Re.atom_has ic a) cs = true /\
              (0 <= String.length cs)%nat /\ within hi (String.length cs) /\
              k (last_char prev cs) rest g = Some x).
  { intros hi prev s0 H. exists EmptyString, s0. repeat split; auto.
    destruct hi; simpl; auto; lia. }
  induction s as [| c t IH]; intros lo hi prev.
  - destruct lo as [| lo']; cbn [Re.rep]; [| discriminate].
    intros H. apply Hnil. destruct greedy; [exact H |].
    destruct (k prev EmptyString g); [exact H | discriminate].
  - assert (Hstep : forall lo',
               (if Re.atom_has ic a c && Re.hi_allows hi
                then Re.rep ic a lo' (Re.hi_pred hi) greedy (Some c) t g k else None) = Some x ->
               exists cs rest,
                 String c t = cs ++ rest /\
                 all_chars (Re.atom_has ic a) cs = true /\
                 (S lo' <= String.length cs)%nat /\
                 within hi (String.length cs) /\
                 k (last_char prev cs) rest g = Some x).
    { intros lo'. destruct (Re.atom_has ic a c) eqn:Ea; cbn [andb]; [| discriminate].
      destruct (Re.hi_allows hi) eqn:Eh; [| discriminate].
      intros H. destruct (IH _ _ _ H) as [cs' [rest [Hs [Hall [Hl [Hw Hk]]]]]].
      exists (String c cs'), rest. simpl. rewrite Ea, Hs.
      repeat split; auto; [lia |]. apply within_pred. split; assumption. }
    destruct lo as [| lo']; cbn [Re.rep].
    + intros H.
      assert (D : (if Re.atom_has ic a c && Re.hi_allows hi
                   then Re.rep ic a 0 (Re.hi_pred hi) greedy (Some c) t g k else None) = Some x
                  \/ k prev (String c t) g = Some x).
      { destruct greedy; apply option_first_Some in H; tauto. }
      destruct D as [D | D].
      * destruct (Hstep O D) as [cs [rest [Hs [Hall [Hl [Hw Hk]]]]]].
        exists cs, rest. repeat split; auto. lia.
      * apply Hnil. exact D.
    + apply Hstep.
Qed.

(** A result of the matcher is a result of the continuation after some
    match of the pattern at the position. *)
Lemma run_Some_inv (A : Type) (ic : bool) (r : Re.regex) (x : A) :
  forall (prev : option ascii) (s : string) (g : Re.groups) (k : Re.cont A),
  Re.run ic r prev s g k = Some x ->
  exists cs rest g',
    s = cs ++ rest /\
    Matches ic r prev cs rest g g' /\
    k (last_char prev cs) rest g' = Some x.
Proof.
  induction r as [| a | r1 IH1 r2 IH2 | r1 IH1 r2 IH2 | a lo hi greedy | r1 IH1 | i r1 IH1 | |];
    intros prev s g k; cbn [Re.run]; intros H.
  - exists EmptyString, s, g. repeat split; [constructor | exact H].
  - destruct s as [| c t]; [discriminate |].
    destruct (Re.atom_has ic a c) eqn:Ea; [| discriminate].
    exists (String c EmptyString), t, g. repeat split; [constructor; exact Ea | exact H].
  - destruct (IH1 _ _ _ _ H) as [cs1 [rest1 [g1 [Hs [M1 H1]]]]].
    destruct (IH2 _ _ _ _ H1) as [cs2 [rest [g2 [Hr [M2 H2]]]]].
    exists (cs1 ++ cs2), rest, g2. subst rest1. split; [| split].
    + rewrite Hs. symmetry. apply append_assoc.
    + econstructor; eassumption.
    + rewrite last_char_append. exact H2.
  - apply option_first_Some in H. destruct H as [H | H].
    + destruct (IH1 _ _ _ _ H) as [cs [rest [g' [Hs [M Hk]]]]].
      exists cs, rest, g'. repeat split; auto. apply M_AltL. exact M.
    + destruct (IH2 _ _ _ _ H) as [cs [rest [g' [Hs [M Hk]]]]].
      exists cs, rest, g'. repeat split; auto. apply M_AltR. exact M.
  - destruct (rep_Some_inv _ _ _ _ _ _ _ _ _ _ _ H) as [cs [rest [Hs [Hall [Hl [Hw Hk]]]]]].
    exists cs, rest, g. repeat split; auto. constructor; assumption.
  - apply option_first_Some in H. destruct H as [H | H].
    + destruct (IH1 _ _ _ _ H) as [cs [rest [g' [Hs [M Hk]]]]].
      exists cs, rest, g'. repeat split; auto. apply M_OptSome. exact M.
    + exists EmptyString, s, g. repeat split; [apply M_OptNone | exact H].
  - destruct (IH1 _ _ _ _ H) as [cs [rest [g' [Hs [M Hk]]]]].
    exists cs, rest, ((i, cs) :: g'). subst s. rewrite consumed_append in Hk.
    repeat split; [constructor; exact M | exact Hk].
  - destruct (xorb (Re.word_before prev) (Re.word_after s)) eqn:Ex; [| discriminate].
    exists EmptyString, s, g. repeat split; [constructor; exact Ex | exact H].
  - exists EmptyString, s, g. split; [reflexivity |].
    destruct s as [| c [| c' t]]; try discriminate.
    + split; [constructor; left; reflexivity | exact H].
    + destruct (N.eqb_spec (Py.code c) 10) as [Ec | Ec]; [| discriminate].
      assert (c = ascii_of_N 10)
        by (rewrite <- Ec; unfold Py.code; symmetry; apply ascii_N_embedding).
      subst c. split; [constructor; right; reflexivity | exact H].
Qed.

Lemma match_at_None_iff (ic : bool) (r : Re.regex) (prev : option ascii) (s : string) :
  Re.match_at ic r prev s = None <->
  forall cs rest g', s = cs ++ rest -> ~ Matches ic r prev cs rest [] g'.
Proof.
  unfold Re.match_at. rewrite run_None_iff. split.
  - intros H cs rest g' Hs M. specialize (H cs rest g' Hs M). discriminate H.
  - intros H cs rest g' Hs M. destruct (H cs rest g' Hs M).
Qed.

Lemma search_from_None_iff (ic : bool) (r : Re.regex) (s : string) :
  forall prev : option ascii,
  Re.search_from ic r prev s = None <->
  forall pre cs rest g',
    s = pre ++ cs ++ rest -> ~ Matches ic r (last_char prev pre) cs rest [] g'.
Proof.
  induction s as [| c t IH]; intros prev; cbn [Re.search_from].
  - destruct (Re.match_at ic r prev EmptyString) as [[g s'] |] eqn:E.
    + split; [discriminate |]. intros H. exfalso.
      assert (N : Re.match_at ic r prev EmptyString = None); [| congruence].
      apply match_at_None_iff. intros cs rest g' Hs. apply (H EmptyString cs rest g' Hs).
    + split; [| reflexivity]. intros _ pre cs rest g' Hs.
      destruct pre; [| discriminate]. simpl in *.
      apply (proj1 (match_at_None_iff ic r prev EmptyString) E cs rest g' Hs).
  - destruct (Re.match_at ic r prev (String c t)) as [[g s'] |] eqn:E.
    + split; [discriminate |]. intros H. exfalso.
      assert (N : Re.match_at ic r prev (String c t) = None); [| congruence].
      apply match_at_None_iff. intros cs rest g' Hs. apply (H EmptyString cs rest g' Hs).
    + rewrite IH. split.
      * intros H pre cs rest g' Hs. destruct pre as [| x pre].
        -- simpl in *. apply (proj1 (match_at_None_iff ic r prev _) E cs rest g' Hs).
        -- simpl in Hs. injection Hs as <- Hs. simpl. apply H. exact Hs.
      * intros H pre cs rest g' Hs. apply (H (String c pre) cs rest g'). simpl. congruence.
Qed.

Lemma match_at_Some_inv (ic : bool) (r : Re.regex) (prev : option ascii) (s rest : string)
    (g : Re.groups) :
  Re.match_at ic r prev s = Some (g, rest) ->
  exists cs, s = cs ++ rest /\ Matches ic r prev cs rest [] g.
Proof.
  unfold Re.match_at. intros H.
  destruct (run_Some_inv _ _ _ _ _ _ _ _ H) as [cs [rest' [g' [Hs [M Hk]]]]].
  injection Hk as -> ->. exists cs. split; assumption.
Qed.

Lemma search_from_Some_inv (ic : bool) (r : Re.regex) (g : Re.groups) (s : string) :
  forall prev : option ascii,
  Re.search_from ic r prev s = Some g ->
  exists pre cs rest,
    s = pre ++ cs ++ rest /\ Matches ic r (last_char prev pre) cs rest [] g.
Proof.
  assert (Hhere : forall prev s0 g0 rest,
            Re.match_at ic r prev s0 = Some (g0, rest) ->
            exists pre cs rest,
              s0 = pre ++ cs ++ rest /\ Matches ic r (last_char prev pre) cs rest [] g0).
  { intros prev s0 g0 rest E. destruct (match_at_Some_inv _ _ _ _ _ _ E) as [cs [Hs M]].
    exists EmptyString, cs, rest. split; assumption. }
  induction s as [| c t IH]; intros prev; cbn [Re.search_from].
  - destruct (Re.match_at ic r prev EmptyString) as [[g0 rest] |] eqn:E; [| discriminate].
    intros [= <-]. eapply Hhere, E.
  - destruct (Re.match_at ic r prev (String c t)) as [[g0 rest] |] eqn:E.
    + intros [= <-]. eapply Hhere, E.
    + intros H. destruct (IH _ H) as [pre [cs [rest [Hs M]]]].
      exists (String c pre), cs, rest. simpl. split; [congruence | exact M].
Qed.

(** [re.search] finds a match exactly when the pattern occurs in the text. *)
Lemma found_search_iff_occurs (ic : bool) (r : Re.regex) (s : string) :
  Re.found (Re.search ic r s) = true <-> occurs ic r s.
Proof.
  unfold Re.search, occurs. split.
  - destruct (Re.search_from ic r None s) as [g |] eqn:E; [| discriminate].
    intros _. destruct (search_from_Some_inv _ _ _ _ _ E) as [pre [cs [rest [Hs M]]]].
    exists pre, cs, rest, g. split; assumption.
  - intros [pre [cs [rest [g' [Hs M]]]]].
    destruct (Re.search_from ic r None s) as [g |] eqn:E; [reflexivity |].
    exfalso. exact (proj1 (search_from_None_iff ic r s None) E pre cs rest g' Hs M).
Qed.

Lemma search_None_iff_not_occurs (ic : bool) (r : Re.regex) (s : string) :
  Re.search ic r s = None <-> ~ occurs ic r s.
Proof.
  rewrite <- found_search_iff_occurs. destruct (Re.search ic r s); simpl; split;
    congruence.
Qed.

Lemma finditer_from_None (ic : bool) (r : Re.regex) (s : string) :
  forall prev : option ascii,
  Re.search_from ic r prev s = None -> Re.finditer_from ic r prev s 0 = [].
Proof.
  induction s as [| c t IH]; intros prev; cbn [Re.search_from Re.finditer_from].
  - destruct (Re.match_at ic r prev EmptyString) as [[g0 rest] |]; [discriminate | reflexivity].
  - destruct (Re.match_at ic r prev (String c t)) as [[g0 rest] |]; [discriminate |].
    apply IH.
Qed.

Lemma finditer_not_occurs (ic : bool) (r : Re.regex) (s : string) :
  ~ occurs ic r s -> Re.finditer ic r s = [].
Proof.
  intros H. apply finditer_from_None. apply search_None_iff_not_occurs. exact H.
Qed.

(** *** Inversion of matches *)

Lemma Matches_Cat_inv (ic : bool) (r1 r2 : Re.regex) (prev : option ascii)
    (cs rest : string) (g g2 : Re.groups) :
  Matches ic (Re.Cat r1 r2) prev cs rest g g2 ->
  exists cs1 cs2 g1,
    cs = cs1 ++ cs2 /\
    Matches ic r1 prev cs1 (cs2 ++ rest) g g1 /\
    Matches ic r2 (last_char prev cs1) cs2 rest g1 g2.
Proof.
  intros M. inversion M; subst. do 3 eexists. split; [reflexivity |]. split; eassumption.
Qed.

Lemma Matches_Alt_inv (ic : bool) (r1 r2 : Re.regex) (prev : option ascii)
    (cs rest : string) (g g' : Re.groups) :
  Matches ic (Re.Alt r1 r2) prev cs rest g g' ->
  Matches ic r1 prev cs rest g g' \/ Matches ic r2 prev cs rest g g'.
Proof.
  intros M. inversion M; subst; [left | right]; assumption.
Qed.

Lemma Matches_Grp_inv (ic : bool) (i : nat) (r : Re.regex) (prev : option ascii)
    (cs rest : string) (g g' : Re.groups) :
  Matches ic (Re.Grp i r) prev cs rest g g' ->
  exists g1, g' = (i, cs) :: g1 /\ Matches ic r prev cs rest g g1.
Proof.
  intros M. inversion M; subst. eexists. split; [reflexivity | eassumption].
Qed.

Lemma Matches_Rep_inv (ic : bool) (a : Re.atom) (lo : nat) (hi : option nat) (greedy : bool)
    (prev : option ascii) (cs rest : string) (g g' : Re.groups) :
  Matches ic (Re.Rep a lo hi greedy) prev cs rest g g' ->
  g' = g /\ all_chars (Re.atom_has ic a) cs = true /\
  (lo <= String.length cs)%nat /\ within hi (String.length cs).
Proof.
  intros M. inversion M; subst. auto.
Qed.

Lemma Matches_One_inv (ic : bool) (a : Re.atom) (prev : option ascii)
    (cs rest : string) (g g' : Re.groups) :
  Matches ic (Re.One a) prev cs rest g g' ->
  exists c, cs = String c EmptyString /\ g' = g /\ Re.atom_has ic a c = true.
Proof.
  intros M. inversion M; subst. eexists. auto.
Qed.

Lemma Matches_WordB_inv (ic : bool) (prev : option ascii)
    (cs rest : string) (g g' : Re.groups) :
  Matches ic Re.WordB prev cs rest g g' ->
  cs = EmptyString /\ g' = g /\ xorb (Re.word_before prev) (Re.word_after rest) = true.
Proof.
  intros M. inversion M; subst. auto.
Qed.

(** A literal, matched with case kept, matches itself and nothing else. *)
Lemma Matches_lit_iff (w : string) :
  forall (prev : option ascii) (cs rest : string) (g g' : Re.groups),
  Matches false (Re.lit w) prev cs rest g g' <-> cs = w /\ g' = g.
Proof.
  induction w as [| c t IH]; intros prev cs rest g g'.
  - simpl. split.
    + intros M. inversion M; subst. auto.
    + intros [-> ->]. constructor.
  - assert (H1 : Matches false (Re.One (Re.Chr c)) prev cs rest g g' <->
                 cs = String c EmptyString /\ g' = g).
    { split.
      - intros M. apply Matches_One_inv in M. destruct M as [x [-> [-> Hx]]].
        simpl in Hx. apply Ascii.eqb_eq in Hx. subst x. auto.
      - intros [-> ->]. constructor. simpl. apply Ascii.eqb_refl. }
    destruct t as [| c' t'].
    + exact H1.
    + change (Re.lit (String c (String c' t')))
        with (Re.Cat (Re.One (Re.Chr c)) (Re.lit (String c' t'))).
      split.
      * intros M. apply Matches_Cat_inv in M.
        destruct M as [cs1 [cs2 [g1 [-> [M1 M2]]]]].
        apply Matches_One_inv in M1. destruct M1 as [x [-> [-> Hx]]].
        simpl in Hx. apply Ascii.eqb_eq in Hx. subst x.
        apply IH in M2. destruct M2 as [-> ->]. auto.
      * intros [-> ->].
        change (String c (String c' t')) with (String c EmptyString ++ String c' t').
        econstructor.
        -- constructor. simpl. apply Ascii.eqb_refl.
        -- apply IH. auto.
Qed.

Lemma Matches_any_groups (ic : bool) (r : Re.regex) (prev : option ascii)
    (cs rest : string) (g g' : Re.groups) :
  Matches ic r prev cs rest g g' ->
  forall h, exists h', Matches ic r prev cs rest h h'.
Proof.
  induction 1 as [prev rest g | a c prev rest g Ha
                 | r1 r2 prev cs1 cs2 rest g g1 g2 M1 IH1 M2 IH2
                 | r1 r2 prev cs rest g g' M IH | r1 r2 prev cs rest g g' M IH
                 | a lo hi greedy prev cs rest g Hall Hl Hw
                 | r prev cs rest g g' M IH | r prev rest g
                 | i r prev cs rest g g' M IH | prev rest g Hx | prev rest g He];
    intros h.
  - eexists. constructor.
  - eexists. constructor. exact Ha.
  - destruct (IH1 h) as [h1 N1]. destruct (IH2 h1) as [h2 N2].
    eexists. econstructor; eassumption.
  - destruct (IH h) as [h' N]. eexists. apply M_AltL. exact N.
  - destruct (IH h) as [h' N]. eexists. apply M_AltR. exact N.
  - eexists. constructor; assumption.
  - destruct (IH h) as [h' N]. eexists. apply M_OptSome. exact N.
  - eexists. apply M_OptNone.
  - destruct (IH h) as [h' N]. eexists. constructor. exact N.
  - eexists. constructor. exact Hx.
  - eexists. constructor. exact He.
Qed.

Lemma Matches_Cat_empty_r (ic : bool) (r1 r2 : Re.regex) (prev : option ascii)
    (cs rest : string) (g g1 g2 : Re.groups) :
  Matches ic r1 prev cs rest g g1 ->
  Matches ic r2 (last_char prev cs) EmptyString rest g1 g2 ->
  Matches ic (Re.Cat r1 r2) prev cs rest g g2.
Proof.
  intros M1 M2. rewrite <- (append_empty_r cs) at 1.
  econstructor; [exact M1 | exact M2].
Qed.

Lemma occurs_Alt (ic : bool) (r1 r2 : Re.regex) (s : string) :
  occurs ic (Re.Alt r1 r2) s <-> occurs ic r1 s \/ occurs ic r2 s.
Proof.
  unfold occurs. split.
  - intros [pre [cs [rest [g' [Hs M]]]]]. apply Matches_Alt_inv in M.
    destruct M as [M | M]; [left | right]; exists pre, cs, rest, g'; auto.
  - intros [[pre [cs [rest [g' [Hs M]]]]] | [pre [cs [rest [g' [Hs M]]]]]];
      exists pre, cs, rest, g'; split; auto; [apply M_AltL | apply M_AltR]; exact M.
Qed.

(** A pattern between two [\b] occurs exactly when one of the strings it
    matches stands as a whole word. *)
Lemma occurs_between_boundaries (r : Re.regex) (P : string -> Prop) :
  (forall prev cs rest g, (exists g', Matches false r prev cs rest g g') <-> P cs) ->
  forall s,
    occurs false (Re.Cat Re.WordB (Re.Cat r Re.WordB)) s <->
    exists w, P w /\ whole_word w s.
Proof.
  intros HP s. unfold occurs, whole_word. split.
  - intros [pre [cs [rest [g' [Hs M]]]]].
    apply Matches_Cat_inv in M. destruct M as [cs1 [cs2 [g1 [-> [M1 M2]]]]].
    apply Matches_WordB_inv in M1. destruct M1 as [-> [-> Hx1]].
    apply Matches_Cat_inv in M2. destruct M2 as [cs3 [cs4 [g2 [-> [M3 M4]]]]].
    apply Matches_WordB_inv in M4. destruct M4 as [-> [-> Hx2]].
    cbn [last_char append] in *. rewrite append_empty_r in *.
    exists cs3. split.
    + apply (HP (last_char None pre) cs3 rest []). exists g2. exact M3.
    + exists pre, rest. split; [exact Hs |]. split; [exact Hx1 |].
      rewrite last_char_append. exact Hx2.
  - intros [w [Hw [pre [post [Hs [Hx1 Hx2]]]]]].
    apply (HP (last_char None pre) w post []) in Hw. destruct Hw as [g' M].
    exists pre, w, post, g'. split; [exact Hs |].
    change w with (EmptyString ++ w) at 1. econstructor.
    + constructor. exact Hx1.
    + cbn [last_char]. apply Matches_Cat_empty_r with (g1 := g'); [exact M |].
      constructor. rewrite <- last_char_append. exact Hx2.
Qed.

Lemma occurs_whole_word (w s : string) :
  occurs false (Re.seq [Re.WordB; Re.lit w; Re.WordB]) s <-> whole_word w s.
Proof.
  cbn [Re.seq].
  rewrite (occurs_between_boundaries (Re.lit w) (fun cs => cs = w)).
  - split; [intros [x [-> H]]; exact H | intros H; exists w; auto].
  - intros prev cs rest g. split.
    + intros [g' M]. apply Matches_lit_iff in M. apply M.
    + intros ->. exists g. apply Matches_lit_iff. auto.
Qed.

(** Where a phrase stands as a whole word, so does its first word. *)
Lemma whole_word_first_word (w1 w2 s : string) (c1 c2 : ascii) :
  last_char None w1 = Some c1 -> Py.is_word c1 = true ->
  w2 = String c2 (match w2 with String _ t => t | EmptyString => EmptyString end) ->
  Py.is_word c2 = false ->
  whole_word (w1 ++ w2) s -> whole_word w1 s.
Proof.
  intros H1 Hc1 H2 Hc2 [pre [post [Hs [Hx1 Hx2]]]].
  exists pre, (w2 ++ post). split; [rewrite Hs, append_assoc; reflexivity |]. split.
  - rewrite append_assoc in Hx1. exact Hx1.
  - rewrite last_char_append.
    assert (E : last_char (last_char None pre) w1 = Some c1).
    { destruct w1 as [| x t]; [discriminate |]. simpl in *. exact H1. }
    rewrite E, H2. simpl. rewrite Hc1, Hc2. reflexivity.
Qed.

(** X19: [detect_count] answers [True] exactly when the lowered text has
    "how many", "count" or "number of" standing as a whole word. *)
Theorem detect_count_iff_whole_word (nl : string) :
  detect_count nl = true <->
  whole_word "how many" (Py.lower nl) \/ whole_word "count" (Py.lower nl) \/
  whole_word "number of" (Py.lower nl).
Proof.
  unfold detect_count. rewrite found_search_iff_occurs.
  unfold COUNT_RE. cbn [Re.alt]. rewrite !occurs_Alt, !occurs_whole_word. reflexivity.
Qed.

(** X20: [detect_sum_request] answers [True] exactly when the lowered text
    has "total" or "sum" standing as a whole word: the alternatives
    "total cost" and "total amount" of the pattern add nothing. *)
Theorem detect_sum_request_iff_total_or_sum (nl : string) :
  detect_sum_request nl = true <->
  whole_word "total" (Py.lower nl) \/ whole_word "sum" (Py.lower nl).
Proof.
  unfold detect_sum_request. rewrite found_search_iff_occurs.
  unfold SUM_RE. cbn [Re.seq Re.alt].
  rewrite (occurs_between_boundaries _
             (fun cs => cs = "total" \/ cs = "sum" \/ cs = "total cost" \/ cs = "total amount")).
  - split.
    + intros [w [[-> | [-> | [-> | ->]]] H]]; auto.
      * left. apply (whole_word_first_word "total" " cost" _ "l" " "); auto.
      * left. apply (whole_word_first_word "total" " amount" _ "l" " "); auto.
    + intros [H | H]; [exists "total" | exists "sum"]; auto.
  - intros prev cs rest g. split.
    + intros [g' M]. apply Matches_Grp_inv in M. destruct M as [g1 [_ M]].
      apply Matches_Alt_inv in M. destruct M as [M | M];
        [apply Matches_lit_iff in M; tauto |].
      apply Matches_Alt_inv in M. destruct M as [M | M];
        [apply Matches_lit_iff in M; tauto |].
      apply Matches_Alt_inv in M. destruct M as [M | M];
        apply Matches_lit_iff in M; tauto.
    + intros H. eexists. constructor.
      destruct H as [-> | [-> | [-> | ->]]].
      * apply M_AltL. apply Matches_lit_iff. split; reflexivity.
      * apply M_AltR, M_AltL. apply Matches_lit_iff. split; reflexivity.
      * apply M_AltR, M_AltR, M_AltL. apply Matches_lit_iff. split; reflexivity.
      * apply M_AltR, M_AltR, M_AltR. apply Matches_lit_iff. split; reflexivity.
Qed.

Lemma seven_is_a_digit (c : ascii) :
  Re.atom_has true (Re.Chr "7") c = true -> Re.atom_has true Re.digit c = true.
Proof.
  destruct c as [[] [] [] [] [] [] [] []]; vm_compute; intros H;
    first [reflexivity | discriminate H].
Qed.

(** Whatever "last 7 days" or "last 7 day" matches, "last N days" matches. *)
Lemma last_7_is_last_n (r : Re.regex) (prev : option ascii) (cs rest : string)
    (g' : Re.groups) :
  r = LAST_7_DAYS_RE \/ r = LAST_7_DAY_RE ->
  Matches true r prev cs rest [] g' ->
  exists h, Matches true LAST_N_DAYS_RE prev cs rest [] h.
Proof.
  intros Hr M.
  assert (H : exists cs1 cs2 cs3 cs4 cs5 g1 g2 g3 g4 h,
             cs = cs1 ++ cs2 ++ cs3 ++ cs4 ++ cs5 /\
             Matches true (Re.lit "last") prev cs1
               ((cs2 ++ cs3 ++ cs4 ++ cs5) ++ rest) [] g1 /\
             Matches true (Re.plus Re.space) (last_char prev cs1) cs2
               ((cs3 ++ cs4 ++ cs5) ++ rest) g1 g2 /\
             Matches true (Re.lit "7") (last_char (last_char prev cs1) cs2) cs3
               ((cs4 ++ cs5) ++ rest) g2 g3 /\
             Matches true (Re.plus Re.space)
               (last_char (last_char (last_char prev cs1) cs2) cs3) cs4 (cs5 ++ rest) g3 g4 /\
             Matches true (Re.Cat (Re.lit "day") (Re.maybe "s"))
               (last_char (last_char (last_char (last_char prev cs1) cs2) cs3) cs4)
               cs5 rest g4 h).
  { destruct Hr as [-> | ->]; cbv [LAST_7_DAYS_RE LAST_7_DAY_RE Re.seq] in M;
      apply Matches_Cat_inv in M; destruct M as [cs1 [r1 [g1 [-> [M1 M]]]]];
      apply Matches_Cat_inv in M; destruct M as [cs2 [r2 [g2 [-> [M2 M]]]]];
      apply Matches_Cat_inv in M; destruct M as [cs3 [r3 [g3 [-> [M3 M]]]]];
      apply Matches_Cat_inv in M; destruct M as [cs4 [cs5 [g4 [-> [M4 M5]]]]].
    - exists cs1, cs2, cs3, cs4, cs5, g1, g2, g3, g4, g'. repeat split; assumption.
    - exists cs1, cs2, cs3, cs4, cs5, g1, g2, g3, g4, g4. repeat split; try assumption.
      apply Matches_Cat_empty_r with (g1 := g'); [exact M5 |].
      unfold Re.maybe. assert (g' = g4) as ->.
      { clear - M5. cbv [Re.lit] in M5. 
        apply Matches_Cat_inv in M5. destruct M5 as [a [b [h1 [-> [N1 N]]]]].
        apply Matches_Cat_inv in N. destruct N as [c [d [h2 [-> [N2 N3]]]]].
        apply Matches_One_inv in N1, N2, N3.
        destruct N1 as [? [_ [-> _]]]. destruct N2 as [? [_ [-> _]]].
        destruct N3 as [? [_ [-> _]]]. reflexivity. }
      constructor; simpl; auto. }
  destruct H as [cs1 [cs2 [cs3 [cs4 [cs5 [g1 [g2 [g3 [g4 [h [-> [M1 [M2 [M3 [M4 M5]]]]]]]]]]]]]]].
  assert (N3 : Matches true (Re.Grp 1 (Re.plus Re.digit)) (last_char (last_char prev cs1) cs2)
                 cs3 ((cs4 ++ cs5) ++ rest) g2 ((1%nat, cs3) :: g2)).
  { constructor. cbv [Re.lit] in M3. apply Matches_One_inv in M3.
    destruct M3 as [c [-> [_ Hc]]]. unfold Re.plus. constructor.
    - cbn [all_chars]. rewrite (seven_is_a_digit c Hc). reflexivity.
    - simpl. lia.
    - exact I. }
  destruct (Matches_any_groups _ _ _ _ _ _ _ M4 ((1%nat, cs3) :: g2)) as [h4 N4].
  destruct (Matches_any_groups _ _ _ _ _ _ _ M5 h4) as [h5 N5].
  exists h5. cbv [LAST_N_DAYS_RE Re.seq].
  econstructor; [exact M1 |]. econstructor; [exact M2 |].
  econstructor; [exact N3 |]. econstructor; [exact N4 | exact N5].
Qed.

(** X21: the "last 7 days" special case (lines 153-157) never decides: when
    the search for "last N days" on line 146 finds nothing, neither
    pattern of line 154 occurs in the text. *)
Theorem last_7_days_special_case_never_applies (nl : string) :
  Re.search true LAST_N_DAYS_RE nl = None ->
  Re.found (Re.search true LAST_7_DAYS_RE nl)
  || Re.found (Re.search true LAST_7_DAY_RE nl) = false.
Proof.
  intros Hn. apply search_None_iff_not_occurs in Hn.
  apply orb_false_iff. split.
  - destruct (Re.found (Re.search true LAST_7_DAYS_RE nl)) eqn:E; [| reflexivity].
    exfalso. apply Hn. apply found_search_iff_occurs in E.
    destruct E as [pre [cs [rest [g' [Hs M]]]]].
    destruct (last_7_is_last_n _ _ _ _ _ (or_introl eq_refl) M) as [h N].
    exists pre, cs, rest, h. split; assumption.
  - destruct (Re.found (Re.search true LAST_7_DAY_RE nl)) eqn:E; [| reflexivity].
    exfalso. apply Hn. apply found_search_iff_occurs in E.
    destruct E as [pre [cs [rest [g' [Hs M]]]]].
    destruct (last_7_is_last_n _ _ _ _ _ (or_intror eq_refl) M) as [h N].
    exists pre, cs, rest, h. split; assumption.
Qed.

Lemma last_7_days_special_case_never_applies_witness :
  Re.found (Re.search true LAST_7_DAYS_RE "shipped last week")
  || Re.found (Re.search true LAST_7_DAY_RE "shipped last week") = false.
Proof.
  assert (H : Re.search true LAST_N_DAYS_RE "shipped last week" = None)
    by (vm_compute; reflexivity).
  exact (last_7_days_special_case_never_applies "shipped last week" H).
Defined.

(* ------------------------------------------------------------------ *)
(** ** Texts without digits or comparison signs *)

Lemma some_char_append (p : ascii -> bool) (a b : string) :
  some_char p (a ++ b) = some_char p a || some_char p b.
Proof.
  induction a as [| x a IH]; simpl; [reflexivity | rewrite IH, orb_assoc; reflexivity].
Qed.

Lemma all_chars_some_char (p q : ascii -> bool) (cs : string) :
  (forall c, q c = true -> p c = true) ->
  all_chars q cs = true -> (1 <= String.length cs)%nat -> some_char p cs = true.
Proof.
  intros Hpq Hall Hl. destruct cs as [| c t]; [simpl in Hl; lia |].
  simpl in *. apply andb_true_iff in Hall. destruct Hall as [Hc _].
  rewrite (Hpq c Hc). reflexivity.
Qed.

Lemma some_char_lstrip (p : ascii -> bool) (s : string) :
  some_char p s = false -> some_char p (Py.lstrip s) = false.
Proof.
  induction s as [| c t IH]; simpl; [auto |]. intros H.
  apply orb_false_iff in H. destruct H as [Hc Ht].
  destruct (Py.is_space c); [apply IH, Ht |]. simpl. rewrite Hc, Ht. reflexivity.
Qed.

Lemma some_char_rstrip (p : ascii -> bool) (s : string) :
  some_char p s = false -> some_char p (Py.rstrip s) = false.
Proof.
  induction s as [| c t IH]; simpl; [auto |]. intros H.
  apply orb_false_iff in H. destruct H as [Hc Ht]. specialize (IH Ht).
  destruct (Py.rstrip t) as [| c' t'].
  - destruct (Py.is_space c); simpl; [reflexivity | rewrite Hc; reflexivity].
  - cbn [some_char]. rewrite Hc. exact IH.
Qed.

Lemma some_char_strip (p : ascii -> bool) (s : string) :
  some_char p s = false -> some_char p (Py.strip s) = false.
Proof.
  intros H. unfold Py.strip. apply some_char_rstrip, some_char_lstrip, H.
Qed.

Lemma digit_class (ic : bool) (c : ascii) :
  Re.atom_has ic Re.digit c = true -> Py.is_digit c = true.
Proof.
  destruct ic; destruct c as [[] [] [] [] [] [] [] []]; vm_compute; intros H;
    first [reflexivity | discriminate H].
Qed.

(** A run of [\d+] holds a digit. *)
Lemma digits_some_digit (ic : bool) (prev : option ascii) (cs rest : string)
    (g g' : Re.groups) :
  Matches ic (Re.plus Re.digit) prev cs rest g g' -> some_char Py.is_digit cs = true.
Proof.
  intros M. apply Matches_Rep_inv in M. destruct M as [_ [Hall [Hl _]]].
  exact (all_chars_some_char Py.is_digit _ cs (digit_class ic) Hall Hl).
Qed.

Lemma top_needs_digit (s : string) :
  some_char Py.is_digit s = false -> Re.search true TOP_RE s = None.
Proof.
  intros H. apply search_None_iff_not_occurs. intros [pre [cs [rest [g' [Hs M]]]]].
  cbv [TOP_RE Re.seq] in M.
  apply Matches_Cat_inv in M. destruct M as [cs1 [r1 [g1 [-> [_ M]]]]].
  apply Matches_Cat_inv in M. destruct M as [cs2 [cs3 [g2 [-> [_ M]]]]].
  apply Matches_Grp_inv in M. destruct M as [g3 [_ M]].
  apply digits_some_digit in M.
  rewrite Hs, !some_char_append, M, !orb_true_r in H. discriminate H.
Qed.

Lemma last_n_needs_digit (s : string) :
  some_char Py.is_digit s = false -> Re.search true LAST_N_DAYS_RE s = None.
Proof.
  intros H. apply search_None_iff_not_occurs. intros [pre [cs [rest [g' [Hs M]]]]].
  cbv [LAST_N_DAYS_RE Re.seq] in M.
  apply Matches_Cat_inv in M. destruct M as [cs1 [r1 [g1 [-> [_ M]]]]].
  apply Matches_Cat_inv in M. destruct M as [cs2 [r2 [g2 [-> [_ M]]]]].
  apply Matches_Cat_inv in M. destruct M as [cs3 [r3 [g3 [-> [M _]]]]].
  apply Matches_Grp_inv in M. destruct M as [g4 [_ M]].
  apply digits_some_digit in M.
  rewrite Hs, !some_char_append, M, !orb_true_r in H.
  rewrite ?orb_true_l in H. discriminate H.
Qed.

Lemma numeric_needs_sign (s : string) :
  some_char is_comparison_sign s = false ->
  Re.finditer false NUMERIC_RE s = [].
Proof.
  intros H. apply finditer_not_occurs. intros [pre [cs [rest [g' [Hs M]]]]].
  cbv [NUMERIC_RE Re.seq Re.alt] in M.
  apply Matches_Cat_inv in M. destruct M as [cs1 [r1 [g1 [-> [_ M]]]]].
  apply Matches_Cat_inv in M. destruct M as [cs2 [r2 [g2 [-> [_ M]]]]].
  apply Matches_Cat_inv in M. destruct M as [cs3 [r3 [g3 [-> [M _]]]]].
  apply Matches_Grp_inv in M. destruct M as [g4 [_ M]].
  assert (E : some_char is_comparison_sign cs3 = true).
  { apply Matches_Alt_inv in M. destruct M as [M | M];
      [apply Matches_lit_iff in M; destruct M as [-> _]; reflexivity |].
    apply Matches_Alt_inv in M. destruct M as [M | M];
      [apply Matches_lit_iff in M; destruct M as [-> _]; reflexivity |].
    apply Matches_Alt_inv in M. destruct M as [M | M];
      [apply Matches_lit_iff in M; destruct M as [-> _]; reflexivity |].
    apply Matches_Alt_inv in M. destruct M as [M | M];
      apply Matches_lit_iff in M; destruct M as [-> _]; reflexivity. }
  rewrite Hs, !some_char_append, E, !orb_true_r in H.
  rewrite ?orb_true_l in H. discriminate H.
Qed.

(** With a valid clock in the years 2 to 9998 and no "last N days" in the
    text, the relative phrases resolve. *)
Lemma relative_range_returns (now : datetime) (nl f : string) :
  valid_datetime now = true -> 2 <= year now <= 9998 ->
  Re.search true LAST_N_DAYS_RE nl = None ->
  exists d, relative_range now nl f = Ok d.
Proof.
  intros Hv Hy Hn.
  pose proof (valid_datetime_inv now Hv) as [[Hy' [Hm Hd]] _].
  pose proof (toordinal_valid now Hv) as [Ho [Ho2 Ho3]].
  pose proof (weekday_range now) as Hwd.
  unfold relative_range. cbv zeta.
  destruct (any_in MONTH_KEYWORDS (Py.lower nl)).
  { rewrite (first_of_month now Hv). cbn [bind].
    rewrite (first_of_next_month (year now) (month now) (tzinfo now) Hy' Hm).
    replace (year now =? 9999) with false by (symmetry; apply Z.eqb_neq; lia).
    cbn [andb bind]. eexists. reflexivity. }
  destruct (any_in YEAR_KEYWORDS (Py.lower nl)).
  { assert (E1 : replace now None (Some 1) (Some 1) (Some 0) (Some 0) (Some 0) (Some 0) =
                 Ok (midnight_of (year now) 1 1 (tzinfo now))).
    { unfold replace. cbn [or_default].
      rewrite (check_date_fields_intro (year now) 1 1 Hy')
        by (try lia; pose proof (days_in_month_pos (year now) 1); lia).
      reflexivity. }
    rewrite E1. cbn [bind]. unfold replace.
    cbn [or_default midnight_of year month day hour minute second microsecond tzinfo].
    rewrite (check_date_fields_intro (year now + 1) 1 1)
      by (try lia; pose proof (days_in_month_pos (year now + 1) 1); lia).
    cbn [andb check_time_fields bind]. eexists. reflexivity. }
  destruct (any_in WEEK_KEYWORDS (Py.lower nl)).
  { unfold timedelta_days at 1.
    replace (Z.abs (weekday now) <=? 999999999) with true by (symmetry; apply Z.leb_le; lia).
    cbn [bind]. unfold sub_days.
    destruct (add_days_in_range now (- weekday now)) as [d [Ed [Hod [Hvd _]]]]; [lia |].
    rewrite Ed. cbn [bind]. rewrite (midnight_valid d Hvd). cbn [bind].
    change (timedelta_days 7) with (Ok (A := Z) 7). cbn [bind].
    destruct (add_days_in_range (midnight_of (year d) (month d) (day d) (tzinfo d)) 7)
      as [nm [En _]].
    { change (toordinal (midnight_of (year d) (month d) (day d) (tzinfo d)))
        with (toordinal d). lia. }
    rewrite En. cbn [bind]. eexists. reflexivity. }
  rewrite Hn.
  replace (Re.found (Re.search true LAST_7_DAYS_RE nl)
           || Re.found (Re.search true LAST_7_DAY_RE nl)) with false;
    [eexists; reflexivity |].
  symmetry. apply search_None_iff_not_occurs in Hn. apply orb_false_iff.
  split.
  - destruct (Re.found (Re.search true LAST_7_DAYS_RE nl)) eqn:E; [| reflexivity].
    exfalso. apply Hn. apply found_search_iff_occurs in E.
    destruct E as [pre [cs [rest [g' [Hs M]]]]].
    destruct (last_7_is_last_n _ _ _ _ _ (or_introl eq_refl) M) as [h N].
    exists pre, cs, rest, h. split; assumption.
  - destruct (Re.found (Re.search true LAST_7_DAY_RE nl)) eqn:E; [| reflexivity].
    exfalso. apply Hn. apply found_search_iff_occurs in E.
    destruct E as [pre [cs [rest [g' [Hs M]]]]].
    destruct (last_7_is_last_n _ _ _ _ _ (or_intror eq_refl) M) as [h N].
    exists pre, cs, rest, h. split; assumption.
Qed.

(** X22: a text with no decimal digit and none of the signs [<], [>], [=]
    never makes [build_query] raise, whatever the columns and overrides,
    when the clock reads a valid datetime in the years 2 to 9998: nothing
    is left for [int], [float] or the calendar arithmetic to reject. *)
Theorem build_query_returns_on_plain_text
    (w : World) (nl_text : option string) (columns : list string)
    (date_override cost_override : option string) :
  some_char Py.is_digit (Py.or_empty nl_text) = false ->
  some_char is_comparison_sign (Py.or_empty nl_text) = false ->
  valid_datetime (now_with_tz w) = true ->
  2 <= year (now_with_tz w) <= 9998 ->
  exists q, build_query w nl_text columns date_override cost_override = Ok q.
Proof.
  intros Hd Hs Hv Hy. unfold build_query. cbv zeta.
  set (nl := Py.strip (Py.or_empty nl_text)).
  assert (Hd' : some_char Py.is_digit nl = false) by apply some_char_strip, Hd.
  assert (Hs' : some_char is_comparison_sign nl = false) by apply some_char_strip, Hs.
  assert (Hp : exists d, parse_date_specifics w nl columns date_override = Ok d).
  { unfold parse_date_specifics. cbv zeta.
    destruct (Py.or_else date_override (detect_date_field columns)) as [f |];
      [| eexists; reflexivity].
    destruct (negb (Py.truthy (Some f))); [eexists; reflexivity |].
    destruct (explicit_range nl f); [eexists; reflexivity |].
    apply relative_range_returns; [exact Hv | exact Hy |].
    apply last_n_needs_digit, Hd'. }
  destruct Hp as [d Hp]. unfold build_filter. rewrite Hp. cbn [bind]. cbv zeta.
  rewrite (numeric_needs_sign nl Hs'). cbn [comparison_loop bind].
  destruct (detect_count nl); [eexists; reflexivity |].
  destruct (sum_branch _ _ _ _); [eexists; reflexivity |].
  destruct (group_branch _ _ _ _); [eexists; reflexivity |].
  unfold top_branch, detect_top_n. rewrite (top_needs_digit nl Hd'). cbn [bind].
  eexists. reflexivity.
Qed.

Lemma build_query_returns_on_plain_text_witness :
  exists q,
    build_query world_2024_03_15 (Some "total cost by status this week")
      ["Ship Date"; "Status"; "Cost"] None None = Ok q.
Proof.
  apply (build_query_returns_on_plain_text world_2024_03_15
           (Some "total cost by status this week") ["Ship Date"; "Status"; "Cost"] None None).
  - vm_compute. reflexivity.
  - vm_compute. reflexivity.
  - vm_compute. reflexivity.
  - vm_compute. split; discriminate.
Defined.

(* ------------------------------------------------------------------ *)
(** ** Substrings *)

Lemma prefix_append (a b : string) : String.prefix a (a ++ b) = true.
Proof.
  induction a as [| x a IH]; simpl; [destruct b; reflexivity |].
  destruct (ascii_dec x x) as [_ | N]; [exact IH | destruct N; reflexivity].
Qed.

Lemma contains_append (sub pre post : string) :
  Py.contains sub (pre ++ sub ++ post) = true.
Proof.
  induction pre as [| x pre IH].
  - simpl append. destruct (sub ++ post) eqn:E; cbn [Py.contains];
      rewrite <- E, prefix_append; reflexivity.
  - simpl append. cbn [Py.contains]. rewrite IH. apply orb_true_r.
Qed.

Lemma prefix_inv (a s : string) :
  String.prefix a s = true -> exists b, s = a ++ b.
Proof.
  revert s. induction a as [| x a IH]; intros s H.
  - exists s. reflexivity.
  - destruct s as [| y s]; simpl in H; [discriminate |].
    destruct (ascii_dec x y) as [-> | _]; [| discriminate].
    destruct (IH s H) as [b ->]. exists b. reflexivity.
Qed.

Lemma contains_inv (sub s : string) :
  Py.contains sub s = true -> exists pre post, s = pre ++ sub ++ post.
Proof.
  induction s as [| c t IH]; cbn [Py.contains]; intros H.
  - rewrite orb_false_r in H. destruct (prefix_inv _ _ H) as [b Hb].
    exists EmptyString, b. exact Hb.
  - apply orb_true_iff in H. destruct H as [H | H].
    + destruct (prefix_inv _ _ H) as [b Hb]. exists EmptyString, b. exact Hb.
    + destruct (IH H) as [pre [post ->]]. exists (String c pre), post. reflexivity.
Qed.

(** A text that holds a phrase holds each ending of the phrase. *)
Lemma contains_ending (a b s : string) :
  Py.contains (a ++ b) s = true -> Py.contains b s = true.
Proof.
  intros H. destruct (contains_inv _ _ H) as [pre [post ->]].
  rewrite append_assoc, <- (append_assoc pre a). apply contains_append.
Qed.

(** X23: the phrase test of [detect_group_by] (line 182) is the test for
    "by status" alone: its operands "group by status" and "grouped by
    status" add nothing. *)
Theorem detect_group_by_status_phrase (nl : string) :
  detect_group_by nl =
  match Re.search true GROUP_BY_RE nl with
  | Some m => Some (Py.strip (Re.group 1 m))
  | None => if Py.contains "by status" (Py.lower nl) then Some "status" else None
  end.
Proof.
  unfold detect_group_by. destruct (Re.search true GROUP_BY_RE nl); [reflexivity |].
  destruct (Py.contains "by status" (Py.lower nl)) eqn:E; [reflexivity |].
  destruct (Py.contains "group by status" (Py.lower nl)) eqn:E1.
  { rewrite (contains_ending "group " "by status" _ E1) in E. discriminate E. }
  destruct (Py.contains "grouped by status" (Py.lower nl)) eqn:E2.
  { rewrite (contains_ending "grouped " "by status" _ E2) in E. discriminate E. }
  reflexivity.
Qed.

(* ------------------------------------------------------------------ *)
(** ** What the comparison pattern captures *)

Lemma finditer_from_sound (ic : bool) (r : Re.regex) (g : Re.groups) (s : string) :
  forall (prev : option ascii) (skip : nat),
  In g (Re.finditer_from ic r prev s skip) ->
  exists prev' cs rest, Matches ic r prev' cs rest [] g.
Proof.
  induction s as [| c t IH]; intros prev skip; cbn [Re.finditer_from].
  - destruct skip; [| intros []].
    destruct (Re.match_at ic r prev EmptyString) as [[g0 s'] |] eqn:E; [| intros []].
    intros [<- | []]. destruct (match_at_Some_inv _ _ _ _ _ _ E) as [cs [_ M]].
    exists prev, cs, s'. exact M.
  - destruct skip; [| apply IH].
    destruct (Re.match_at ic r prev (String c t)) as [[g0 s'] |] eqn:E; [| apply IH].
    intros [<- | H]; [| eapply IH, H].
    destruct (match_at_Some_inv _ _ _ _ _ _ E) as [cs [_ M]].
    exists prev, cs, s'. exact M.
Qed.

Lemma number_class (c : ascii) :
  Re.atom_has false (Re.Cls [Re.CRange "0" "9"; Re.CChar ","; Re.CChar "."]) c = true ->
  is_number_char c = true.
Proof.
  destruct c as [[] [] [] [] [] [] [] []]; vm_compute; intros H;
    first [reflexivity | discriminate H].
Qed.

Lemma all_chars_impl (p q : ascii -> bool) (cs : string) :
  (forall c, p c = true -> q c = true) -> all_chars p cs = true -> all_chars q cs = true.
Proof.
  intros Hpq. induction cs as [| c t IH]; simpl; [auto |]. intros H.
  apply andb_true_iff in H. destruct H as [Hc Ht]. rewrite (Hpq c Hc), (IH Ht). reflexivity.
Qed.

(** X24: every comparison line 220 finds carries an operator that is a key
    of [opmap], so line 228 never fails on the lookup; its field text has
    2 to 40 characters and its number text is a non-empty run of digits,
    commas and dots. *)
Theorem comparisons_carry_known_operators (nl : string) :
  Forall (fun m =>
            In (Re.group 2 m) [">="; "<="; ">"; "<"; "="] /\
            (2 <= String.length (Re.group 1 m) <= 40)%nat /\
            all_chars is_number_char (Re.group 3 m) = true /\
            (1 <= String.length (Re.group 3 m))%nat)
         (Re.finditer false NUMERIC_RE nl).
Proof.
  apply Forall_forall. intros m Hm.
  destruct (finditer_from_sound _ _ _ _ _ _ Hm) as [prev [cs [rest M]]].
  cbv [NUMERIC_RE Re.seq Re.alt Re.star Re.plus] in M.
  apply Matches_Cat_inv in M. destruct M as [cs1 [r1 [g1 [-> [M1 M]]]]].
  apply Matches_Cat_inv in M. destruct M as [cs2 [r2 [g2 [-> [M2 M]]]]].
  apply Matches_Cat_inv in M. destruct M as [cs3 [r3 [g3 [-> [M3 M]]]]].
  apply Matches_Cat_inv in M. destruct M as [cs4 [cs5 [g4 [-> [M4 M5]]]]].
  apply Matches_Grp_inv in M1. destruct M1 as [h1 [-> M1]].
  apply Matches_Rep_inv in M1. destruct M1 as [-> [_ [Hlo Hhi]]].
  apply Matches_Rep_inv in M2. destruct M2 as [-> _].
  apply Matches_Grp_inv in M3. destruct M3 as [h3 [-> M3]].
  apply Matches_Rep_inv in M4. destruct M4 as [-> _].
  apply Matches_Grp_inv in M5. destruct M5 as [h5 [-> M5]].
  apply Matches_Rep_inv in M5. destruct M5 as [-> [Hall [Hl _]]].
  assert (Hop : h3 = [(1%nat, cs1)] /\ In cs3 [">="; "<="; ">"; "<"; "="]).
  { apply Matches_Alt_inv in M3. destruct M3 as [M | M];
      [apply Matches_lit_iff in M; destruct M as [-> ->]; simpl; auto 8 |].
    apply Matches_Alt_inv in M. destruct M as [M | M];
      [apply Matches_lit_iff in M; destruct M as [-> ->]; simpl; auto 8 |].
    apply Matches_Alt_inv in M. destruct M as [M | M];
      [apply Matches_lit_iff in M; destruct M as [-> ->]; simpl; auto 8 |].
    apply Matches_Alt_inv in M. destruct M as [M | M];
      apply Matches_lit_iff in M; destruct M as [-> ->]; simpl; auto 8. }
  destruct Hop as [-> Hop]. cbn [Re.group Nat.eqb]. simpl in Hhi.
  split; [exact Hop |]. split; [lia |]. split; [| exact Hl].
  exact (all_chars_impl _ _ cs5 number_class Hall).
Qed.

(** X25: what follows "top" is read as a decimal number: the captured text
    is a non-empty run of digits, and [detect_top_n] returns its value,
    raising [ValueError] only when the run has more than 4300 digits. *)
Theorem detect_top_n_reads_the_digits (nl : string) (m : Re.groups) :
  Re.search true TOP_RE nl = Some m ->
  Py.all_digits (Re.group 1 m) = true /\
  (1 <= String.length (Re.group 1 m))%nat /\
  detect_top_n nl =
    if (Py.INT_MAX_STR_DIGITS <? String.length (Re.group 1 m))%nat then Raise ValueError
    else Ok (Some (Py.digits_val 0 (Re.group 1 m))).
Proof.
  intros Hs.
  destruct (search_from_Some_inv _ _ _ _ _ Hs) as [pre [cs [rest [_ M]]]].
  cbv [TOP_RE Re.seq] in M.
  apply Matches_Cat_inv in M. destruct M as [cs1 [r1 [g1 [-> [_ M]]]]].
  apply Matches_Cat_inv in M. destruct M as [cs2 [cs3 [g2 [-> [_ M]]]]].
  apply Matches_Grp_inv in M. destruct M as [g3 [-> M]].
  apply Matches_Rep_inv in M. destruct M as [_ [Hall [Hl _]]].
  cbn [Re.group Nat.eqb].
  assert (Hd : Py.all_digits cs3 = true).
  { clear - Hall. induction cs3 as [| c t IH]; simpl in *; [reflexivity |].
    apply andb_true_iff in Hall. destruct Hall as [Hc Ht].
    rewrite (digit_class true c Hc), (IH Ht). reflexivity. }
  split; [exact Hd |]. split; [exact Hl |].
  unfold detect_top_n. rewrite Hs. cbn [Re.group Nat.eqb]. unfold Py.int. rewrite Hd.
  destruct cs3 as [| c t]; [simpl in Hl; lia |]. cbn [negb orb String.eqb].
  destruct (Py.INT_MAX_STR_DIGITS <? String.length (String c t))%nat; reflexivity.
Qed.

Lemma detect_top_n_reads_the_digits_witness :
  detect_top_n "top 12 most expensive shipments" = Ok (Some 12).
Proof.
  assert (H : Re.search true TOP_RE "top 12 most expensive shipments" = Some [(1%nat, "12")])
    by (vm_compute; reflexivity).
  exact (proj2 (proj2 (detect_top_n_reads_the_digits
                         "top 12 most expensive shipments" [(1%nat, "12")] H))).
Defined.
